(** * aem_to_normalized: the normalization engine, embedded and verified

    A shallow embedding of [aem_to_normalized.py].  The script turns a flat
    list of AEM content records into four tables ([content],
    [content_to_text], [content_to_content], [content_to_attribute]).

    Conventions of the embedding.
    - Parsed JSON is the inductive type [json]; JSON numbers are integers
      (floating point values are outside the model).  A [JDict] is an
      association list read by first match, so it denotes the Python dict
      that binds every key to its first entry.
    - Python strings are [string]s (UTF-8 bytes).  The operations modelled
      here in full ([startswith], [in], [split], [rstrip] on an ASCII
      separator) act the same on bytes and on code points.
    - A Python exception is the [Raise] branch of [result].
    - Builtins whose meaning depends on Unicode tables, on the clock or on
      the network are fields of [Runtime]. *)

From Stdlib Require Import String Ascii List ZArith Bool Lia Arith.
From Stdlib Require Import DecimalString.
Import ListNotations.

Local Open Scope string_scope.
Local Open Scope list_scope.

Set Implicit Arguments.
Set Warnings "-register-all".

(** ** Exceptions *)

Inductive exn : Type :=
| AttributeError
| TypeError
| KeyError
| ValueError.

Inductive result (A : Type) : Type :=
| Ok (a : A)
| Raise (e : exn).

Arguments Ok {A} a.
Arguments Raise {A} e.

Definition bind {A B : Type} (m : result A) (f : A -> result B) : result B :=
  match m with
  | Ok a => f a
  | Raise e => Raise e
  end.

Notation "x <- m ;; k" := (bind m (fun x => k))
  (at level 61, m at next level, right associativity).
Notation "' pat <- m ;; k" := (bind m (fun x => match x with pat => k end))
  (at level 61, pat pattern, m at next level, right associativity).

(** [for x in l: st = body x st], stopping at the first exception. *)
Fixpoint for_each {A S : Type} (body : A -> S -> result S) (l : list A) (st : S)
  : result S :=
  match l with
  | [] => Ok st
  | x :: l' => st' <- body x st ;; for_each body l' st'
  end.

(** [for idx, x in enumerate(l)], counting from [idx]. *)
Fixpoint for_enumerate {A S : Type} (body : Z -> A -> S -> result S)
  (idx : Z) (l : list A) (st : S) : result S :=
  match l with
  | [] => Ok st
  | x :: l' => st' <- body idx x st ;; for_enumerate body (idx + 1)%Z l' st'
  end.

(** ** JSON values *)

Inductive json : Type :=
| JNull
| JBool (b : bool)
| JInt (z : Z)
| JStr (s : string)
| JList (l : list json)
| JDict (d : list (string * json)).

(** Python truth value. *)
Definition truthy (v : json) : bool :=
  match v with
  | JNull => false
  | JBool b => b
  | JInt z => negb (z =? 0)%Z
  | JStr s => negb (s =? "")
  | JList l => match l with [] => false | _ => true end
  | JDict d => match d with [] => false | _ => true end
  end.

(** [a or b]. *)
Definition py_or (a b : json) : json := if truthy a then a else b.

Fixpoint lookup {V : Type} (k : string) (d : list (string * V)) : option V :=
  match d with
  | [] => None
  | (k', v) :: d' => if k' =? k then Some v else lookup k d'
  end.

Definition from_option {A : Type} (d : A) (o : option A) : A :=
  match o with Some a => a | None => d end.

(** [v.get(k, dflt)]: only a dict has the method. *)
Definition py_get (v : json) (k : string) (dflt : json) : result json :=
  match v with
  | JDict d => Ok (from_option dflt (lookup k d))
  | _ => Raise AttributeError
  end.

(** [d.get(k)] on a value already known to be a dict. *)
Definition dict_get (d : list (string * json)) (k : string) : json :=
  from_option JNull (lookup k d).

(** ** Strings *)

Definition startswith (s p : string) : bool := String.prefix p s.

(** [sub in s]. *)
Fixpoint contains (sub s : string) : bool :=
  String.prefix sub s ||
  match s with
  | EmptyString => false
  | String _ s' => contains sub s'
  end.

(** [s.split(c)] for a one-character separator; never empty. *)
Fixpoint split (c : ascii) (s : string) : list string :=
  match s with
  | EmptyString => [""]
  | String a s' =>
      if Ascii.eqb a c then "" :: split c s'
      else match split c s' with
           | [] => [String a ""]
           | w :: ws => String a w :: ws
           end
  end.

Fixpoint lstrip (c : ascii) (s : string) : string :=
  match s with
  | EmptyString => ""
  | String a s' => if Ascii.eqb a c then lstrip c s' else s
  end.

Fixpoint rstrip (c : ascii) (s : string) : string :=
  match s with
  | EmptyString => ""
  | String a s' =>
      match rstrip c s' with
      | EmptyString => if Ascii.eqb a c then "" else String a ""
      | r => String a r
      end
  end.

(** [s.strip(c)]. *)
Definition strip (c : ascii) (s : string) : string := rstrip c (lstrip c s).

Definition slash : ascii := "/"%char.
Definition dot : ascii := "."%char.
Definition qmark : ascii := "?"%char.

(** [l[0]] and [l[-1]] of a split. *)
Definition first_of (l : list string) : string := hd "" l.
Definition last_of (l : list string) : string := last l "".

(** [os.path.basename(p)]: what follows the last slash. *)
Definition basename (p : string) : string := last_of (split slash p).

(** [str(z)] for an integer. *)
Definition str_of_Z (z : Z) : string := NilZero.string_of_int (Z.to_int z).

(** ** Dictionaries and sets keyed by JSON scalars

    Python compares keys with [==] on equal hashes, so [True] and [1] are
    one key; lists and dicts are not hashable.  A dict keeps insertion
    order, and assigning to a key that is present keeps the key object and
    its position. *)

Definition hashable (v : json) : bool :=
  match v with
  | JList _ | JDict _ => false
  | _ => true
  end.

Definition key_norm (v : json) : json :=
  match v with
  | JBool b => JInt (if b then 1 else 0)
  | _ => v
  end.

Definition key_eqb (a b : json) : bool :=
  match key_norm a, key_norm b with
  | JNull, JNull => true
  | JInt x, JInt y => (x =? y)%Z
  | JStr s, JStr t => s =? t
  | _, _ => false
  end.

Definition pydict (V : Type) : Type := list (json * V).

Fixpoint dget {V : Type} (k : json) (d : pydict V) : option V :=
  match d with
  | [] => None
  | (k', v) :: d' => if key_eqb k' k then Some v else dget k d'
  end.

Fixpoint dset {V : Type} (k : json) (v : V) (d : pydict V) : pydict V :=
  match d with
  | [] => [(k, v)]
  | (k', v') :: d' =>
      if key_eqb k' k then (k', v) :: d' else (k', v') :: dset k v d'
  end.

Definition dmem {V : Type} (k : json) (d : pydict V) : bool :=
  match dget k d with Some _ => true | None => false end.

(** [d[k] = v], raising on an unhashable key. *)
Definition dassign {V : Type} (k : json) (v : V) (d : pydict V)
  : result (pydict V) :=
  if hashable k then Ok (dset k v d) else Raise TypeError.

Definition pyset : Type := list json.

Definition smem (k : json) (s : pyset) : bool := existsb (key_eqb k) s.

Definition sadd (k : json) (s : pyset) : pyset :=
  if smem k s then s else s ++ [k].

(** String-keyed caches ([Dict[str, _]], [Set[str]]); never iterated. *)
Definition sset {V : Type} (k : string) (v : V) (d : list (string * V))
  : list (string * V) := (k, v) :: d.

Definition str_mem (k : string) (s : list string) : bool :=
  existsb (String.eqb k) s.

(** ** The runtime *)

Record Runtime : Type := {
  (** [now_iso()] *)
  now_iso : string;
  (** [str(v)] for a list or a dict *)
  repr_compound : json -> string;
  (** [s.lower()], [s.upper()], [s.capitalize()], [s.strip()] *)
  str_lower : string -> string;
  str_upper : string -> string;
  str_capitalize : string -> string;
  str_strip : string -> string;
  (** [f"{pu.scheme}://{pu.netloc}"] for [pu = urlparse(url)];
      [None] when [urlparse] raises [ValueError] *)
  urlparse_origin : string -> option string;
  (** [http_get(url, ...)]; [None] when it raises *)
  http_get : string -> option string;
  (** [json.loads(raw)]; [None] when it raises *)
  json_loads : string -> option json;
  (** [int(s)]; [None] when it raises *)
  int_of_str : string -> option Z
}.

(** ** IDs and maps *)

Definition CONTENT_TYPE_ID : list (string * Z) :=
  [("Curriculum", 1); ("Unit", 2); ("Lesson", 3); ("Page", 4); ("Answer", 5);
   ("Asset", 6); ("Term", 7); ("Tag", 8)]%Z.

Definition PATH_TOKEN_TO_TYPE_ID : list (string * Z) :=
  [("curriculum", 1); ("unit", 2); ("lesson", 3); ("question-answer", 5);
   ("term", 7); ("tag", 8)]%Z.

Definition LABEL_MAP : list (string * Z) :=
  [("iconPage", 303); ("tipPage", 304); ("imagePage", 305);
   ("questionPage", 310); ("lessonTableOfContentsPage", 311);
   ("lessonIntroPage", 313); ("curriculumIntroPage", 314)]%Z.

Definition IMAGE_ROLE_LABEL : list (string * Z) :=
  [("icon", 401); ("iconImage", 401); ("posterImage", 402);
   ("thumbnailImage", 403); ("heroImage", 404); ("titleImage", 405);
   ("title_image", 405); ("titleimage", 405)]%Z.

Definition ROLE_PRIORITY : list (option Z * Z) :=
  [(Some 405, 5); (Some 404, 4); (Some 403, 3); (Some 401, 2); (Some 402, 1);
   (None, 0)]%Z.

Definition role_eqb (a b : option Z) : bool :=
  match a, b with
  | Some x, Some y => (x =? y)%Z
  | None, None => true
  | _, _ => false
  end.

(** [ROLE_PRIORITY.get(r, 0)]. *)
Definition role_priority (r : option Z) : Z :=
  match find (fun e => role_eqb (fst e) r) ROLE_PRIORITY with
  | Some e => snd e
  | None => 0%Z
  end.

Definition ATTR_ID_MAP : list (string * Z) :=
  [("DM", 1); ("HTN", 2); ("DPP", 3); ("WL", 4); ("None", 5); ("Daily", 6);
   ("Weekly", 7); ("Monthly", 8); ("AWM", 9); ("CWC", 10)]%Z.

Definition TAG_TO_ATTR : list (string * Z) :=
  [("dm", 1); ("htn", 2); ("dpp", 3); ("wl", 4); ("awm", 9); ("cwc", 10)]%Z.

Definition TEXT_FIELDS : list (string * Z) :=
  [("title", 1); ("subtitle", 2); ("description", 3); ("beginCaption", 4);
   ("finishCaption", 5); ("completedMessage", 6); ("body", 7); ("tipText", 8);
   ("questionId", 9); ("question", 10); ("otherCaption", 13);
   ("otherPlaceholder", 14); ("acknowledgement", 15); ("name", 16);
   ("definition", 17); ("tipType", 22); ("includeOther", 23);
   ("cadenceSkip", 24); ("lastRequiredPageIndex", 25); ("answerText", 26)]%Z.

Definition SPECIAL_TO_TEXT : list (string * Z) :=
  [("titleRequiredEnglish", 1); ("descriptionRequiredEnglish", 7)]%Z.

Definition IMAGE_URL_KEYS : list string :=
  ["heroImage"; "thumbnailImage"; "posterImage"; "titleImage"; "icon";
   "iconImage"; "title_image"; "titleimage"].

(** The literal prefix matched by [REL_DAM_RE]. *)
Definition REL_DAM_PREFIX : string := "/content/dam/teladoc-headless/image/".

Definition DEFAULT_DAM_BASE : string :=
  "https://publish-p151554-e1560130.adobeaemcloud.com".

Definition TYPE_Curriculum : Z := 1.
Definition TYPE_Unit : Z := 2.
Definition TYPE_Lesson : Z := 3.
Definition TYPE_Page : Z := 4.
Definition TYPE_Answer : Z := 5.
Definition TYPE_Asset : Z := 6.
Definition TYPE_Term : Z := 7.

(** ** Output rows *)

(** [text_value] holds a string, or the integer width and height of an
    asset. *)
Inductive tval : Type :=
| TStr (s : string)
| TInt (z : Z).

Module Content.
Record row : Type := mk {
  cms_id : json;
  content_version : Z;
  content_type_id : option Z;
  content_label_id : option Z;
  created_date : string;
  deleted_date : string
}.
End Content.

Module Ctt.
Record row : Type := mk {
  content_cms_id : json;
  created_date : string;
  deleted_date : string;
  id : option Z;
  locale_id : Z;
  text_index : Z;
  text_type_id : Z;
  text_value : tval
}.
End Ctt.

Module Ctc.
Record row : Type := mk {
  id : option Z;
  parent_cms_id : json;
  child_cms_id : json;
  child_content_label_id : option Z;
  child_index : Z;
  created_date : string;
  deleted_date : string
}.
End Ctc.

Module Cta.
Record row : Type := mk {
  id : option Z;
  content_cms_id : json;
  attribute_id : Z;
  created_date : string;
  deleted_date : string
}.
End Cta.

(** The dict [transform] returns. *)
Module Tables.
Record t : Type := mk {
  content : list Content.row;
  content_to_text : list Ctt.row;
  content_to_content : list Ctc.row;
  content_to_attribute : list Cta.row
}.
End Tables.

(** What [fetch_asset_metadata] returns on success. *)
Record asset_meta : Type := mk_meta {
  meta_title : string;
  meta_width : Z;
  meta_height : Z;
  meta_mime : string
}.

Section Helpers.

Variable rt : Runtime.

(** [str(v)]. *)
Definition py_str (v : json) : string :=
  match v with
  | JStr s => s
  | JNull => "None"
  | JBool true => "True"
  | JBool false => "False"
  | JInt z => str_of_Z z
  | _ => repr_compound rt v
  end.

(** *** URL helpers *)

(** One candidate of [_pick_base_url]: [None] keeps scanning. *)
Definition origin_of (url : json) : option (result string) :=
  match url with
  | JStr s =>
      if startswith s "http" then
        Some (match urlparse_origin rt s with
              | Some o => Ok o
              | None => Raise ValueError
              end)
      else None
  | _ => None
  end.

Fixpoint first_origin (urls : list json) : option (result string) :=
  match urls with
  | [] => None
  | u :: us =>
      match origin_of u with
      | Some r => Some r
      | None => first_origin us
      end
  end.

Fixpoint _pick_base_url (items : list json) : result (option string) :=
  match items with
  | [] => Ok None
  | it :: items' =>
      d0 <- py_get it "data" JNull ;;
      match py_or d0 (JDict []) with
      | JDict data =>
          match first_origin (map (dict_get data) IMAGE_URL_KEYS) with
          | Some r => o <- r ;; Ok (Some o)
          | None =>
              match dict_get data "images" with
              | JList imgs =>
                  match first_origin imgs with
                  | Some r => o <- r ;; Ok (Some o)
                  | None => _pick_base_url items'
                  end
              | _ => _pick_base_url items'
              end
          end
      | _ => Raise AttributeError
      end
  end.

(** [base or DEFAULT_DAM_BASE]. *)
Definition base_or_default (base : option string) : string :=
  match base with
  | Some b => if b =? "" then DEFAULT_DAM_BASE else b
  | None => DEFAULT_DAM_BASE
  end.

Definition _normalize_url (url : json) (base : option string) : json :=
  match url with
  | JStr s =>
      if s =? "" then url
      else if startswith s "http://" || startswith s "https://" then url
      else if startswith s "/" && startswith s REL_DAM_PREFIX then
        JStr (rstrip slash (base_or_default base) ++ s)
      else url
  | _ => url
  end.

(** *** Asset metadata helpers *)

(** [_dig] along a path of string keys. *)
Fixpoint _dig (obj : json) (path_list : list string) : json :=
  match path_list with
  | [] => obj
  | k :: ks =>
      match obj with
      | JDict d =>
          match lookup k d with
          | Some v => _dig v ks
          | None => JNull
          end
      | _ => JNull
      end
  end.

Definition _to_int (v : json) : option Z :=
  match v with
  | JNull => None
  | _ => int_of_str rt (str_strip rt (py_str v))
  end.

Definition derive_asset_id (url : string) : option string :=
  let b := basename url in
  if b =? "" then None else Some (first_of (split dot b)).

Definition derive_asset_ext (url : string) : string :=
  let b := basename url in
  if contains "." b then
    str_strip rt (str_lower rt (first_of (split qmark (last_of (split dot b)))))
  else "".

Definition nonempty_str (v : json) : option string :=
  match v with
  | JStr s => if s =? "" then None else Some s
  | _ => None
  end.

Fixpoint first_nonempty_str (d : list (string * json)) (keys : list string)
  : option string :=
  match keys with
  | [] => None
  | k :: ks =>
      match nonempty_str (dict_get d k) with
      | Some s => Some s
      | None => first_nonempty_str d ks
      end
  end.

Definition _extract_image_url (img : json) : option string :=
  match img with
  | JStr s => if s =? "" then None else Some s
  | JDict d =>
      first_nonempty_str d ["src"; "url"; "fileReference"; "fileRef"; "path"; "href"]
  | _ => None
  end.

(** The body of the [try] of [fetch_asset_metadata], once the response is
    parsed. *)
Definition metadata_of (asset_id : string) (meta : json) : asset_meta :=
  let title_raw := _dig meta ["jcr:content"; "metadata"; "dc:title"] in
  let title : json :=
    match title_raw with
    | JList l => match l with t :: _ => t | [] => JStr asset_id end
    | JNull => JStr asset_id
    | JStr s => if s =? "" then JStr asset_id else title_raw
    | _ => title_raw
    end in
  let mime := _dig meta ["jcr:content"; "metadata"; "dc:format"] in
  let width := _to_int (_dig meta ["jcr:content"; "metadata"; "tiff:ImageWidth"]) in
  let height := _to_int (_dig meta ["jcr:content"; "metadata"; "tiff:ImageLength"]) in
  {| meta_title := match title with JNull => asset_id | _ => py_str title end;
     meta_width := from_option 0%Z width;
     meta_height := from_option 0%Z height;
     meta_mime := if truthy mime then py_str mime else "image/jpeg" |}.

(** The address of the metadata resource of an asset. *)
Definition metadata_url (asset_id : string) (base : option string)
  (ext_hint : string) : string :=
  rstrip slash (base_or_default base) ++ "/content/dam/teladoc-headless/image/"
    ++ asset_id ++ "." ++ str_strip rt (str_lower rt ext_hint) ++ ".-1.json".

Definition fetch_asset_metadata (asset_id : string) (base : option string)
  (ext_hint : option string) : option asset_meta :=
  match ext_hint with
  | None => None
  | Some ext =>
      if (asset_id =? "") || (ext =? "") then None
      else
        match http_get rt (metadata_url asset_id base ext) with
        | None => None
        | Some raw =>
            match json_loads rt raw with
            | None => None
            | Some meta => Some (metadata_of asset_id meta)
            end
        end
  end.

(** *** Misc helpers *)

Fixpoint scan_segments (parts : list string) (ctype : option Z)
  : option Z * option Z :=
  match parts with
  | [] => (ctype, None)
  | seg :: rest =>
      match lookup seg LABEL_MAP with
      | Some lbl => (Some TYPE_Page, Some lbl)
      | None =>
          match lookup seg PATH_TOKEN_TO_TYPE_ID with
          | Some t => scan_segments rest (Some t)
          | None => scan_segments rest ctype
          end
      end
  end.

Definition infer_type_label (path : json) : result (option Z * option Z) :=
  if negb (truthy path) then Ok (None, None)
  else
    match path with
    | JStr p => Ok (scan_segments (split slash (strip slash p)) None)
    | _ => Raise AttributeError
    end.

End Helpers.

(** ** Transform *)

(** [k in data] and [data[k]] for a string [k]: [data] is what
    [it.get('data', {}) or {}] gave, not always a dict. *)
Definition py_in (k : string) (data : json) : result bool :=
  match data with
  | JDict d => Ok (match lookup k d with Some _ => true | None => false end)
  | JList l =>
      Ok (existsb (fun v => match v with JStr s => s =? k | _ => false end) l)
  | JStr s => Ok (contains k s)
  | _ => Raise TypeError
  end.

Definition py_item (data : json) (k : string) : result json :=
  match data with
  | JDict d =>
      match lookup k d with
      | Some v => Ok v
      | None => Raise KeyError
      end
  | _ => Raise TypeError
  end.

(** [it.get('data', {}) or {}]. *)
Definition data_of (it : json) : result json :=
  d <- py_get it "data" (JDict []) ;;
  Ok (py_or d (JDict [])).

(** [v not in (None, '')]. *)
Definition not_blank (v : json) : bool :=
  match v with
  | JNull => false
  | JStr s => negb (s =? "")
  | _ => true
  end.

Definition opt_Z_eqb (a : option Z) (b : Z) : bool :=
  match a with
  | Some x => (x =? b)%Z
  | None => false
  end.

(** The lookup tables built by the inclusion loop. *)
Record index : Type := mk_index {
  items_index : pydict json;
  type_cache : pydict (option Z * option Z);
  include_mask : pydict bool
}.

(** The registry built by the content-row loop, with the working
    collections by type.  [content_index] maps a name to the position of
    its row in [content]: the row object is shared by both. *)
Record registry : Type := mk_registry {
  reg_content : list Content.row;
  reg_content_index : pydict nat;
  reg_known_ids : pyset;
  curricula : pydict json;
  units : pydict json;
  pages : pydict json;
  lessons : pydict json;
  terms : pydict json
}.

(** What the relationship builder mutates.  [asset_calls] is a history
    variable: the arguments of every [_record_asset] call so far, in order;
    nothing reads it. *)
Record state : Type := mk_state {
  content : list Content.row;
  content_index : pydict nat;
  known_ids : pyset;
  ctt : list Ctt.row;
  ctc : list Ctc.row;
  url_row_written : list string;
  asset_ext_hint : list (string * string);
  asset_url_map : list (string * string);
  asset_calls : list (string * json)
}.

(** The per-parent locals of the asset loops. *)
Record locals : Type := mk_locals {
  encounter_order : list string;
  roles_per_asset : list (string * list (option Z))
}.

Fixpoint update_nth {A : Type} (n : nat) (f : A -> A) (l : list A) : list A :=
  match l, n with
  | [], _ => []
  | x :: l', O => f x :: l'
  | x :: l', S n' => x :: update_nth n' f l'
  end.

Definition set_label (role : Z) (r : Content.row) : Content.row :=
  Content.mk (Content.cms_id r) (Content.content_version r)
    (Content.content_type_id r) (Some role) (Content.created_date r)
    (Content.deleted_date r).

(** [sorted(roles, key=priority, reverse=True)]: stable, highest first. *)
Fixpoint insert_role (r : option Z) (l : list (option Z)) : list (option Z) :=
  match l with
  | [] => [r]
  | x :: l' =>
      if (role_priority x <? role_priority r)%Z then r :: l
      else x :: insert_role r l'
  end.

Definition sort_roles (l : list (option Z)) : list (option Z) :=
  fold_left (fun acc r => insert_role r acc) l [].

(** [s.add(role)] on a set kept in insertion order. *)
Definition role_add (r : option Z) (s : list (option Z)) : list (option Z) :=
  if existsb (role_eqb r) s then s else s ++ [r].

Section Transform.

Variable rt : Runtime.

Let created : string := now_iso rt.

(** *** Inclusion *)

Definition inclusion_step (it : json) (ix : index) : result index :=
  name <- py_get it "name" JNull ;;
  ii <- (if truthy name then dassign name it (items_index ix)
         else Ok (items_index ix)) ;;
  path <- py_get it "path" (JStr "") ;;
  tl <- infer_type_label path ;;
  tc <- dassign name tl (type_cache ix) ;;
  let im := dset name (match fst tl with Some _ => true | None => false end)
                 (include_mask ix) in
  let im := if opt_Z_eqb (fst tl) TYPE_Page then dset name true im else im in
  Ok (mk_index ii tc im).

(** [not name or not include_mask.get(name, False)], negated. *)
Definition included (ix : index) (name : json) : result bool :=
  if negb (truthy name) then Ok false
  else if hashable name then
    Ok (from_option false (dget name (include_mask ix)))
  else Raise TypeError.

(** *** Content rows *)

Definition content_step (ix : index) (it : json) (rg : registry)
  : result registry :=
  name <- py_get it "name" JNull ;;
  inc <- included ix name ;;
  if negb inc then Ok rg
  else
    match dget name (type_cache ix) with
    | None => Raise KeyError
    | Some (ctype, clabel) =>
        let row := Content.mk name 1 ctype clabel created "" in
        let put (t : Z) (d : pydict json) : pydict json :=
          if opt_Z_eqb ctype t then dset name it d else d in
        Ok {| reg_content := reg_content rg ++ [row];
              reg_content_index :=
                dset name (length (reg_content rg)) (reg_content_index rg);
              reg_known_ids := sadd name (reg_known_ids rg);
              curricula := put TYPE_Curriculum (curricula rg);
              units := put TYPE_Unit (units rg);
              pages := put TYPE_Page (pages rg);
              lessons := put TYPE_Lesson (lessons rg);
              terms := put TYPE_Term (terms rg) |}
    end.

(** *** Text fields *)

Definition text_row (cid : json) (idx tid : Z) (v : tval) : Ctt.row :=
  Ctt.mk cid created "" None 1 idx tid v.

Definition text_field_step (name data : json) (keep : json -> bool)
  (kt : string * Z) (ctt : list Ctt.row) : result (list Ctt.row) :=
  present <- py_in (fst kt) data ;;
  if present then
    v <- py_item data (fst kt) ;;
    if keep v then Ok (ctt ++ [text_row name 0 (snd kt) (TStr (py_str rt v))])
    else Ok ctt
  else Ok ctt.

Definition text_step (ix : index) (it : json) (ctt : list Ctt.row)
  : result (list Ctt.row) :=
  name <- py_get it "name" JNull ;;
  inc <- included ix name ;;
  if negb inc then Ok ctt
  else
    data <- data_of it ;;
    ctt1 <- for_each (text_field_step name data not_blank) TEXT_FIELDS ctt ;;
    for_each (text_field_step name data truthy) SPECIAL_TO_TEXT ctt1.

(** [str(row.get('text_value', ''))]. *)
Definition tval_str (v : tval) : string :=
  match v with
  | TStr s => s
  | TInt z => str_of_Z z
  end.

(** Answer id to answer text, from the text rows written so far. *)
Definition answer_text_step (row : Ctt.row) (m : pydict string) : pydict string :=
  if (Ctt.text_type_id row =? 26)%Z then
    let cid := Ctt.content_cms_id row in
    if truthy cid && hashable cid then dset cid (tval_str (Ctt.text_value row)) m
    else m
  else m.

Definition build_answer_text_index (ctt : list Ctt.row) : pydict string :=
  fold_left (fun m row => answer_text_step row m) ctt [].

(** *** Attributes *)

Definition attr_row (cid : json) (aid : Z) : Cta.row :=
  Cta.mk None cid aid created "".

(** [T.get(a) or T.get(b)]; every code of the tables is non-zero. *)
Definition lookup_or (T : list (string * Z)) (a b : string) : option Z :=
  match lookup a T with
  | Some x => Some x
  | None => lookup b T
  end.

Definition push_attr (name : json) (aid : option Z) (cta : list Cta.row)
  : list Cta.row :=
  match aid with
  | Some a => cta ++ [attr_row name a]
  | None => cta
  end.

Definition attr_step (ix : index) (it : json) (cta : list Cta.row)
  : result (list Cta.row) :=
  name <- py_get it "name" JNull ;;
  inc <- included ix name ;;
  if negb inc then Ok cta
  else
    data <- data_of it ;;
    cats <- py_get data "categories" JNull ;;
    let cta1 :=
      match cats with
      | JList l =>
          fold_left (fun acc c =>
            push_attr name
              (lookup_or ATTR_ID_MAP (py_str rt c) (str_upper rt (py_str rt c)))
              acc) l cta
      | _ => cta
      end in
    cad <- py_get data "cadence" JNull ;;
    let cta2 :=
      if truthy cad then
        push_attr name
          (lookup_or ATTR_ID_MAP (py_str rt cad)
             (str_capitalize rt (py_str rt cad))) cta1
      else cta1 in
    tags <- py_get data "tags" JNull ;;
    Ok match tags with
       | JList l =>
           fold_left (fun acc t =>
             push_attr name (lookup (str_lower rt (py_str rt t)) TAG_TO_ATTR) acc)
             l cta2
       | _ => cta2
       end.

(** *** Edges between records *)

Definition edge (parent child : json) (label : option Z) (idx : Z) : Ctc.row :=
  Ctc.mk None parent child label idx created "".

(** [ref.get('path', '') if isinstance(ref, dict) else '']. *)
Definition ref_path (ref : json) : json :=
  match ref with
  | JDict d => from_option (JStr "") (lookup "path" d)
  | _ => JStr ""
  end.

(** [p.rstrip('/').split('/')[-1]] for a truthy [p]. *)
Definition last_segment (p : json) : result string :=
  match p with
  | JStr s => Ok (last_of (split slash (rstrip slash s)))
  | _ => Raise AttributeError
  end.

(** [child and child in known_ids]. *)
Definition is_known (known : pyset) (child : string) : bool :=
  negb (child =? "") && smem (JStr child) known.

(** The first page-kind token of a reference path. *)
Fixpoint first_label (parts : list string) : option Z :=
  match parts with
  | [] => None
  | seg :: rest =>
      match lookup seg LABEL_MAP with
      | Some lbl => Some lbl
      | None => first_label rest
      end
  end.

Definition path_label (p : json) : option Z :=
  match p with
  | JStr s => first_label (split slash (strip slash s))
  | _ => None
  end.

(** One reference of a [units], [lessons] or [pages] list; [with_label]
    tells the page loop from the other two. *)
Definition link_ref (known : pyset) (parent : json) (with_label : bool)
  (idx : Z) (ref : json) (ctc : list Ctc.row) : result (list Ctc.row) :=
  let p := ref_path ref in
  if truthy p then
    child <- last_segment p ;;
    if is_known known child then
      Ok (ctc ++ [edge parent (JStr child)
                    (if with_label then path_label p else None) idx])
    else Ok ctc
  else Ok ctc.

(** Curriculum to unit, without an explicit list: units whose path holds
    the curriculum's segment. *)
Definition infer_unit_step (known : pyset) (cid : json) (marker : string)
  (u : json * json) (acc : list Ctc.row * Z) : result (list Ctc.row * Z) :=
  up <- py_get (snd u) "path" (JStr "") ;;
  hit <- py_in marker up ;;
  if hit && smem (fst u) known then
    Ok (fst acc ++ [edge cid (fst u) None (snd acc)], (snd acc + 1)%Z)
  else Ok acc.

Definition curriculum_step (rg : registry) (c : json * json)
  (ctc : list Ctc.row) : result (list Ctc.row) :=
  let cid := fst c in
  data <- data_of (snd c) ;;
  arr <- py_get data "units" JNull ;;
  match arr with
  | JList ((_ :: _) as l) =>
      for_enumerate (link_ref (reg_known_ids rg) cid false) 0%Z l ctc
  | _ =>
      let marker := ("/curriculum/" ++ py_str rt cid ++ "/")%string in
      r <- for_each (infer_unit_step (reg_known_ids rg) cid marker)
             (units rg) (ctc, 0%Z) ;;
      Ok (fst r)
  end.

(** The explicit [lessons] list ([field = "lessons"]) and the [pages] list
    ([field = "pages"]) of any included record. *)
Definition children_step (ix : index) (rg : registry) (field : string)
  (with_label : bool) (it : json) (ctc : list Ctc.row)
  : result (list Ctc.row) :=
  pname <- py_get it "name" JNull ;;
  inc <- included ix pname ;;
  if negb inc then Ok ctc
  else
    data <- data_of it ;;
    refs <- py_get data field JNull ;;
    match refs with
    | JList l =>
        for_enumerate (link_ref (reg_known_ids rg) pname with_label) 0%Z l ctc
    | _ => Ok ctc
    end.

(** *** Term back-references *)

(** [_basename(p)] for a truthy [p]. *)
Definition _basename (p : json) : result string :=
  match p with
  | JStr s => Ok (last_of (split slash (rstrip slash s)))
  | _ => Raise AttributeError
  end.

Definition term_ref_step (ix : index) (rg : registry) (term_id : json)
  (ref : json) (acc : list Ctc.row * pydict Z)
  : result (list Ctc.row * pydict Z) :=
  let rpath :=
    match ref with
    | JDict d => from_option (JStr "") (lookup "path" d)
    | JStr _ => ref
    | _ => JStr ""
    end in
  parent_page_id <- (if truthy rpath then _basename rpath else Ok "") ;;
  if (parent_page_id =? "") || negb (dmem (JStr parent_page_id) (pages rg))
  then Ok acc
  else
    let page_label :=
      snd (from_option (None, None)
             (dget (JStr parent_page_id) (type_cache ix))) in
    if negb (opt_Z_eqb page_label 305) then Ok acc
    else
      let idx := from_option 0%Z (dget (JStr parent_page_id) (snd acc)) in
      Ok (fst acc ++ [edge (JStr parent_page_id) term_id None idx],
          dset (JStr parent_page_id) (idx + 1)%Z (snd acc)).

Definition term_step (ix : index) (rg : registry) (t : json * json)
  (acc : list Ctc.row * pydict Z) : result (list Ctc.row * pydict Z) :=
  d0 <- py_get (snd t) "data" JNull ;;
  let tdata := py_or d0 (JDict []) in
  r1 <- py_get tdata "contentReference" JNull ;;
  r2 <- (if truthy r1 then Ok r1 else py_get tdata "contentReferences" JNull) ;;
  if negb (truthy r2) then Ok acc
  else
    match r2 with
    | JDict _ | JStr _ => term_ref_step ix rg (fst t) r2 acc
    | JList l => for_each (term_ref_step ix rg (fst t)) l acc
    | _ => Ok acc
    end.

(** *** Assets *)

Definition _record_asset (base_url : string) (aid : string) (url : json)
  (role : option Z) (st : state) (loc : locals) : state * locals :=
  let k := JStr aid in
  let fresh := negb (smem k (known_ids st)) in
  let content1 :=
    if fresh then
      content st ++ [Content.mk k 1 (Some TYPE_Asset) None created ""]
    else content st in
  let index1 :=
    if fresh then dset k (length (content st)) (content_index st)
    else content_index st in
  let known1 := if fresh then sadd k (known_ids st) else known_ids st in
  let norm := _normalize_url url (Some base_url) in
  let unwritten := negb (str_mem aid (url_row_written st)) in
  let ctt1 :=
    if unwritten then ctt st ++ [text_row k 0 18 (TStr (py_str rt norm))]
    else ctt st in
  let written1 :=
    if unwritten then aid :: url_row_written st else url_row_written st in
  let url_map1 := sset aid (py_str rt norm) (asset_url_map st) in
  let ext := derive_asset_ext rt (py_str rt url) in
  let hint1 :=
    if negb (ext =? "") &&
       match lookup aid (asset_ext_hint st) with Some _ => false | None => true end
    then sset aid ext (asset_ext_hint st)
    else asset_ext_hint st in
  let roles0 := from_option [] (lookup aid (roles_per_asset loc)) in
  let loc1 :=
    {| encounter_order := encounter_order loc ++ [aid];
       roles_per_asset := sset aid (role_add role roles0) (roles_per_asset loc) |} in
  let content2 :=
    match dget k index1 with
    | Some i =>
        match nth_error content1 i with
        | Some arow =>
            let current := Content.content_label_id arow in
            if match current with None => true | Some _ => false end
               || (role_priority current <? role_priority role)%Z
            then
              match role with
              | Some r => update_nth i (set_label r) content1
              | None => content1
              end
            else content1
        | None => content1
        end
    | None => content1
    end in
  ({| content := content2;
      content_index := index1;
      known_ids := known1;
      ctt := ctt1;
      ctc := ctc st;
      url_row_written := written1;
      asset_ext_hint := hint1;
      asset_url_map := url_map1;
      asset_calls := asset_calls st ++ [(aid, url)] |},
   loc1).

(** [aid = derive_asset_id(str(url)); if aid: _record_asset(...)]. *)
Definition record_url (base_url : string) (url : json) (role : option Z)
  (sl : state * locals) : state * locals :=
  match derive_asset_id (py_str rt url) with
  | Some aid =>
      if aid =? "" then sl
      else _record_asset base_url aid url role (fst sl) (snd sl)
  | None => sl
  end.

(** The three asset-bearing shapes of one record's data. *)
Definition scan_images (base_url : string) (pdata : list (string * json))
  (sl : state * locals) : state * locals :=
  let sl1 :=
    match _extract_image_url (dict_get pdata "image") with
    | Some u => record_url base_url (JStr u) (Some 404%Z) sl
    | None => sl
    end in
  let sl2 :=
    fold_left (fun acc key =>
      match _extract_image_url (dict_get pdata key) with
      | Some u => record_url base_url (JStr u) (lookup key IMAGE_ROLE_LABEL) acc
      | None => acc
      end) IMAGE_URL_KEYS sl1 in
  match dict_get pdata "images" with
  | JList imgs =>
      fold_left (fun acc url =>
        if truthy url then record_url base_url url (Some 404%Z) acc else acc)
        imgs sl2
  | _ => sl2
  end.

(** One edge per role for every entry of [encounter_order]; the index is
    [len(ctc)]. *)
Definition emit_roles (parent : json) (aid : string) (roles : list (option Z))
  (ctc0 : list Ctc.row) : list Ctc.row :=
  fold_left (fun acc role =>
    acc ++ [edge parent (JStr aid) role (Z.of_nat (length acc))]) roles ctc0.

Definition emit_edges (parent : json) (dflt : list (option Z)) (loc : locals)
  (ctc0 : list Ctc.row) : list Ctc.row :=
  fold_left (fun acc aid =>
    emit_roles parent aid
      (sort_roles (from_option dflt (lookup aid (roles_per_asset loc)))) acc)
    (encounter_order loc) ctc0.

Definition with_ctc (st : state) (c : list Ctc.row) : state :=
  {| content := content st;
     content_index := content_index st;
     known_ids := known_ids st;
     ctt := ctt st;
     ctc := c;
     url_row_written := url_row_written st;
     asset_ext_hint := asset_ext_hint st;
     asset_url_map := asset_url_map st;
     asset_calls := asset_calls st |}.

(** Scan one parent, then emit its edges. *)
Definition link_assets (base_url : string) (parent : json) (pdata : json)
  (dflt : list (option Z)) (st : state) : result state :=
  match pdata with
  | JDict d =>
      let sl := scan_images base_url d (st, mk_locals [] []) in
      Ok (with_ctc (fst sl) (emit_edges parent dflt (snd sl) (ctc (fst sl))))
  | _ => Raise AttributeError
  end.

Definition asset_step (ix : index) (base_url : string) (it : json) (st : state)
  : result state :=
  parent_id <- py_get it "name" JNull ;;
  inc <- included ix parent_id ;;
  if negb inc then Ok st
  else
    match fst (from_option (None, None) (dget parent_id (type_cache ix))) with
    | None => Ok st
    | Some ctype =>
        if (ctype =? TYPE_Page)%Z then Ok st
        else
          pdata <- data_of it ;;
          link_assets base_url parent_id pdata [None] st
    end.

Definition page_asset_step (ix : index) (base_url : string) (pg : json * json)
  (st : state) : result state :=
  if negb (from_option false (dget (fst pg) (include_mask ix))) then Ok st
  else
    d0 <- py_get (snd pg) "data" JNull ;;
    link_assets base_url (fst pg) (py_or d0 (JDict [])) [] st.

(** *** Question page to answers *)

Definition register (row : Content.row) (st : state) : state :=
  {| content := content st ++ [row];
     content_index := dset (Content.cms_id row) (length (content st)) (content_index st);
     known_ids := sadd (Content.cms_id row) (known_ids st);
     ctt := ctt st;
     ctc := ctc st;
     url_row_written := url_row_written st;
     asset_ext_hint := asset_ext_hint st;
     asset_url_map := asset_url_map st;
     asset_calls := asset_calls st |}.

Definition with_ctt (st : state) (t : list Ctt.row) : state :=
  {| content := content st;
     content_index := content_index st;
     known_ids := known_ids st;
     ctt := t;
     ctc := ctc st;
     url_row_written := url_row_written st;
     asset_ext_hint := asset_ext_hint st;
     asset_url_map := asset_url_map st;
     asset_calls := asset_calls st |}.

Definition _ensure_answer_content (answer_id : string) (st : state) : state :=
  if negb (answer_id =? "") && negb (smem (JStr answer_id) (known_ids st)) then
    register (Content.mk (JStr answer_id) 1 (Some TYPE_Answer) None created "") st
  else st.

Definition _extract_answer_id (ref : json) : result string :=
  let ref_path :=
    match ref with
    | JStr _ => ref
    | JDict d => from_option (JStr "") (lookup "path" d)
    | _ => JStr ""
    end in
  if truthy ref_path then _basename ref_path else Ok "".

Definition potential_step (qid : json) (ref : json) (acc : state * Z)
  : result (state * Z) :=
  answer_id <- _extract_answer_id ref ;;
  if answer_id =? "" then Ok acc
  else
    let st := _ensure_answer_content answer_id (fst acc) in
    Ok (with_ctc st (ctc st ++ [edge qid (JStr answer_id) (Some 501%Z) (snd acc)]),
        (snd acc + 1)%Z).

(** The answer text: the answer's own record first, then the text rows. *)
Definition answer_text (ix : index) (answer_text_index : pydict string)
  (answer_id : string) : result string :=
  direct <-
    match dget (JStr answer_id) (items_index ix) with
    | Some ait =>
        if truthy ait then
          d0 <- py_get ait "data" JNull ;;
          a <- py_get (py_or d0 (JDict [])) "answerText" JNull ;;
          Ok (py_str rt (py_or a (JStr "")))
        else Ok ""
    | None => Ok ""
    end ;;
  if direct =? "" then
    Ok (from_option "" (dget (JStr answer_id) answer_text_index))
  else Ok direct.

Definition correct_step (ix : index) (answer_text_index : pydict string)
  (qid : json) (ref : json) (acc : state * Z) : result (state * Z) :=
  answer_id <- _extract_answer_id ref ;;
  if answer_id =? "" then Ok acc
  else
    let st := _ensure_answer_content answer_id (fst acc) in
    let st1 :=
      with_ctc st (ctc st ++ [edge qid (JStr answer_id) (Some 502%Z) (snd acc)]) in
    ans_text <- answer_text ix answer_text_index answer_id ;;
    let st2 :=
      if ans_text =? "" then st1
      else with_ctt st1 (ctt st1 ++ [text_row qid (snd acc) 26 (TStr ans_text)]) in
    Ok (st2, (snd acc + 1)%Z).

Definition question_step (ix : index) (answer_text_index : pydict string)
  (it : json) (st : state) : result state :=
  qid <- py_get it "name" JNull ;;
  inc <- included ix qid ;;
  if negb inc then Ok st
  else
    let tl := from_option (None, None) (dget qid (type_cache ix)) in
    if negb (opt_Z_eqb (fst tl) TYPE_Page && opt_Z_eqb (snd tl) 310) then Ok st
    else
      d0 <- py_get it "data" JNull ;;
      let data := py_or d0 (JDict []) in
      pot <- py_get data "potentialAnswers" JNull ;;
      st1 <-
        match pot with
        | JList ((_ :: _) as l) =>
            r <- for_each (potential_step qid) l (st, 0%Z) ;; Ok (fst r)
        | _ => Ok st
        end ;;
      corr <- py_get data "correctAnswers" JNull ;;
      match corr with
      | JList ((_ :: _) as l) =>
          r <- for_each (correct_step ix answer_text_index qid) l (st1, 0%Z) ;;
          Ok (fst r)
      | _ => Ok st1
      end.

(** *** Post-pass enrichment of assets *)

(** The ids of the rows of kind 18 (URL), as a set. *)
Definition url_assets (ctt0 : list Ctt.row) : pyset :=
  fold_left (fun s row =>
    if (Ctt.text_type_id row =? 18)%Z && truthy (Ctt.content_cms_id row)
    then sadd (Ctt.content_cms_id row) s else s) ctt0 [].

Fixpoint insert_sorted {A : Type} (leb : A -> A -> bool) (x : A) (l : list A)
  : list A :=
  match l with
  | [] => [x]
  | y :: l' => if leb x y then x :: l else y :: insert_sorted leb x l'
  end.

Definition as_str (v : json) : option string :=
  match v with JStr s => Some s | _ => None end.

Definition as_num (v : json) : option Z :=
  match key_norm v with JInt z => Some z | _ => None end.

Fixpoint all_some {A B : Type} (f : A -> option B) (l : list A) : bool :=
  match l with
  | [] => true
  | x :: l' => match f x with Some _ => all_some f l' | None => false end
  end.

(** [sorted(s)]: strings by code point, numbers by value; a mix cannot be
    compared. *)
Definition py_sorted (s : pyset) : result (list json) :=
  match s with
  | [] | [_] => Ok s
  | _ =>
      if all_some as_str s then
        Ok (fold_right (insert_sorted (fun a b =>
              String.leb (py_str rt a) (py_str rt b))) [] s)
      else if all_some as_num s then
        Ok (fold_right (insert_sorted (fun a b =>
              (from_option 0 (as_num a) <=? from_option 0 (as_num b))%Z)) [] s)
      else Raise TypeError
  end.

(** The text rows, the memo of lookups, and the history of the lookups
    issued ([fetch_log]: one entry for every [fetch_asset_metadata] call). *)
Record enrich_state : Type := mk_enrich {
  e_ctt : list Ctt.row;
  asset_meta_cache : list (string * option asset_meta);
  fetch_log : list string
}.

Definition str_lookup {V : Type} (aid : json) (m : list (string * V))
  : option V :=
  match aid with
  | JStr a => lookup a m
  | _ => None
  end.

Definition enrich_row (aid : json) (tid : Z) (v : tval) : Ctt.row :=
  Ctt.mk aid created "" None 1 0 tid v.

Definition existing_types (aid : json) (ctt0 : list Ctt.row) : list Z :=
  map Ctt.text_type_id
    (filter (fun row => key_eqb (Ctt.content_cms_id row) aid) ctt0).

Definition mem_Z (t : Z) (l : list Z) : bool := existsb (Z.eqb t) l.

Definition _enrich_asset_ctt_rows_for (aid : json) (base_url : string)
  (hints : list (string * string)) (url_map : list (string * string))
  (es : enrich_state) : enrich_state :=
  if negb (truthy aid) then es
  else
    let ex := existing_types aid (e_ctt es) in
    if mem_Z 1 ex && mem_Z 19 ex && mem_Z 20 ex && mem_Z 21 ex then es
    else
      let url := from_option "" (str_lookup aid url_map) in
      let should_fetch := contains "/content/dam/teladoc-headless/image/" url in
      let ext :=
        match str_lookup aid hints with
        | Some e => if e =? "" then derive_asset_ext rt url else e
        | None => derive_asset_ext rt url
        end in
      let looked_up :=
        if should_fetch && negb (ext =? "") then
          match str_lookup aid (asset_meta_cache es) with
          | None =>
              let m := fetch_asset_metadata rt (py_str rt aid) (Some base_url)
                         (Some ext) in
              (m, sset (py_str rt aid) m (asset_meta_cache es),
               fetch_log es ++ [py_str rt aid])
          | Some m => (m, asset_meta_cache es, fetch_log es)
          end
        else (None, asset_meta_cache es, fetch_log es) in
      let meta := fst (fst looked_up) in
      let title :=
        match meta with
        | Some m => if meta_title m =? "" then py_str rt aid else meta_title m
        | None => py_str rt aid
        end in
      let width := match meta with Some m => meta_width m | None => 0%Z end in
      let height := match meta with Some m => meta_height m | None => 0%Z end in
      let mime :=
        match meta with
        | Some m => if meta_mime m =? "" then "image/jpeg" else meta_mime m
        | None => "image/jpeg"
        end in
      let add (tid : Z) (v : tval) (l : list Ctt.row) : list Ctt.row :=
        if mem_Z tid ex then l else l ++ [enrich_row aid tid v] in
      {| e_ctt :=
           add 21%Z (TStr mime)
             (add 20%Z (TInt height)
                (add 19%Z (TInt width)
                   (add 1%Z (TStr title) (e_ctt es))));
         asset_meta_cache := snd (fst looked_up);
         fetch_log := snd looked_up |}.

Definition enrich_all (base_url : string) (st : state) : result enrich_state :=
  aids <- py_sorted (url_assets (ctt st)) ;;
  Ok (fold_left (fun es aid =>
        _enrich_asset_ctt_rows_for aid base_url (asset_ext_hint st)
          (asset_url_map st) es)
        aids (mk_enrich (ctt st) [] [])).

(** *** De-duplication of content_to_text *)

Definition ctt_key : Type := json * Z * Z * Z * string.

Definition key_of (row : Ctt.row) : ctt_key :=
  (Ctt.content_cms_id row, Ctt.locale_id row, Ctt.text_type_id row,
   Ctt.text_index row, tval_str (Ctt.text_value row)).

Definition ctt_key_eqb (a b : ctt_key) : bool :=
  let '(c1, l1, t1, i1, v1) := a in
  let '(c2, l2, t2, i2, v2) := b in
  key_eqb c1 c2 && (l1 =? l2)%Z && (t1 =? t2)%Z && (i1 =? i2)%Z && (v1 =? v2).

Fixpoint dedup_loop (rows : list Ctt.row) (seen_ctt : list ctt_key)
  (deduped_ctt : list Ctt.row) : result (list Ctt.row) :=
  match rows with
  | [] => Ok deduped_ctt
  | row :: rest =>
      if negb (hashable (Ctt.content_cms_id row)) then Raise TypeError
      else if existsb (ctt_key_eqb (key_of row)) seen_ctt then
        dedup_loop rest seen_ctt deduped_ctt
      else dedup_loop rest (seen_ctt ++ [key_of row]) (deduped_ctt ++ [row])
  end.

Definition dedup_ctt (rows : list Ctt.row) : result (list Ctt.row) :=
  dedup_loop rows [] [].

(** *** The whole transformation *)

Definition resolve_base (items : list json) (base_url : option string)
  : result string :=
  match base_url with
  | Some b => Ok b
  | None =>
      o <- _pick_base_url rt items ;;
      Ok (match o with
          | Some b => if b =? "" then DEFAULT_DAM_BASE else b
          | None => DEFAULT_DAM_BASE
          end)
  end.

Definition build_index (items : list json) : result index :=
  for_each inclusion_step items (mk_index [] [] []).

Definition build_registry (ix : index) (items : list json) : result registry :=
  for_each (content_step ix) items (mk_registry [] [] [] [] [] [] [] []).

(** The edges between records: curriculum to unit, unit to lesson, lesson
    to page, image page to term. *)
Definition record_edges (ix : index) (rg : registry) (items : list json)
  : result (list Ctc.row) :=
  c1 <- for_each (curriculum_step rg) (curricula rg) [] ;;
  c2 <- for_each (children_step ix rg "lessons" false) items c1 ;;
  c3 <- for_each (children_step ix rg "pages" true) items c2 ;;
  r <- for_each (term_step ix rg) (terms rg) (c3, []) ;;
  Ok (fst r).

(** Everything [transform] computes, with the two histories. *)
Record run : Type := mk_run {
  out : Tables.t;
  run_state : state;
  run_enrich : enrich_state
}.

(** [transform] once the base URL is resolved and the inclusion loop is
    done. *)
Definition run_with (base : string) (ix : index) (items : list json)
  : result run :=
  rg <- build_registry ix items ;;
  ctt0 <- for_each (text_step ix) items [] ;;
  let answer_text_index := build_answer_text_index ctt0 in
  cta0 <- for_each (attr_step ix) items [] ;;
  ctc0 <- record_edges ix rg items ;;
  let st0 :=
    {| content := reg_content rg;
       content_index := reg_content_index rg;
       known_ids := reg_known_ids rg;
       ctt := ctt0;
       ctc := ctc0;
       url_row_written := [];
       asset_ext_hint := [];
       asset_url_map := [];
       asset_calls := [] |} in
  st1 <- for_each (asset_step ix base) items st0 ;;
  st2 <- for_each (page_asset_step ix base) (pages rg) st1 ;;
  st3 <- for_each (question_step ix answer_text_index) items st2 ;;
  es <- enrich_all base st3 ;;
  deduped <- dedup_ctt (e_ctt es) ;;
  Ok {| out := Tables.mk (content st3) deduped (ctc st3) cta0;
        run_state := st3;
        run_enrich := es |}.

Definition transform_run (items : list json) (base_url : option string)
  : result run :=
  base <- resolve_base items base_url ;;
  ix <- build_index items ;;
  run_with base ix items.

Definition transform (items : list json) (link_lessons_to_assets : bool)
  (base_url : option string) : result Tables.t :=
  r <- transform_run items base_url ;;
  Ok (out r).

(** *** CLI: from the parsed source to the tables written out *)

(** [args.dam_base or None]. *)
Definition dam_base_arg (dam_base : option string) : option string :=
  match dam_base with
  | Some b => if b =? "" then None else Some b
  | None => None
  end.

(** [main] after the source is read and parsed; the result is what is
    dumped to the output file, and nothing is written on [Raise]. *)
Definition main (src : json) (dam_base : option string) : result Tables.t :=
  items <- py_get src "data" (JList []) ;;
  match items with
  | JList l => transform l true (dam_base_arg dam_base)
  | _ => Raise ValueError
  end.

End Transform.

(** ** A concrete runtime, for running the model

    ASCII case mapping and whitespace; no network. *)

Definition ascii_lower (c : ascii) : ascii :=
  let n := nat_of_ascii c in
  if (65 <=? n)%nat && (n <=? 90)%nat then ascii_of_nat (n + 32) else c.

Definition ascii_upper (c : ascii) : ascii :=
  let n := nat_of_ascii c in
  if (97 <=? n)%nat && (n <=? 122)%nat then ascii_of_nat (n - 32) else c.

Fixpoint map_string (f : ascii -> ascii) (s : string) : string :=
  match s with
  | EmptyString => ""
  | String c s' => String (f c) (map_string f s')
  end.

Definition capitalize_ascii (s : string) : string :=
  match s with
  | EmptyString => ""
  | String c s' => String (ascii_upper c) (map_string ascii_lower s')
  end.

Definition offline : Runtime :=
  {| now_iso := "2025-01-01T00:00:00Z";
     repr_compound := fun _ => "<compound>";
     str_lower := map_string ascii_lower;
     str_upper := map_string ascii_upper;
     str_capitalize := capitalize_ascii;
     str_strip := strip " "%char;
     urlparse_origin := fun _ => None;
     http_get := fun _ => None;
     json_loads := fun _ => None;
     int_of_str := fun _ => None |}.


(** ** Vocabulary of the statements *)

(** [subseq l1 l2]: [l1] is [l2] with some elements left out, the order
    kept. *)
Inductive subseq {A : Type} : list A -> list A -> Prop :=
| subseq_nil : subseq [] []
| subseq_skip : forall x l1 l2, subseq l1 l2 -> subseq l1 (x :: l2)
| subseq_keep : forall x l1 l2, subseq l1 l2 -> subseq (x :: l1) (x :: l2).

(** Two text rows with the same de-duplication key. *)
Definition same_key (a b : Ctt.row) : bool := ctt_key_eqb (key_of a) (key_of b).

(** No two rows of the list share a key. *)
Fixpoint distinct_keys (l : list Ctt.row) : Prop :=
  match l with
  | [] => True
  | r :: l' => (forall r', In r' l' -> same_key r r' = false) /\ distinct_keys l'
  end.

(** What the de-duplication loop appends to [deduped_ctt], given the keys
    already seen. *)
Fixpoint kept (seen : list ctt_key) (rows : list Ctt.row) : list Ctt.row :=
  match rows with
  | [] => []
  | row :: rest =>
      if existsb (ctt_key_eqb (key_of row)) seen then kept seen rest
      else row :: kept (seen ++ [key_of row]) rest
  end.


(** ** Sample inputs *)

(** Text rows with a repeated key; the last two differ only in the type of
    the value, [0] against ["0"], which the key does not see. *)
Definition demo_rows : list Ctt.row :=
  [ Ctt.mk (JStr "a") "" "" None 1 0 1 (TStr "x");
    Ctt.mk (JStr "b") "" "" None 1 0 19 (TInt 0);
    Ctt.mk (JStr "a") "" "" None 1 0 1 (TStr "x");
    Ctt.mk (JStr "b") "" "" None 1 0 19 (TStr "0") ].


(** A record as the export has it. *)
Definition record (name path : string) (data : list (string * json)) : json :=
  JDict [("name", JStr name); ("path", JStr path); ("data", JDict data)].

(** Two lessons named alike, in two units. *)
Definition twin_lessons : list json :=
  [ record "intro" "/content/curriculum/c1/unit/u1/lesson/intro" [];
    record "intro" "/content/curriculum/c1/unit/u2/lesson/intro" [] ].

(** A lesson that shows one picture as its generic image and as its title
    image. *)
Definition lesson_two_roles : list json :=
  [ record "l1" "/content/lesson/l1"
      [("image", JStr "/content/dam/teladoc-headless/image/pic.png");
       ("titleImage", JStr "/content/dam/teladoc-headless/image/pic.png")] ].



(** A curriculum whose unit list holds a reference with a number for a
    path. *)
Definition curriculum_bad_ref : list json :=
  [ record "c1" "/content/curriculum/c1"
      [("units", JList [JDict [("path", JInt 5)]])] ].

(** A record without a name that carries an absolute image URL, and a
    lesson with a relative one. *)
Definition nameless_with_image : json :=
  JDict [("path", JStr "/content/lesson/x");
         ("data", JDict [("heroImage", JStr "http://cdn.example/content/hero.png")])].

Definition lesson_relative_image : json :=
  record "l1" "/content/lesson/l1"
    [("image", JStr "/content/dam/teladoc-headless/image/pic.png")].

(** A runtime like [offline] whose [urlparse] reads scheme and host of the
    one absolute URL above. *)
Definition offline_urlparse : Runtime :=
  {| now_iso := now_iso offline;
     repr_compound := repr_compound offline;
     str_lower := str_lower offline;
     str_upper := str_upper offline;
     str_capitalize := str_capitalize offline;
     str_strip := str_strip offline;
     urlparse_origin := fun url =>
       if url =? "http://cdn.example/content/hero.png"
       then Some "http://cdn.example" else None;
     http_get := http_get offline;
     json_loads := json_loads offline;
     int_of_str := int_of_str offline |}.


(** The identifiers registered in a content table, and the keys of a
    dict. *)
Definition ids (rows : list Content.row) : list json :=
  map Content.cms_id rows.

Definition keys {V : Type} (d : pydict V) : list json := map fst d.


(** An image role label: what [_record_asset] is given as [role]. *)
Definition is_image_role (l : option Z) : bool :=
  match l with
  | Some z => (401 <=? z)%Z && (z <=? 405)%Z
  | None => false
  end.


(** Rows whose [child_index] counts up from [n]. *)
Fixpoint indexed_from (n : nat) (new : list Ctc.row) : Prop :=
  match new with
  | [] => True
  | e :: rest => Ctc.child_index e = Z.of_nat n /\ indexed_from (S n) rest
  end.

(** Every foreign key of the state resolves in its content table. *)
Definition fk_ok (st : state) : Prop :=
  (forall k, In k (known_ids st) -> In k (ids (content st))) /\
  Forall (fun r => In (Ctt.content_cms_id r) (ids (content st))) (ctt st) /\
  Forall (fun e => In (Ctc.parent_cms_id e) (ids (content st)) /\
                   In (Ctc.child_cms_id e) (ids (content st))) (ctc st).


(** A small course: curriculum, unit, lesson with a picture under two
    roles, a question page with a correct answer, and the answer. *)
Definition small_course : list json :=
  [ record "c1" "/content/curriculum/c1" [];
    record "u1" "/content/curriculum/c1/unit/u1"
      [("title", JStr "Unit one");
       ("lessons", JList [JDict [("path", JStr "/content/lesson/l1")]])];
    record "l1" "/content/lesson/l1"
      [("image", JStr "/content/dam/teladoc-headless/image/pic.png");
       ("titleImage", JStr "/content/dam/teladoc-headless/image/pic.png");
       ("pages", JList [JDict [("path", JStr "/content/questionPage/q1")]])];
    record "q1" "/content/lesson/l1/questionPage/q1"
      [("correctAnswers", JList [JStr "/content/question-answer/ans1"]);
       ("heroImage", JStr "http://cdn.example/content/hero.png")];
    record "ans1" "/content/question-answer/ans1" [("answerText", JStr "Yes")] ].


(** The URL rows (kind 18) of an asset id. *)
Definition is_url_row (aid : string) (r : Ctt.row) : bool :=
  (Ctt.text_type_id r =? 18)%Z &&
  match Ctt.content_cms_id r with
  | JStr s => s =? aid
  | _ => false
  end.

Definition url_rows (aid : string) (rows : list Ctt.row) : list Ctt.row :=
  filter (is_url_row aid) rows.

(** The URL of the first, and of the last, [_record_asset] call for [aid]
    in a history of calls. *)
Fixpoint first_url (aid : string) (calls : list (string * json)) : option json :=
  match calls with
  | [] => None
  | (a, u) :: rest => if a =? aid then Some u else first_url aid rest
  end.

Definition last_url (aid : string) (calls : list (string * json)) : option json :=
  first_url aid (rev calls).

(** The URL row [_record_asset] writes for [aid] met under [u]. *)
Definition url_row_of (rt : Runtime) (base : string) (aid : string) (u : json)
  : Ctt.row :=
  text_row rt (JStr aid) 0 18 (TStr (py_str rt (_normalize_url u (Some base)))).

(** The state agrees with its history of [_record_asset] calls: one URL
    row per asset met, written from the first URL; the URL map holds the
    last URL. *)
Definition url_inv (rt : Runtime) (base : string) (st : state) : Prop :=
  (forall aid,
     url_rows aid (ctt st) =
     match first_url aid (asset_calls st) with
     | Some u => [url_row_of rt base aid u]
     | None => []
     end) /\
  (forall r, In r (ctt st) -> Ctt.text_type_id r = 18%Z ->
     exists aid, Ctt.content_cms_id r = JStr aid) /\
  (forall aid,
     str_mem aid (url_row_written st) =
     match first_url aid (asset_calls st) with Some _ => true | None => false end) /\
  (forall aid,
     lookup aid (asset_url_map st) =
     match last_url aid (asset_calls st) with
     | Some u => Some (py_str rt (_normalize_url u (Some base)))
     | None => None
     end).


(** Two lessons that reach the asset id [pic] through different URLs. *)
Definition same_id_two_urls : list json :=
  [ record "l1" "/content/lesson/l1"
      [("image", JStr "/content/dam/teladoc-headless/image/pic.png")];
    record "l2" "/content/lesson/l2"
      [("heroImage", JStr "https://elsewhere.example/img/pic.jpg")] ].


(** Every metadata request fails: the transport raises, or the body is not
    JSON. *)
Definition fetch_fails (rt : Runtime) : Prop :=
  forall url,
    match http_get rt url with
    | None => True
    | Some raw => json_loads rt raw = None
    end.

(** An enrichment row that carries the fallback value of its kind: the id
    itself for the title, 0 for width and height, the default mime type. *)
Definition placeholder (rt : Runtime) (r : Ctt.row) : Prop :=
  (Ctt.text_type_id r = 1%Z /\
   Ctt.text_value r = TStr (py_str rt (Ctt.content_cms_id r))) \/
  (Ctt.text_type_id r = 19%Z /\ Ctt.text_value r = TInt 0) \/
  (Ctt.text_type_id r = 20%Z /\ Ctt.text_value r = TInt 0) \/
  (Ctt.text_type_id r = 21%Z /\ Ctt.text_value r = TStr "image/jpeg").

(** The memo and the history of lookups agree: an id was looked up once,
    and then it is in the memo. *)
Definition fetch_inv (es : enrich_state) : Prop :=
  NoDup (fetch_log es) /\
  forall a, In a (fetch_log es) -> lookup a (asset_meta_cache es) <> None.

(** All four enrichment kinds exist for [aid] among the rows. *)
Definition fully_enriched (aid : json) (rows : list Ctt.row) : Prop :=
  forall t, In t [1; 19; 20; 21]%Z ->
    exists row, In row rows /\
      key_eqb (Ctt.content_cms_id row) aid = true /\ Ctt.text_type_id row = t.


(** Text rows in which the asset [pic] already has its four enrichment
    kinds. *)
Definition pic_enriched_rows : list Ctt.row :=
  [ Ctt.mk (JStr "pic") "" "" None 1 0 18 (TStr "https://cdn.example/content/dam/teladoc-headless/image/pic.png");
    Ctt.mk (JStr "pic") "" "" None 1 0 1 (TStr "A picture");
    Ctt.mk (JStr "pic") "" "" None 1 0 19 (TInt 640);
    Ctt.mk (JStr "pic") "" "" None 1 0 20 (TInt 480);
    Ctt.mk (JStr "pic") "" "" None 1 0 21 (TStr "image/png") ].




Definition answer_edge (e : Ctc.row) : Prop :=
  Ctc.child_content_label_id e = Some 501%Z \/
  Ctc.child_content_label_id e = Some 502%Z.



(** The edge table is [c1] followed by answer edges. *)
Definition answer_edges_after (c1 : list Ctc.row) (st : state) : Prop :=
  exists answers, ctc st = c1 ++ answers /\ Forall answer_edge answers.


(** A record without a usable name: the name is missing or falsy (null,
    the empty string), and the path is absent, falsy or a string. *)
Definition nameless (r : json) : Prop :=
  exists d,
    r = JDict d /\
    truthy (dict_get d "name") = false /\
    hashable (dict_get d "name") = true /\
    (forall p, lookup "path" d = Some p -> truthy p = true ->
       exists s, p = JStr s).

(** Two indexes that answer alike for every truthy key. *)
Definition agree (ix ix' : index) : Prop :=
  forall k, truthy k = true ->
    dget k (items_index ix) = dget k (items_index ix') /\
    dget k (type_cache ix) = dget k (type_cache ix') /\
    dget k (include_mask ix) = dget k (include_mask ix').

(** Two results that raise alike, or return related values. *)
Definition res_rel {A : Type} (R : A -> A -> Prop) (x y : result A) : Prop :=
  match x, y with
  | Ok a, Ok b => R a b
  | Raise e, Raise e' => e = e'
  | _, _ => False
  end.








(** The four fallback rows of an asset id: the id itself as title, width 0,
    height 0, the default mime type. *)
Definition placeholder_rows (rt : Runtime) (aid : json) : list Ctt.row :=
  [ enrich_row rt aid 1 (TStr (py_str rt aid));
    enrich_row rt aid 19 (TInt 0);
    enrich_row rt aid 20 (TInt 0);
    enrich_row rt aid 21 (TStr "image/jpeg") ].

(** The rows of [rows] whose kind is not among [ex]. *)
Definition kinds_missing (ex : list Z) (rows : list Ctt.row) : list Ctt.row :=
  filter (fun r => negb (mem_Z (Ctt.text_type_id r) ex)) rows.

(** A lesson whose picture sits in the DAM namespace, so that its metadata
    is looked up. *)
Definition lesson_dam_image : list json :=
  [ record "l1" "/content/lesson/l1"
      [("image", JStr "/content/dam/teladoc-headless/image/pic.png")] ].




(** A table made of consecutive blocks, each with the property [P]. *)
Definition blocks (P : list Ctc.row -> Prop) (t : list Ctc.row) : Prop :=
  exists bs, t = concat bs /\ Forall P bs.







(** A path segment that names a page kind, and one that names a content
    type. *)
Definition is_label (seg : string) : bool :=
  match lookup seg LABEL_MAP with Some _ => true | None => false end.

Definition is_token (seg : string) : bool :=
  match lookup seg PATH_TOKEN_TO_TYPE_ID with Some _ => true | None => false end.

(** A priority that never goes up along the list. *)
Fixpoint priority_desc (l : list (option Z)) : Prop :=
  match l with
  | [] => True
  | r :: l' =>
      (forall x, In x l' -> (role_priority x <= role_priority r)%Z) /\
      priority_desc l'
  end.


(** The base found comes from an absolute URL of the export: a named image
    field or an [images] entry that starts with [http], read by
    [urlparse]. *)
Definition base_from (rt : Runtime) (items : list json) (o : string) : Prop :=
  exists it d0 data s,
    In it items /\ py_get it "data" JNull = Ok d0 /\
    py_or d0 (JDict []) = JDict data /\
    (In (JStr s) (map (dict_get data) IMAGE_URL_KEYS) \/
     exists imgs, dict_get data "images" = JList imgs /\ In (JStr s) imgs) /\
    startswith s "http" = true /\ urlparse_origin rt s = Some o.

(** * Verification *)

(** ** The error monad *)

Lemma bind_Ok_inv (A B : Type) (m : result A) (f : A -> result B) (b : B) :
  bind m f = Ok b -> exists a, m = Ok a /\ f a = Ok b.
Proof.
  destruct m as [a|e]; simpl; intro H; [eauto | discriminate].
Qed.

(** Splits every [bind] in a hypothesis of the form [_ = Ok _]. *)
Ltac monad_inv H :=
  match type of H with
  | bind ?m ?f = Ok ?b =>
      let a := fresh "a" in
      let Ha := fresh "Ha" in
      let Hb := fresh "Hb" in
      destruct (bind_Ok_inv m f H) as (a & Ha & Hb); clear H;
      cbv beta in Hb; try monad_inv Hb
  | Ok _ = Ok _ => inversion H; clear H; subst
  | Raise _ = Ok _ => discriminate H
  | _ => idtac
  end.

(** Loop invariant rule. *)
Lemma for_each_inv (A S : Type) (P : S -> Prop) (body : A -> S -> result S)
  (l : list A) :
  (forall x s s', In x l -> P s -> body x s = Ok s' -> P s') ->
  forall st st', P st -> for_each body l st = Ok st' -> P st'.
Proof.
  induction l as [|x l IH]; simpl; intros Hstep st st' HP H.
  - inversion H; subst; assumption.
  - monad_inv H.
    eapply IH; [ | | exact Hb ];
      [ intros; eapply Hstep; eauto | eapply Hstep; eauto ].
Qed.

Lemma for_enumerate_inv (A S : Type) (P : S -> Prop)
  (body : Z -> A -> S -> result S) (l : list A) :
  (forall i x s s', In x l -> P s -> body i x s = Ok s' -> P s') ->
  forall i st st', P st -> for_enumerate body i l st = Ok st' -> P st'.
Proof.
  induction l as [|x l IH]; simpl; intros Hstep i st st' HP H.
  - inversion H; subst; assumption.
  - monad_inv H.
    eapply IH; [ | | exact Hb ];
      [ intros; eapply Hstep; eauto | eapply Hstep; eauto ].
Qed.

(** [loop_inv P Hf]: the invariant [P] through the loop that [Hf] says
    returned; leaves the step, and the entry condition if it is not a
    hypothesis. *)
Ltac loop_inv P Hf :=
  first [ eapply (for_each_inv P); [ | | exact Hf ]
        | eapply (for_enumerate_inv P); [ | | exact Hf ] ];
  cbv beta; [ | try assumption ].

Lemma fold_left_inv (A S : Type) (P : S -> Prop) (f : S -> A -> S)
  (l : list A) :
  (forall x s, In x l -> P s -> P (f s x)) ->
  forall st, P st -> P (fold_left f l st).
Proof.
  induction l as [|x l IH]; simpl; intros Hstep st HP; auto.
Qed.

(** ** Keys *)

Lemma key_eqb_iff (a b : json) :
  key_eqb a b = true <-> key_norm a = key_norm b /\ hashable a = true.
Proof.
  unfold key_eqb. split.
  - destruct a as [|[]| | | |], b as [|[]| | | |];
      cbn -[Z.eqb String.eqb]; intro H; try discriminate; auto;
      try (apply Z.eqb_eq in H; subst; auto);
      try (apply String.eqb_eq in H; subst; auto).
  - intros [H1 H2].
    destruct a as [|[]| | | |], b as [|[]| | | |];
      cbn -[Z.eqb String.eqb] in *; try discriminate; auto;
      inversion H1; subst;
      first [apply Z.eqb_refl | apply String.eqb_refl].
Qed.

Lemma key_eqb_refl (a : json) : hashable a = true -> key_eqb a a = true.
Proof. intro H. apply key_eqb_iff; auto. Qed.

Lemma key_norm_hashable (a b : json) :
  key_norm a = key_norm b -> hashable a = hashable b.
Proof.
  destruct a as [|[]| | | |], b as [|[]| | | |]; simpl; intro H;
    try discriminate; reflexivity.
Qed.

Lemma key_eqb_sym (a b : json) : key_eqb a b = key_eqb b a.
Proof.
  destruct (key_eqb a b) eqn:E1, (key_eqb b a) eqn:E2; auto.
  - apply key_eqb_iff in E1. destruct E1 as [E H].
    assert (key_eqb b a = true) as C.
    { apply key_eqb_iff. split; [auto|]. rewrite <- (key_norm_hashable _ _ E); auto. }
    congruence.
  - apply key_eqb_iff in E2. destruct E2 as [E H].
    assert (key_eqb a b = true) as C.
    { apply key_eqb_iff. split; [auto|]. rewrite <- (key_norm_hashable _ _ E); auto. }
    congruence.
Qed.

Lemma key_eqb_trans (a b c : json) :
  key_eqb a b = true -> key_eqb b c = true -> key_eqb a c = true.
Proof.
  rewrite !key_eqb_iff. intros [E1 H1] [E2 H2]. split; congruence.
Qed.

(** A string key is met only by itself. *)
Lemma key_eqb_str (s : string) (k : json) :
  key_eqb k (JStr s) = true -> k = JStr s.
Proof.
  destruct k as [|[]| | | |]; unfold key_eqb; simpl; intro H;
    try discriminate.
  apply String.eqb_eq in H. subst. reflexivity.
Qed.

(** ** The Deduplicator *)

Lemma ctt_key_eqb_sym (a b : ctt_key) : ctt_key_eqb a b = ctt_key_eqb b a.
Proof.
  destruct a as [[[[c1 l1] t1] i1] v1], b as [[[[c2 l2] t2] i2] v2]; simpl.
  rewrite (key_eqb_sym c1 c2), (Z.eqb_sym l1 l2), (Z.eqb_sym t1 t2),
    (Z.eqb_sym i1 i2), (String.eqb_sym v1 v2). reflexivity.
Qed.

Lemma ctt_key_eqb_iff (a b : ctt_key) :
  ctt_key_eqb a b = true <->
  key_eqb (fst (fst (fst (fst a)))) (fst (fst (fst (fst b)))) = true /\
  snd (fst (fst (fst a))) = snd (fst (fst (fst b))) /\
  snd (fst (fst a)) = snd (fst (fst b)) /\
  snd (fst a) = snd (fst b) /\ snd a = snd b.
Proof.
  destruct a as [[[[c1 l1] t1] i1] v1], b as [[[[c2 l2] t2] i2] v2]; simpl.
  rewrite !andb_true_iff, !Z.eqb_eq, String.eqb_eq. tauto.
Qed.

Lemma ctt_key_eqb_trans (a b c : ctt_key) :
  ctt_key_eqb a b = true -> ctt_key_eqb b c = true -> ctt_key_eqb a c = true.
Proof.
  rewrite !ctt_key_eqb_iff. intros (H1 & H2 & H3 & H4 & H5) (G1 & G2 & G3 & G4 & G5).
  repeat split; try congruence. eapply key_eqb_trans; eauto.
Qed.

Lemma ctt_key_eqb_refl (r : Ctt.row) :
  hashable (Ctt.content_cms_id r) = true -> ctt_key_eqb (key_of r) (key_of r) = true.
Proof.
  intro H. apply ctt_key_eqb_iff. unfold key_of; cbn.
  repeat split. apply key_eqb_refl; assumption.
Qed.

Arguments ctt_key_eqb : simpl never.
Arguments key_of : simpl never.

Lemma dedup_loop_kept (rows : list Ctt.row) :
  (forall r, In r rows -> hashable (Ctt.content_cms_id r) = true) ->
  forall seen acc, dedup_loop rows seen acc = Ok (acc ++ kept seen rows).
Proof.
  induction rows as [|row rest IH]; simpl; intros Hh seen acc.
  - rewrite app_nil_r. reflexivity.
  - rewrite (Hh row (or_introl eq_refl)). simpl.
    destruct (existsb (ctt_key_eqb (key_of row)) seen).
    + apply IH. intros; apply Hh; auto.
    + rewrite IH by (intros; apply Hh; auto).
      rewrite <- app_assoc. reflexivity.
Qed.

(** If the loop returns, every id was hashable. *)
Lemma dedup_loop_hashable (rows : list Ctt.row) :
  forall seen acc out, dedup_loop rows seen acc = Ok out ->
  forall r, In r rows -> hashable (Ctt.content_cms_id r) = true.
Proof.
  induction rows as [|row rest IH]; simpl; intros seen acc out H r Hin.
  - contradiction.
  - destruct (hashable (Ctt.content_cms_id row)) eqn:Hh; simpl in H;
      [|discriminate].
    destruct Hin as [<-|Hin]; [assumption|].
    destruct (existsb (ctt_key_eqb (key_of row)) seen); eapply IH; eauto.
Qed.

Lemma kept_subseq (rows : list Ctt.row) :
  forall seen, subseq (kept seen rows) rows.
Proof.
  induction rows as [|row rest IH]; simpl; intro seen.
  - constructor.
  - destruct (existsb (ctt_key_eqb (key_of row)) seen); constructor; apply IH.
Qed.

Lemma subseq_In (A : Type) (l1 l2 : list A) :
  subseq l1 l2 -> forall x, In x l1 -> In x l2.
Proof.
  induction 1; simpl; intros y Hy; auto.
  destruct Hy; auto.
Qed.

(** A kept row has a key that was not seen before. *)
Lemma kept_unseen (rows : list Ctt.row) :
  forall seen r k, In r (kept seen rows) -> In k seen ->
  ctt_key_eqb (key_of r) k = false.
Proof.
  induction rows as [|row rest IH]; simpl; intros seen r k Hin Hk.
  - contradiction.
  - destruct (existsb (ctt_key_eqb (key_of row)) seen) eqn:E.
    + eapply IH; eauto.
    + destruct Hin as [<-|Hin].
      * destruct (ctt_key_eqb (key_of row) k) eqn:E'; auto.
        assert (existsb (ctt_key_eqb (key_of row)) seen = true) as C
          by (apply existsb_exists; eauto).
        congruence.
      * eapply IH; eauto. apply in_or_app; auto.
Qed.

Lemma kept_distinct (rows : list Ctt.row) :
  forall seen, distinct_keys (kept seen rows).
Proof.
  induction rows as [|row rest IH]; simpl; intro seen; auto.
  destruct (existsb (ctt_key_eqb (key_of row)) seen) eqn:E; auto.
  simpl. split; [|apply IH].
  intros r' Hin. unfold same_key. rewrite ctt_key_eqb_sym.
  eapply kept_unseen; eauto. apply in_or_app; right; left; reflexivity.
Qed.

(** A list without repeated keys, none of them seen, is kept whole. *)
Lemma kept_fixpoint (l : list Ctt.row) :
  forall seen, distinct_keys l ->
  (forall r k, In r l -> In k seen -> ctt_key_eqb (key_of r) k = false) ->
  kept seen l = l.
Proof.
  induction l as [|row rest IH]; simpl; intros seen Hd Hs; auto.
  destruct Hd as [Hd1 Hd2].
  destruct (existsb (ctt_key_eqb (key_of row)) seen) eqn:E.
  - apply existsb_exists in E. destruct E as (k & Hk & E).
    rewrite (Hs row k) in E; auto. discriminate.
  - f_equal. apply IH; auto.
    intros r k Hr Hk. apply in_app_or in Hk. destruct Hk as [Hk|[<-|[]]].
    + apply Hs; auto.
    + rewrite ctt_key_eqb_sym. apply Hd1; assumption.
Qed.

Lemma kept_app (l1 l2 : list Ctt.row) :
  forall seen,
  kept seen (l1 ++ l2) = kept seen l1 ++ kept (seen ++ map key_of (kept seen l1)) l2.
Proof.
  induction l1 as [|row rest IH]; simpl; intro seen.
  - rewrite app_nil_r. reflexivity.
  - destruct (existsb (ctt_key_eqb (key_of row)) seen) eqn:E.
    + apply IH.
    + simpl. rewrite IH. rewrite <- app_assoc. reflexivity.
Qed.

(** After a prefix, a key is seen exactly when a row of the prefix (or an
    older one) has it. *)
Lemma seen_after (l : list Ctt.row) :
  (forall r, In r l -> hashable (Ctt.content_cms_id r) = true) ->
  forall seen k,
  existsb (ctt_key_eqb k) (seen ++ map key_of (kept seen l)) =
  existsb (ctt_key_eqb k) (seen ++ map key_of l).
Proof.
  induction l as [|row rest IH]; simpl; intros Hh seen k; auto.
  assert (forall r, In r rest -> hashable (Ctt.content_cms_id r) = true) as Hh'
    by (intros; apply Hh; auto).
  destruct (existsb (ctt_key_eqb (key_of row)) seen) eqn:E.
  - rewrite IH by assumption. rewrite !existsb_app. simpl.
    destruct (ctt_key_eqb k (key_of row)) eqn:Ek; simpl; auto.
    apply existsb_exists in E. destruct E as (k' & Hk' & E).
    assert (existsb (ctt_key_eqb k) seen = true) as ->.
    { apply existsb_exists. exists k'. split; auto.
      eapply ctt_key_eqb_trans; eauto. }
    reflexivity.
  - simpl.
    replace (seen ++ key_of row :: map key_of (kept (seen ++ [key_of row]) rest))
      with ((seen ++ [key_of row]) ++ map key_of (kept (seen ++ [key_of row]) rest))
      by (rewrite <- app_assoc; reflexivity).
    rewrite IH by assumption. rewrite <- app_assoc. reflexivity.
Qed.

Lemma existsb_same_key (r : Ctt.row) (l : list Ctt.row) :
  existsb (ctt_key_eqb (key_of r)) (map key_of l) = existsb (same_key r) l.
Proof.
  induction l as [|x l IH]; simpl; auto. rewrite IH. reflexivity.
Qed.

(** C7.  The Deduplicator, run on text rows whose ids are hashable (record
    names and asset ids are; on any other id Python cannot hash the key),
    returns; its output is the input with rows left out and the order kept;
    no two output rows share the key (content id, locale, text kind, text
    index, text value); the row at any position is kept exactly when no
    earlier row has its key, so the first occurrence of every key stays and
    each later duplicate goes; and the Deduplicator maps its own output to
    itself. *)
Theorem dedup_first_occurrence_idempotent (rows : list Ctt.row) :
  (forall r, In r rows -> hashable (Ctt.content_cms_id r) = true) ->
  exists out,
    dedup_ctt rows = Ok out /\
    subseq out rows /\
    distinct_keys out /\
    (forall l1 r l2, rows = l1 ++ r :: l2 ->
       exists o1 o2,
         dedup_ctt l1 = Ok o1 /\
         out = o1 ++ (if existsb (same_key r) l1 then [] else [r]) ++ o2) /\
    dedup_ctt out = Ok out.
Proof.
  intro Hh. exists (kept [] rows). unfold dedup_ctt.
  split; [apply (dedup_loop_kept rows Hh [] [])|].
  split; [apply kept_subseq|].
  split; [apply kept_distinct|].
  split.
  - intros l1 r l2 ->.
    assert (forall x, In x l1 -> hashable (Ctt.content_cms_id x) = true) as H1
      by (intros; apply Hh; apply in_or_app; auto).
    exists (kept [] l1).
    rewrite kept_app. cbn [app kept].
    pose proof (seen_after l1 H1 [] (key_of r)) as Hs. cbn [app] in Hs.
    rewrite (existsb_same_key r l1) in Hs. rewrite Hs.
    destruct (existsb (same_key r) l1); eexists;
      (split; [apply (dedup_loop_kept l1 H1 [] [])|]); reflexivity.
  - rewrite dedup_loop_kept.
    + simpl. f_equal. apply kept_fixpoint; [apply kept_distinct|].
      intros r k _ [].
    + intros r Hr. apply Hh. eapply subseq_In; [apply kept_subseq|eassumption].
Qed.

Lemma dedup_first_occurrence_idempotent_witness :
  (forall r, In r demo_rows -> hashable (Ctt.content_cms_id r) = true) /\
  exists out,
    dedup_ctt demo_rows = Ok out /\
    subseq out demo_rows /\
    distinct_keys out /\
    (forall l1 r l2, demo_rows = l1 ++ r :: l2 ->
       exists o1 o2,
         dedup_ctt l1 = Ok o1 /\
         out = o1 ++ (if existsb (same_key r) l1 then [] else [r]) ++ o2) /\
    dedup_ctt out = Ok out.
Proof.
  assert (forall r, In r demo_rows -> hashable (Ctt.content_cms_id r) = true) as H.
  { intros r [<-|[<-|[<-|[<-|[]]]]]; reflexivity. }
  split; [exact H|].
  exact (dedup_first_occurrence_idempotent demo_rows H).
Defined.

(** ** Inversion of a step that returned *)

Lemma Ok_inj (A : Type) (a b : A) : Ok a = Ok b -> a = b.
Proof. intro H. injection H. auto. Qed.

Ltac ok_inv H :=
  lazymatch type of H with
  | bind ?m ?f = Ok ?b =>
      let a := fresh "a" in
      let Ha := fresh "Ha" in
      let Hb := fresh "Hb" in
      destruct (bind_Ok_inv m f H) as (a & Ha & Hb); clear H;
      cbv beta in Hb; ok_inv Ha; ok_inv Hb
  | (if ?c then _ else _) = Ok _ =>
      let E := fresh "E" in destruct c eqn:E; ok_inv H
  | match ?x with _ => _ end = Ok _ =>
      let E := fresh "E" in destruct x eqn:E; ok_inv H
  | Ok _ = Ok _ => apply Ok_inj in H
  | Raise _ = Ok _ => discriminate H
  | _ => idtac
  end.

(** ** Dictionaries and sets *)

Lemma dset_keys (V : Type) (k : json) (v : V) (d : pydict V) (k' : json) :
  In k' (keys (dset k v d)) -> In k' (keys d) \/ k' = k.
Proof.
  induction d as [|[k0 v0] d IH]; simpl.
  - intros [<-|[]]; auto.
  - destruct (key_eqb k0 k); simpl; intros [<-|H]; auto.
    destruct (IH H); auto.
Qed.

Lemma dset_keys_incl (V : Type) (k : json) (v : V) (d : pydict V) (k' : json) :
  In k' (keys d) -> In k' (keys (dset k v d)).
Proof.
  induction d as [|[k0 v0] d IH]; simpl; [contradiction|].
  destruct (key_eqb k0 k); simpl; intros [<-|H]; auto.
Qed.

Lemma sadd_In (k : json) (s : pyset) (k' : json) :
  In k' (sadd k s) -> In k' s \/ k' = k.
Proof.
  unfold sadd. destruct (smem k s); auto.
  intro H. apply in_app_or in H. destruct H as [H|[<-|[]]]; auto.
Qed.

Lemma sadd_incl (k : json) (s : pyset) (k' : json) :
  In k' s -> In k' (sadd k s).
Proof.
  unfold sadd. destruct (smem k s); auto. intro; apply in_or_app; auto.
Qed.

Lemma smem_str (s : string) (known : pyset) :
  smem (JStr s) known = true -> In (JStr s) known.
Proof.
  unfold smem. intro H. apply existsb_exists in H. destruct H as (k & Hk & E).
  rewrite key_eqb_sym in E. apply key_eqb_str in E. subst. assumption.
Qed.

Lemma dget_key (V : Type) (k : json) (d : pydict V) (v : V) :
  dget k d = Some v -> exists k', In k' (keys d) /\ key_eqb k' k = true.
Proof.
  induction d as [|[k0 v0] d IH]; simpl; [discriminate|].
  destruct (key_eqb k0 k) eqn:E.
  - intros _. exists k0. auto.
  - intro H. destruct (IH H) as (k' & Hk & E'). eauto.
Qed.

Lemma dmem_str (V : Type) (s : string) (d : pydict V) :
  dmem (JStr s) d = true -> In (JStr s) (keys d).
Proof.
  unfold dmem. destruct (dget (JStr s) d) eqn:E; [|discriminate]. intros _.
  apply dget_key in E. destruct E as (k' & Hk & E).
  apply key_eqb_str in E. subst. assumption.
Qed.

Lemma ids_app (a b : list Content.row) : ids (a ++ b) = ids a ++ ids b.
Proof. apply map_app. Qed.

Lemma ids_update_label (i : nat) (r : Z) (l : list Content.row) :
  ids (update_nth i (set_label r) l) = ids l.
Proof.
  revert i. induction l as [|x l IH]; intros [|i]; simpl; auto.
  f_equal. apply IH.
Qed.

(** ** The registry *)

Section Registry.

Variable rt : Runtime.
Variable ix : index.

(** Every known id and every key of a working collection has a content
    row. *)
Definition registry_ok (rg : registry) : Prop :=
  forall k,
    In k (reg_known_ids rg) \/ In k (keys (curricula rg)) \/
    In k (keys (units rg)) \/ In k (keys (pages rg)) \/
    In k (keys (lessons rg)) \/ In k (keys (terms rg)) ->
    In k (ids (reg_content rg)).

Lemma content_step_spec (it : json) (rg rg' : registry) :
  content_step rt ix it rg = Ok rg' ->
  incl (ids (reg_content rg)) (ids (reg_content rg')) /\
  (registry_ok rg -> registry_ok rg') /\
  (forall name, py_get it "name" JNull = Ok name ->
     included ix name = Ok true -> In name (ids (reg_content rg'))).
Proof.
  unfold content_step. intro H. ok_inv H; subst.
  - split; [apply incl_refl|]. split; [auto|].
    intros name Hn Hi. rewrite Ha in Hn. inversion Hn; subst.
    rewrite Ha0 in Hi. inversion Hi; subst. discriminate.
  - split.
    { simpl. rewrite ids_app. apply incl_appl, incl_refl. }
    split.
    + intros Hok k Hk. simpl in *. rewrite ids_app. apply in_or_app.
      assert (forall t d, In k (keys (if opt_Z_eqb o t then dset a it d else d)) ->
                In k (keys d) \/ k = a) as Hput.
      { intros t d. destruct (opt_Z_eqb o t); auto. apply dset_keys. }
      assert (In k (ids (reg_content rg)) \/ k = a) as [Hc| ->];
        [|auto|right; simpl; auto].
      destruct Hk as [Hk|[Hk|[Hk|[Hk|[Hk|Hk]]]]];
        [apply sadd_In in Hk|apply Hput in Hk..];
        destruct Hk as [Hk|Hk]; auto; left; apply Hok; auto 10.
    + intros name Hn _. rewrite Ha in Hn. inversion Hn; subst.
      simpl. rewrite ids_app. apply in_or_app. right. simpl. auto.
Qed.

Lemma build_registry_spec (items : list json) (rg : registry) :
  build_registry rt ix items = Ok rg ->
  registry_ok rg /\
  (forall it name, In it items -> py_get it "name" JNull = Ok name ->
     included ix name = Ok true -> In name (ids (reg_content rg))).
Proof.
  unfold build_registry.
  assert (forall l rg0 rg1, for_each (content_step rt ix) l rg0 = Ok rg1 ->
            incl (ids (reg_content rg0)) (ids (reg_content rg1)) /\
            (registry_ok rg0 -> registry_ok rg1) /\
            (forall it name, In it l -> py_get it "name" JNull = Ok name ->
               included ix name = Ok true -> In name (ids (reg_content rg1)))) as G.
  { induction l as [|x l IH]; simpl; intros rg0 rg1 H.
    - inversion H; subst. split; [apply incl_refl|]. split; auto.
      intros ? ? [].
    - monad_inv H. apply content_step_spec in Ha. destruct Ha as (M1 & O1 & N1).
      apply IH in Hb. destruct Hb as (M2 & O2 & N2).
      split; [eapply incl_tran; eauto|]. split; [auto|].
      intros it name [<-|Hin] Hn Hi; eauto. }
  intro H. apply G in H. destruct H as (_ & O & N). split; auto.
  apply O. intros k Hk. simpl in Hk. intuition.
Qed.

End Registry.

(** ** Loops that only append *)

Lemma for_each_appends (A R : Type) (P : R -> Prop)
  (body : A -> list R -> result (list R)) (l : list A) :
  (forall x s s', In x l -> body x s = Ok s' ->
     exists new, s' = s ++ new /\ Forall P new) ->
  forall s s', for_each body l s = Ok s' ->
  exists new, s' = s ++ new /\ Forall P new.
Proof.
  induction l as [|x l IH]; simpl; intros Hstep s s' H.
  - inversion H; subst. exists []. rewrite app_nil_r. auto.
  - monad_inv H.
    destruct (Hstep x s a (or_introl eq_refl) Ha) as (n1 & -> & F1).
    destruct (IH (fun y t t' Hy => Hstep y t t' (or_intror Hy)) _ _ Hb)
      as (n2 & -> & F2).
    exists (n1 ++ n2). rewrite app_assoc. split; auto. apply Forall_app; auto.
Qed.

Lemma for_enumerate_appends (A R : Type) (P : R -> Prop)
  (body : Z -> A -> list R -> result (list R)) (l : list A) :
  (forall i x s s', In x l -> body i x s = Ok s' ->
     exists new, s' = s ++ new /\ Forall P new) ->
  forall i s s', for_enumerate body i l s = Ok s' ->
  exists new, s' = s ++ new /\ Forall P new.
Proof.
  induction l as [|x l IH]; simpl; intros Hstep i s s' H.
  - inversion H; subst. exists []. rewrite app_nil_r. auto.
  - monad_inv H.
    destruct (Hstep i x s a (or_introl eq_refl) Ha) as (n1 & -> & F1).
    destruct (IH (fun j y t t' Hy => Hstep j y t t' (or_intror Hy)) _ _ _ Hb)
      as (n2 & -> & F2).
    exists (n1 ++ n2). rewrite app_assoc. split; auto. apply Forall_app; auto.
Qed.

Lemma fold_left_appends (A R : Type) (P : R -> Prop)
  (f : list R -> A -> list R) (l : list A) :
  (forall x s, In x l -> exists new, f s x = s ++ new /\ Forall P new) ->
  forall s, exists new, fold_left f l s = s ++ new /\ Forall P new.
Proof.
  induction l as [|x l IH]; simpl; intros Hstep s.
  - exists []. rewrite app_nil_r. auto.
  - destruct (Hstep x s (or_introl eq_refl)) as (n1 & -> & F1).
    destruct (IH (fun y t Hy => Hstep y t (or_intror Hy)) (s ++ n1))
      as (n2 & -> & F2).
    exists (n1 ++ n2). rewrite app_assoc. split; auto. apply Forall_app; auto.
Qed.

Lemma appends_nil (R : Type) (P : R -> Prop) (s : list R) :
  exists new, s = s ++ new /\ Forall P new.
Proof. exists []. rewrite app_nil_r. auto. Qed.

Lemma appends_one (R : Type) (P : R -> Prop) (s : list R) (r : R) :
  P r -> exists new, s ++ [r] = s ++ new /\ Forall P new.
Proof. intro H. exists [r]. auto. Qed.

(** ** Rows written from the records themselves *)

Section RecordRows.

Variable rt : Runtime.
Variable ix : index.
Variable items : list json.

(** The identifiers with a content row once the registry is built. *)
Variable I : list json.

Hypothesis included_registered :
  forall it name, In it items -> py_get it "name" JNull = Ok name ->
    included ix name = Ok true -> In name I.

(** A text row of a record: its id is registered and it is not a URL row. *)
Definition record_text (r : Ctt.row) : Prop :=
  In (Ctt.content_cms_id r) I /\ Ctt.text_type_id r <> 18%Z.

Lemma text_kinds_not_url (kt : string * Z) :
  In kt (TEXT_FIELDS ++ SPECIAL_TO_TEXT) -> snd kt <> 18%Z.
Proof.
  intro H.
  assert (forallb (fun kt => negb (snd kt =? 18)%Z)
            (TEXT_FIELDS ++ SPECIAL_TO_TEXT) = true) as F by reflexivity.
  rewrite forallb_forall in F. specialize (F kt H).
  intro E. rewrite E in F. discriminate.
Qed.

Lemma text_field_step_spec (name data : json) (keep : json -> bool)
  (kt : string * Z) (s s' : list Ctt.row) :
  In name I -> In kt (TEXT_FIELDS ++ SPECIAL_TO_TEXT) ->
  text_field_step rt name data keep kt s = Ok s' ->
  exists new, s' = s ++ new /\ Forall record_text new.
Proof.
  intros Hn Hk H. unfold text_field_step in H. ok_inv H; subst;
    try apply appends_nil.
  apply appends_one. split; simpl; auto. apply text_kinds_not_url; auto.
Qed.

Lemma text_step_spec (it : json) (s s' : list Ctt.row) :
  In it items -> text_step rt ix it s = Ok s' ->
  exists new, s' = s ++ new /\ Forall record_text new.
Proof.
  intros Hit H. unfold text_step in H. ok_inv H; subst; try apply appends_nil.
  assert (In a I) as Hn.
  { eapply included_registered; eauto.
    destruct a0; [assumption|discriminate]. }
  eapply for_each_appends in Ha2.
  2:{ intros x t t' Hx. apply text_field_step_spec; auto.
      apply in_or_app; auto. }
  eapply for_each_appends in Hb0.
  2:{ intros x t t' Hx. apply text_field_step_spec; auto.
      apply in_or_app; auto. }
  destruct Ha2 as (n1 & -> & F1). destruct Hb0 as (n2 & -> & F2).
  exists (n1 ++ n2). rewrite app_assoc. split; auto. apply Forall_app; auto.
Qed.

Lemma text_pass_spec (s : list Ctt.row) :
  for_each (text_step rt ix) items [] = Ok s -> Forall record_text s.
Proof.
  intro H. eapply for_each_appends in H.
  - destruct H as (new & -> & F). exact F.
  - intros x t t' Hx. apply text_step_spec; assumption.
Qed.

(** An attribute row of a record. *)
Definition record_attr (r : Cta.row) : Prop := In (Cta.content_cms_id r) I.

Lemma push_attr_spec (name : json) (aid : option Z) (s : list Cta.row) :
  In name I -> exists new, push_attr rt name aid s = s ++ new /\ Forall record_attr new.
Proof.
  intro Hn. unfold push_attr. destruct aid; [|apply appends_nil].
  apply appends_one. exact Hn.
Qed.

Lemma attr_step_spec (it : json) (s s' : list Cta.row) :
  In it items -> attr_step rt ix it s = Ok s' ->
  exists new, s' = s ++ new /\ Forall record_attr new.
Proof.
  intros Hit H. unfold attr_step in H. ok_inv H; subst; try apply appends_nil.
  assert (In a I) as Hn.
  { eapply included_registered; eauto.
    destruct a0; [assumption|discriminate]. }
  match goal with
  | |- exists new, ?X = _ /\ _ => remember X as res eqn:Hres
  end.
  assert (forall (f : json -> option Z) l t,
            exists new, fold_left (fun acc c => push_attr rt a (f c) acc) l t
                        = t ++ new /\ Forall record_attr new) as Hfold.
  { intros f l t. apply fold_left_appends. intros x u _.
    apply push_attr_spec; assumption. }
  assert (exists n1, (match a2 with
            | JList l =>
                fold_left (fun acc c =>
                  push_attr rt a
                    (lookup_or ATTR_ID_MAP (py_str rt c)
                       (str_upper rt (py_str rt c))) acc) l s
            | _ => s end) = s ++ n1 /\ Forall record_attr n1) as (n1 & E1 & F1).
  { destruct a2; try apply appends_nil. apply Hfold. }
  rewrite E1 in Hres.
  assert (exists n2, (if truthy a3 then
              push_attr rt a
                (lookup_or ATTR_ID_MAP (py_str rt a3)
                   (str_capitalize rt (py_str rt a3))) (s ++ n1)
            else s ++ n1) = (s ++ n1) ++ n2 /\ Forall record_attr n2)
    as (n2 & E2 & F2).
  { destruct (truthy a3); [|apply appends_nil]. apply push_attr_spec; auto. }
  rewrite E2 in Hres.
  assert (exists n3, res = ((s ++ n1) ++ n2) ++ n3 /\ Forall record_attr n3)
    as (n3 & E3 & F3).
  { subst res. destruct a4; try apply appends_nil. apply Hfold. }
  exists (n1 ++ n2 ++ n3). rewrite E3, !app_assoc. split; auto.
  apply Forall_app. split; [apply Forall_app; split|]; assumption.
Qed.

Lemma attr_pass_spec (s : list Cta.row) :
  for_each (attr_step rt ix) items [] = Ok s -> Forall record_attr s.
Proof.
  intro H. eapply for_each_appends in H.
  - destruct H as (new & -> & F). exact F.
  - intros x t t' Hx. apply attr_step_spec; assumption.
Qed.

End RecordRows.

(** ** Edges between records *)

Lemma lookup_In (V : Type) (k : string) (d : list (string * V)) (v : V) :
  lookup k d = Some v -> In (k, v) d.
Proof.
  induction d as [|[k0 v0] d IH]; simpl; [discriminate|].
  destruct (k0 =? k) eqn:E.
  - apply String.eqb_eq in E. subst. intro H. injection H as ->. auto.
  - auto.
Qed.

Lemma label_not_role (seg : string) (lbl : Z) :
  lookup seg LABEL_MAP = Some lbl -> is_image_role (Some lbl) = false.
Proof.
  intro H. apply lookup_In in H.
  assert (forallb (fun e => negb (is_image_role (Some (snd e)))) LABEL_MAP = true)
    as F by reflexivity.
  rewrite forallb_forall in F. specialize (F _ H). cbn [snd] in F.
  apply negb_true_iff in F. exact F.
Qed.

Lemma first_label_not_role (parts : list string) :
  is_image_role (first_label parts) = false.
Proof.
  induction parts as [|seg rest IH]; cbn [first_label]; auto.
  destruct (lookup seg LABEL_MAP) eqn:E; [|exact IH].
  eapply label_not_role; eauto.
Qed.

Lemma path_label_not_role (p : json) : is_image_role (path_label p) = false.
Proof.
  destruct p; cbn [path_label]; auto. apply first_label_not_role.
Qed.

Lemma Forall_snoc (A : Type) (P : A -> Prop) (l : list A) (x : A) :
  Forall P l -> P x -> Forall P (l ++ [x]).
Proof. intros. apply Forall_app. auto. Qed.

Section RecordEdges.

Variable rt : Runtime.
Variable ix : index.
Variable rg : registry.
Variable items : list json.

Hypothesis Hreg : registry_ok rg.

Hypothesis Hinc :
  forall it name, In it items -> py_get it "name" JNull = Ok name ->
    included ix name = Ok true -> In name (ids (reg_content rg)).

(** An edge between two registered records; its label is no image role. *)
Definition record_edge (e : Ctc.row) : Prop :=
  In (Ctc.parent_cms_id e) (ids (reg_content rg)) /\
  In (Ctc.child_cms_id e) (ids (reg_content rg)) /\
  is_image_role (Ctc.child_content_label_id e) = false.

Lemma is_known_registered (child : string) :
  is_known (reg_known_ids rg) child = true ->
  In (JStr child) (ids (reg_content rg)).
Proof.
  unfold is_known. intro H. apply andb_true_iff in H. destruct H as [_ H].
  apply smem_str in H. apply Hreg. auto.
Qed.

Lemma link_ref_spec (parent : json) (wl : bool) (idx : Z) (ref : json)
  (s s' : list Ctc.row) :
  In parent (ids (reg_content rg)) -> Forall record_edge s ->
  link_ref rt (reg_known_ids rg) parent wl idx ref s = Ok s' ->
  Forall record_edge s'.
Proof.
  intros Hp Hs H. unfold link_ref in H. ok_inv H; subst; auto.
  apply Forall_snoc; auto. repeat split; simpl; auto.
  - apply is_known_registered; assumption.
  - destruct wl; auto. apply path_label_not_role.
Qed.

Lemma curriculum_step_spec (c : json * json) (s s' : list Ctc.row) :
  In c (curricula rg) -> Forall record_edge s ->
  curriculum_step rt rg c s = Ok s' -> Forall record_edge s'.
Proof.
  intros Hc Hs H.
  assert (In (fst c) (ids (reg_content rg))) as Hp.
  { apply Hreg. right; left. apply in_map. assumption. }
  assert (forall r,
            for_each (infer_unit_step rt (reg_known_ids rg) (fst c)
                        ("/curriculum/" ++ py_str rt (fst c) ++ "/")%string)
              (units rg) (s, 0%Z) = Ok r -> Forall record_edge (fst r)) as Hfall.
  { intros r Hf.
    loop_inv (fun acc : list Ctc.row * Z => Forall record_edge (fst acc)) Hf.
    intros u acc acc' Hu Ha' Hstep. unfold infer_unit_step in Hstep.
    ok_inv Hstep; subst; auto. cbn [fst].
    apply Forall_snoc; auto. repeat split; cbn; auto.
    apply Hreg. right; right; left. apply in_map. assumption. }
  unfold curriculum_step in H. ok_inv H; subst;
    try (apply Hfall; assumption);
    match goal with
    | Hf : for_enumerate _ _ _ _ = Ok _ |- _ =>
        loop_inv (Forall record_edge) Hf; intros; eapply link_ref_spec; eauto
    end.
Qed.

Lemma children_step_spec (field : string) (wl : bool) (it : json)
  (s s' : list Ctc.row) :
  In it items -> Forall record_edge s ->
  children_step rt ix rg field wl it s = Ok s' -> Forall record_edge s'.
Proof.
  intros Hit Hs H. unfold children_step in H. ok_inv H; subst; auto.
  match goal with
  | Hf : for_enumerate _ _ _ _ = Ok _ |- _ => loop_inv (Forall record_edge) Hf
  end.
  intros. eapply link_ref_spec; eauto.
  eapply Hinc; eauto. destruct a0; [assumption|discriminate].
Qed.

Lemma term_ref_step_spec (term_id ref : json)
  (acc acc' : list Ctc.row * pydict Z) :
  In term_id (ids (reg_content rg)) -> Forall record_edge (fst acc) ->
  term_ref_step rt ix rg term_id ref acc = Ok acc' ->
  Forall record_edge (fst acc').
Proof.
  intros Ht Hs H. unfold term_ref_step in H. monad_inv H.
  destruct ((a =? "") || negb (dmem (JStr a) (pages rg))) eqn:E;
    [apply Ok_inj in Hb; subst; assumption|].
  destruct (negb (opt_Z_eqb _ 305)); apply Ok_inj in Hb; subst; auto.
  cbn [fst]. apply Forall_snoc; auto. repeat split; cbn; auto.
  apply orb_false_iff in E. destruct E as [_ E].
  apply negb_false_iff in E. apply dmem_str in E.
  apply Hreg. right; right; right; left. assumption.
Qed.

Lemma term_step_spec (t : json * json) (acc acc' : list Ctc.row * pydict Z) :
  In t (terms rg) -> Forall record_edge (fst acc) ->
  term_step rt ix rg t acc = Ok acc' -> Forall record_edge (fst acc').
Proof.
  intros Ht Hs H.
  assert (In (fst t) (ids (reg_content rg))) as Hid.
  { apply Hreg. do 5 right. apply in_map. assumption. }
  unfold term_step in H. ok_inv H; subst; auto;
    try (eapply term_ref_step_spec; eauto; fail);
    match goal with
    | Hf : for_each _ _ _ = Ok _ |- _ =>
        loop_inv (fun a : list Ctc.row * pydict Z => Forall record_edge (fst a)) Hf;
        intros; eapply term_ref_step_spec; eauto
    end.
Qed.

Lemma record_edges_spec (s : list Ctc.row) :
  record_edges rt ix rg items = Ok s -> Forall record_edge s.
Proof.
  intro H. unfold record_edges in H. monad_inv H.
  assert (Forall record_edge a) as H1.
  { loop_inv (Forall record_edge) Ha; [|constructor].
    intros; eapply curriculum_step_spec; eauto. }
  assert (Forall record_edge a0) as H2.
  { loop_inv (Forall record_edge) Ha0.
    intros; eapply children_step_spec; eauto. }
  assert (Forall record_edge a1) as H3.
  { loop_inv (Forall record_edge) Ha1.
    intros; eapply children_step_spec; eauto. }
  loop_inv (fun acc : list Ctc.row * pydict Z => Forall record_edge (fst acc)) Ha2.
  intros; eapply term_step_spec; eauto.
Qed.

End RecordEdges.

(** ** What one [_record_asset] call does *)

Lemma smem_sadd (k : json) (s : pyset) :
  hashable k = true -> smem k (sadd k s) = true.
Proof.
  intro H. unfold sadd. destruct (smem k s) eqn:E; [assumption|].
  unfold smem. rewrite existsb_app. simpl.
  rewrite key_eqb_refl by assumption. rewrite orb_true_r. reflexivity.
Qed.

Section RecordAsset.

Variable rt : Runtime.
Variable base_url : string.
Variables (aid : string) (url : json) (role : option Z).
Variables (st : state) (loc : locals).

Let st' : state := fst (_record_asset rt base_url aid url role st loc).
Let loc' : locals := snd (_record_asset rt base_url aid url role st loc).

Lemma record_asset_ids :
  ids (content st') =
  ids (content st) ++ (if smem (JStr aid) (known_ids st) then [] else [JStr aid]).
Proof.
  unfold st', _record_asset. cbn [fst content].
  set (c1 := if negb (smem (JStr aid) (known_ids st)) then _ else content st).
  assert (ids c1 = ids (content st) ++
            (if smem (JStr aid) (known_ids st) then [] else [JStr aid])) as E.
  { unfold c1. destruct (smem (JStr aid) (known_ids st)); simpl.
    - rewrite app_nil_r. reflexivity.
    - rewrite ids_app. reflexivity. }
  rewrite <- E.
  destruct (dget (JStr aid) _); [|reflexivity].
  destruct (nth_error c1 n); [|reflexivity].
  destruct (_ || _); [|reflexivity].
  destruct role; [|reflexivity].
  apply ids_update_label.
Qed.

Lemma record_asset_known :
  known_ids st' =
  if smem (JStr aid) (known_ids st) then known_ids st
  else sadd (JStr aid) (known_ids st).
Proof.
  unfold st', _record_asset. cbn [fst known_ids].
  destruct (smem (JStr aid) (known_ids st)); reflexivity.
Qed.


Lemma record_asset_ctt :
  ctt st' =
  ctt st ++
  (if str_mem aid (url_row_written st) then []
   else [text_row rt (JStr aid) 0 18
           (TStr (py_str rt (_normalize_url url (Some base_url))))]).
Proof.
  unfold st', _record_asset. cbn [fst ctt].
  destruct (str_mem aid (url_row_written st)); simpl;
    [rewrite app_nil_r|]; reflexivity.
Qed.

Lemma record_asset_written :
  url_row_written st' =
  if str_mem aid (url_row_written st) then url_row_written st
  else aid :: url_row_written st.
Proof.
  unfold st', _record_asset. cbn [fst url_row_written].
  destruct (str_mem aid (url_row_written st)); reflexivity.
Qed.


Lemma record_asset_url_map :
  asset_url_map st' =
  sset aid (py_str rt (_normalize_url url (Some base_url))) (asset_url_map st).
Proof. reflexivity. Qed.

Lemma record_asset_calls : asset_calls st' = asset_calls st ++ [(aid, url)].
Proof. reflexivity. Qed.

Lemma record_asset_order : encounter_order loc' = encounter_order loc ++ [aid].
Proof. reflexivity. Qed.


End RecordAsset.

(** ** Scanning one record for assets *)

Lemma image_key_role (key : string) :
  In key IMAGE_URL_KEYS -> is_image_role (lookup key IMAGE_ROLE_LABEL) = true.
Proof.
  assert (forallb (fun k => is_image_role (lookup k IMAGE_ROLE_LABEL))
            IMAGE_URL_KEYS = true) as F by reflexivity.
  rewrite forallb_forall in F. apply F.
Qed.

Section Scan.

Variable rt : Runtime.
Variable base_url : string.

(** A property of the state and the locals kept by every call that the
    scan can make is kept by the scan. *)
Variable P : state * locals -> Prop.

Hypothesis P_record :
  forall aid url role st loc,
    is_image_role role = true -> aid <> "" ->
    derive_asset_id (py_str rt url) = Some aid ->
    P (st, loc) -> P (_record_asset rt base_url aid url role st loc).

Lemma record_url_inv (url : json) (role : option Z) (sl : state * locals) :
  is_image_role role = true -> P sl -> P (record_url rt base_url url role sl).
Proof.
  intros Hr HP. unfold record_url.
  destruct (derive_asset_id (py_str rt url)) as [aid|] eqn:E; [|assumption].
  destruct (aid =? "") eqn:E'; [assumption|].
  apply String.eqb_neq in E'. destruct sl as [st loc].
  apply P_record; auto.
Qed.

Lemma scan_images_inv (pdata : list (string * json)) (sl : state * locals) :
  P sl -> P (scan_images rt base_url pdata sl).
Proof.
  intro HP. unfold scan_images.
  set (sl1 := match _extract_image_url (dict_get pdata "image") with
              | Some u => _ | None => sl end).
  assert (P sl1) as H1.
  { unfold sl1. destruct (_extract_image_url (dict_get pdata "image"));
      [apply record_url_inv; auto|assumption]. }
  set (sl2 := fold_left _ IMAGE_URL_KEYS sl1).
  assert (P sl2) as H2.
  { unfold sl2. apply fold_left_inv; [|exact H1].
    intros key s Hk Hs.
    destruct (_extract_image_url (dict_get pdata key)); [|assumption].
    apply record_url_inv; [apply image_key_role|]; assumption. }
  destruct (dict_get pdata "images"); try assumption.
  apply fold_left_inv; [|exact H2].
  intros u s _ Hs. destruct (truthy u); [|assumption].
  apply record_url_inv; auto.
Qed.

End Scan.

(** ** Emission of the asset edges *)

Lemma indexed_from_app (a b : list Ctc.row) :
  forall n, indexed_from n (a ++ b) <->
            indexed_from n a /\ indexed_from (n + length a) b.
Proof.
  induction a as [|e a IH]; simpl; intro n.
  - rewrite Nat.add_0_r. tauto.
  - rewrite IH. replace (S n + length a)%nat with (n + S (length a))%nat by lia.
    tauto.
Qed.

Section Emit.

Variable rt : Runtime.
Variable parent : json.

Lemma emit_roles_spec (aid : string) (roles : list (option Z)) :
  forall c, exists new,
    emit_roles rt parent aid roles c = c ++ new /\
    indexed_from (length c) new /\
    map Ctc.child_content_label_id new = roles /\
    Forall (fun e => Ctc.parent_cms_id e = parent /\
                     Ctc.child_cms_id e = JStr aid) new.
Proof.
  unfold emit_roles. induction roles as [|r roles IH]; simpl; intro c.
  - exists []. rewrite app_nil_r. simpl. auto.
  - destruct (IH (c ++ [edge rt parent (JStr aid) r (Z.of_nat (length c))]))
      as (new & E & Hi & Hl & Hf).
    exists (edge rt parent (JStr aid) r (Z.of_nat (length c)) :: new).
    rewrite E, <- app_assoc. simpl. split; [reflexivity|].
    rewrite length_app in Hi. simpl in Hi.
    replace (length c + 1)%nat with (S (length c)) in Hi by lia.
    repeat split; auto. f_equal; assumption.
Qed.

(** What [emit_edges] appends: edges of [parent] to assets met in the scan,
    labelled with a role of the asset's set ([dflt] if it had none),
    indexed by their position in the whole table. *)
Lemma emit_edges_spec (dflt : list (option Z)) (loc : locals) :
  forall c, exists new,
    emit_edges rt parent dflt loc c = c ++ new /\
    indexed_from (length c) new /\
    Forall (fun e =>
      Ctc.parent_cms_id e = parent /\
      exists aid, In aid (encounter_order loc) /\
        Ctc.child_cms_id e = JStr aid /\
        In (Ctc.child_content_label_id e)
           (sort_roles (from_option dflt (lookup aid (roles_per_asset loc))))) new.
Proof.
  unfold emit_edges. generalize (roles_per_asset loc) as rp.
  induction (encounter_order loc) as [|aid order IH]; simpl; intros rp c.
  - exists []. rewrite app_nil_r. simpl. auto.
  - destruct (emit_roles_spec aid (sort_roles (from_option dflt (lookup aid rp))) c)
      as (n1 & E1 & I1 & L1 & F1).
    destruct (IH rp (c ++ n1)) as (n2 & E2 & I2 & F2).
    exists (n1 ++ n2). rewrite E1, E2, <- app_assoc. split; [reflexivity|].
    split.
    + apply indexed_from_app. split; auto. rewrite <- length_app. assumption.
    + apply Forall_app. split.
      * rewrite Forall_forall in *. intros e He. destruct (F1 e He) as [Hp Hc].
        split; auto. exists aid. repeat split; auto.
        rewrite <- L1. apply in_map. assumption.
      * eapply Forall_impl; [|exact F2]. simpl.
        intros e (Hp & a & Ha & Hc & Hl). split; auto. exists a. auto.
Qed.

End Emit.

(** ** The shape of the asset and answer steps *)

Section StepShapes.

Variable rt : Runtime.
Variable ix : index.
Variable base_url : string.

Lemma link_assets_shape (parent pdata : json) (dflt : list (option Z))
  (st st' : state) :
  link_assets rt base_url parent pdata dflt st = Ok st' ->
  exists d, pdata = JDict d /\
    st' = with_ctc (fst (scan_images rt base_url d (st, mk_locals [] [])))
            (emit_edges rt parent dflt
               (snd (scan_images rt base_url d (st, mk_locals [] [])))
               (ctc (fst (scan_images rt base_url d (st, mk_locals [] []))))).
Proof.
  unfold link_assets. destruct pdata; try discriminate.
  intro H. apply Ok_inj in H. subst. eauto.
Qed.

Lemma asset_step_shape (it : json) (st st' : state) :
  asset_step rt ix base_url it st = Ok st' ->
  st' = st \/
  exists parent pdata,
    py_get it "name" JNull = Ok parent /\ included ix parent = Ok true /\
    link_assets rt base_url parent pdata [None] st = Ok st'.
Proof.
  unfold asset_step. intro H. ok_inv H; subst; auto.
  right. exists a, a1. destruct a0; [auto|discriminate].
Qed.

Lemma page_asset_step_shape (pg : json * json) (st st' : state) :
  page_asset_step rt ix base_url pg st = Ok st' ->
  st' = st \/
  exists pdata, link_assets rt base_url (fst pg) pdata [] st = Ok st'.
Proof.
  unfold page_asset_step. intro H. ok_inv H; subst; eauto.
Qed.

End StepShapes.

(** ** Invariant rule for the answer pass *)

Lemma ensure_answer_known (rt : Runtime) (answer_id : string) (st : state) :
  answer_id <> "" ->
  smem (JStr answer_id) (known_ids (_ensure_answer_content rt answer_id st)) = true.
Proof.
  intro Hne. unfold _ensure_answer_content.
  apply String.eqb_neq in Hne. rewrite Hne. simpl.
  destruct (smem (JStr answer_id) (known_ids st)) eqn:E; simpl; [assumption|].
  apply smem_sadd. reflexivity.
Qed.

Section QuestionInv.

Variable rt : Runtime.
Variable ix : index.
Variable answer_text_index : pydict string.
Variable it : json.
Variable P : state -> Prop.

Hypothesis P_ensure :
  forall st answer_id, answer_id <> "" -> P st ->
    P (_ensure_answer_content rt answer_id st).

Hypothesis P_edge :
  forall st qid answer_id lbl idx,
    py_get it "name" JNull = Ok qid -> included ix qid = Ok true ->
    smem (JStr answer_id) (known_ids st) = true ->
    lbl = 501%Z \/ lbl = 502%Z -> P st ->
    P (with_ctc st (ctc st ++ [edge rt qid (JStr answer_id) (Some lbl) idx])).

Hypothesis P_text :
  forall st qid idx t,
    py_get it "name" JNull = Ok qid -> included ix qid = Ok true -> P st ->
    P (with_ctt st (ctt st ++ [text_row rt qid idx 26 (TStr t)])).

Lemma question_step_inv (st st' : state) :
  P st -> question_step rt ix answer_text_index it st = Ok st' -> P st'.
Proof.
  intros HP H. unfold question_step in H.
  apply bind_Ok_inv in H. destruct H as (qid & Hq & H).
  apply bind_Ok_inv in H. destruct H as (inc & Hi & H). cbv beta in H.
  destruct inc; cbn [negb] in H;
    [|apply Ok_inj in H; subst; assumption].
  assert (forall l s r, P s ->
            for_each (potential_step rt qid) l (s, 0%Z) = Ok r -> P (fst r)) as Hpot.
  { intros l s r Hs Hf.
    loop_inv (fun acc : state * Z => P (fst acc)) Hf.
    intros ref acc acc' _ Hacc Hstep. unfold potential_step in Hstep.
    monad_inv Hstep. destruct (a =? "") eqn:E; apply Ok_inj in Hb; subst; auto.
    cbn [fst]. apply String.eqb_neq in E.
    apply P_edge; auto. apply ensure_answer_known; assumption. }
  assert (forall l s r, P s ->
            for_each (correct_step rt ix answer_text_index qid) l (s, 0%Z) = Ok r ->
            P (fst r)) as Hcor.
  { intros l s r Hs Hf.
    loop_inv (fun acc : state * Z => P (fst acc)) Hf.
    intros ref acc acc' _ Hacc Hstep. unfold correct_step in Hstep.
    monad_inv Hstep. destruct (a =? "") eqn:E;
      [apply Ok_inj in Hb; subst; assumption|].
    monad_inv Hb. cbn [fst]. apply String.eqb_neq in E.
    assert (P (with_ctc (_ensure_answer_content rt a (fst acc))
                 (ctc (_ensure_answer_content rt a (fst acc)) ++
                  [edge rt qid (JStr a) (Some 502%Z) (snd acc)]))) as He
      by (apply P_edge; auto; apply ensure_answer_known; assumption).
    destruct (a0 =? ""); [exact He|].
    exact (@P_text _ qid (snd acc) a0 Hq Hi He). }
  ok_inv H; subst; eauto.
Qed.

End QuestionInv.

(** ** The phases of a run that returned *)

Lemma transform_run_phases (rt : Runtime) (items : list json)
  (base_url : option string) (r : run) :
  transform_run rt items base_url = Ok r ->
  exists base ix rg ctt0 cta0 ctc0 st1 st2 st3 es deduped,
    resolve_base rt items base_url = Ok base /\
    build_index items = Ok ix /\
    build_registry rt ix items = Ok rg /\
    for_each (text_step rt ix) items [] = Ok ctt0 /\
    for_each (attr_step rt ix) items [] = Ok cta0 /\
    record_edges rt ix rg items = Ok ctc0 /\
    for_each (asset_step rt ix base) items
      (mk_state (reg_content rg) (reg_content_index rg) (reg_known_ids rg)
         ctt0 ctc0 [] [] [] []) = Ok st1 /\
    for_each (page_asset_step rt ix base) (pages rg) st1 = Ok st2 /\
    for_each (question_step rt ix (build_answer_text_index ctt0)) items st2
      = Ok st3 /\
    enrich_all rt base st3 = Ok es /\
    dedup_ctt (e_ctt es) = Ok deduped /\
    r = mk_run (Tables.mk (content st3) deduped (ctc st3) cta0) st3 es.
Proof.
  unfold transform_run, run_with. intro H.
  destruct (resolve_base rt items base_url) as [base|] eqn:E1; [|discriminate].
  destruct (build_index items) as [ix|] eqn:E2; [|discriminate].
  cbn [bind] in H.
  destruct (build_registry rt ix items) as [rg|] eqn:E3; [|discriminate].
  destruct (for_each (text_step rt ix) items []) as [ctt0|] eqn:E4;
    [|discriminate].
  cbn [bind] in H.
  destruct (for_each (attr_step rt ix) items []) as [cta0|] eqn:E5;
    [|discriminate].
  destruct (record_edges rt ix rg items) as [ctc0|] eqn:E6; [|discriminate].
  cbn [bind] in H.
  destruct (for_each (asset_step rt ix base) items _) as [st1|] eqn:E7;
    [|discriminate].
  cbn [bind] in H.
  destruct (for_each (page_asset_step rt ix base) (pages rg) st1) as [st2|] eqn:E8;
    [|discriminate].
  cbn [bind] in H.
  destruct (for_each (question_step rt ix (build_answer_text_index ctt0)) items st2)
    as [st3|] eqn:E9; [|discriminate].
  cbn [bind] in H.
  destruct (enrich_all rt base st3) as [es|] eqn:E10; [|discriminate].
  cbn [bind] in H.
  destruct (dedup_ctt (e_ctt es)) as [deduped|] eqn:E11; [|discriminate].
  cbn [bind] in H. apply Ok_inj in H.
  exists base, ix, rg, ctt0, cta0, ctc0, st1, st2, st3, es, deduped.
  do 11 (split; [first [assumption | reflexivity]|]). symmetry. exact H.
Qed.

(** ** Foreign keys *)

Lemma fk_grow (st : state) (c' : list Content.row) (new_ctt : list Ctt.row)
  (new_ctc : list Ctc.row) (known' : pyset) ci w h m calls :
  fk_ok st -> incl (ids (content st)) (ids c') ->
  (forall k, In k known' -> In k (known_ids st) \/ In k (ids c')) ->
  Forall (fun r => In (Ctt.content_cms_id r) (ids c')) new_ctt ->
  Forall (fun e => In (Ctc.parent_cms_id e) (ids c') /\
                   In (Ctc.child_cms_id e) (ids c')) new_ctc ->
  fk_ok (mk_state c' ci known' (ctt st ++ new_ctt) (ctc st ++ new_ctc) w h m calls).
Proof.
  intros (Hk & Ht & Hc) Hincl Hknown Hnt Hnc. unfold fk_ok; simpl.
  split; [|split].
  - intros k Hin. destruct (Hknown k Hin) as [H|H]; auto.
  - apply Forall_app. split; [|assumption].
    eapply Forall_impl; [|exact Ht]. simpl. auto.
  - apply Forall_app. split; [|assumption].
    eapply Forall_impl; [|exact Hc]. simpl. intros e [H1 H2]. auto.
Qed.

Lemma state_eta (st : state) :
  st = mk_state (content st) (content_index st) (known_ids st) (ctt st) (ctc st)
         (url_row_written st) (asset_ext_hint st) (asset_url_map st)
         (asset_calls st).
Proof. destruct st; reflexivity. Qed.

Section ForeignKeys.

Variable rt : Runtime.
Variable base_url : string.

Lemma fk_record_asset (aid : string) (url : json) (role : option Z)
  (st : state) (loc : locals) :
  fk_ok st ->
  fk_ok (fst (_record_asset rt base_url aid url role st loc)) /\
  incl (ids (content st))
       (ids (content (fst (_record_asset rt base_url aid url role st loc)))) /\
  In (JStr aid)
     (ids (content (fst (_record_asset rt base_url aid url role st loc)))).
Proof.
  intro Hfk.
  set (st' := fst (_record_asset rt base_url aid url role st loc)).
  assert (incl (ids (content st)) (ids (content st'))) as Hincl.
  { unfold st'. rewrite record_asset_ids. apply incl_appl, incl_refl. }
  assert (In (JStr aid) (ids (content st'))) as Hin.
  { unfold st'. rewrite record_asset_ids.
    destruct (smem (JStr aid) (known_ids st)) eqn:E.
    - rewrite app_nil_r. apply Hfk. apply smem_str. assumption.
    - apply in_or_app. right. simpl. auto. }
  split; [|auto].
  rewrite (state_eta st').
  replace (ctt st') with
    (ctt st ++ (if str_mem aid (url_row_written st) then []
                else [text_row rt (JStr aid) 0 18
                        (TStr (py_str rt (_normalize_url url (Some base_url))))]))
    by (symmetry; apply record_asset_ctt).
  replace (ctc st') with (ctc st ++ []) by (rewrite app_nil_r; reflexivity).
  apply fk_grow; auto.
  - intros k Hk. unfold st' in Hk. rewrite record_asset_known in Hk.
    destruct (smem (JStr aid) (known_ids st)); auto.
    apply sadd_In in Hk. destruct Hk as [Hk| ->]; auto.
  - destruct (str_mem aid (url_row_written st)); constructor; auto.
Qed.

Lemma fk_with_ctc (st : state) (new : list Ctc.row) :
  fk_ok st ->
  Forall (fun e => In (Ctc.parent_cms_id e) (ids (content st)) /\
                   In (Ctc.child_cms_id e) (ids (content st))) new ->
  fk_ok (with_ctc st (ctc st ++ new)).
Proof.
  intros Hfk Hnew. unfold with_ctc. rewrite <- (app_nil_r (ctt st)).
  apply fk_grow; auto. apply incl_refl.
Qed.

Lemma fk_with_ctt (st : state) (new : list Ctt.row) :
  fk_ok st ->
  Forall (fun r => In (Ctt.content_cms_id r) (ids (content st))) new ->
  fk_ok (with_ctt st (ctt st ++ new)).
Proof.
  intros Hfk Hnew. unfold with_ctt. rewrite <- (app_nil_r (ctc st)).
  apply fk_grow; auto. apply incl_refl.
Qed.

Lemma fk_ensure (answer_id : string) (st : state) :
  fk_ok st ->
  fk_ok (_ensure_answer_content rt answer_id st) /\
  incl (ids (content st)) (ids (content (_ensure_answer_content rt answer_id st))).
Proof.
  intro Hfk. unfold _ensure_answer_content.
  destruct (negb (answer_id =? "") && negb (smem (JStr answer_id) (known_ids st)));
    [|split; [assumption|apply incl_refl]].
  unfold register. cbn [content Content.cms_id].
  split; [|rewrite ids_app; apply incl_appl, incl_refl].
  rewrite <- (app_nil_r (ctt st)), <- (app_nil_r (ctc st)).
  apply fk_grow; auto.
  - rewrite ids_app; apply incl_appl, incl_refl.
  - intros k Hk. apply sadd_In in Hk. destruct Hk as [Hk| ->]; auto.
    right. rewrite ids_app. apply in_or_app. right. simpl. auto.
Qed.

(** The ids registered before the relationship builder stay registered. *)
Variable I0 : list json.

Definition fk_inv (st : state) : Prop :=
  fk_ok st /\ incl I0 (ids (content st)).

Lemma fk_link_assets (parent pdata : json) (dflt : list (option Z))
  (st st' : state) :
  In parent I0 -> fk_inv st ->
  link_assets rt base_url parent pdata dflt st = Ok st' -> fk_inv st'.
Proof.
  intros Hp [Hfk Hi] H. apply link_assets_shape in H.
  destruct H as (d & -> & ->).
  pose (Q := fun sl : state * locals =>
    fk_inv (fst sl) /\
    forall aid, In aid (encounter_order (snd sl)) ->
      In (JStr aid) (ids (content (fst sl)))).
  assert (Q (scan_images rt base_url d (st, mk_locals [] []))) as HQ.
  { apply scan_images_inv.
    - intros aid url role s l _ _ _ [[Hfk' Hi'] Ho].
      simpl in Hfk', Hi', Ho.
      destruct (fk_record_asset aid url role l Hfk') as (F1 & F2 & F3).
      unfold Q. split; [split|].
      + exact F1.
      + eapply incl_tran; eauto.
      + intros a Ha. rewrite record_asset_order in Ha. apply in_app_or in Ha.
        destruct Ha as [Ha|[<-|[]]]; auto.
    - unfold Q; simpl. split; [split; assumption|]. intros ? []. }
  destruct (scan_images rt base_url d (st, mk_locals [] [])) as [s1 l1].
  destruct HQ as [[Hfk1 Hi1] Ho1]. simpl in *.
  destruct (emit_edges_spec rt parent dflt l1 (ctc s1)) as (new & E & _ & F).
  rewrite E. split.
  - apply fk_with_ctc; auto.
    eapply Forall_impl; [|exact F]. simpl.
    intros e (Hpe & a & Ha & Hc & _). rewrite Hpe, Hc. auto.
  - exact Hi1.
Qed.

End ForeignKeys.

(** ** Enrichment rows *)

Section EnrichRows.

Variable rt : Runtime.
Variable base_url : string.
Variable hints : list (string * string).
Variable url_map : list (string * string).

(** A row the Enricher writes for [aid]: one of the four kinds. *)
Definition enrichment_of (aid : json) (r : Ctt.row) : Prop :=
  Ctt.content_cms_id r = aid /\
  In (Ctt.text_type_id r) [1; 19; 20; 21]%Z.

Lemma enrich_appends (aid : json) (es : enrich_state) :
  exists new,
    e_ctt (_enrich_asset_ctt_rows_for rt aid base_url hints url_map es)
      = e_ctt es ++ new /\
    Forall (enrichment_of aid) new.
Proof.
  unfold _enrich_asset_ctt_rows_for.
  destruct (negb (truthy aid)); [apply appends_nil|].
  destruct (mem_Z 1 _ && mem_Z 19 _ && mem_Z 20 _ && mem_Z 21 _);
    [apply appends_nil|].
  cbn [e_ctt].
  destruct (mem_Z 1 _), (mem_Z 19 _), (mem_Z 20 _), (mem_Z 21 _);
    repeat rewrite <- app_assoc; cbn [app];
    first [ apply appends_nil
          | eexists; split; [reflexivity|];
            repeat (apply Forall_cons;
                    [split; [reflexivity|cbn; tauto]|]);
            apply Forall_nil ].
Qed.

Lemma insert_sorted_In (A : Type) (leb : A -> A -> bool) (x y : A) (l : list A) :
  In y (insert_sorted leb x l) -> y = x \/ In y l.
Proof.
  induction l as [|z l IH]; simpl.
  - intros [<-|[]]; auto.
  - destruct (leb x z); simpl; intros [<-|H]; auto.
    destruct (IH H); auto.
Qed.

Lemma sorted_In (A : Type) (leb : A -> A -> bool) (y : A) (l : list A) :
  In y (fold_right (insert_sorted leb) [] l) -> In y l.
Proof.
  induction l as [|x l IH]; simpl; auto.
  intro H. apply insert_sorted_In in H. destruct H as [<-|H]; auto.
Qed.

Lemma py_sorted_In (s : pyset) (l : list json) (y : json) :
  py_sorted rt s = Ok l -> In y l -> In y s.
Proof.
  unfold py_sorted. destruct s as [|a [|b s]].
  - intro H; apply Ok_inj in H; subst; auto.
  - intro H; apply Ok_inj in H; subst; auto.
  - destruct (all_some as_str (a :: b :: s)).
    + intro H; apply Ok_inj in H; subst. apply sorted_In.
    + destruct (all_some as_num (a :: b :: s)); [|discriminate].
      intro H; apply Ok_inj in H; subst. apply sorted_In.
Qed.

(** An id in the set of URL assets is the id of a URL row. *)
Lemma url_assets_In (ctt0 : list Ctt.row) (aid : json) :
  In aid (url_assets ctt0) ->
  exists r, In r ctt0 /\ Ctt.content_cms_id r = aid /\ Ctt.text_type_id r = 18%Z.
Proof.
  unfold url_assets.
  assert (forall s, In aid (fold_left (fun s row =>
             if (Ctt.text_type_id row =? 18)%Z && truthy (Ctt.content_cms_id row)
             then sadd (Ctt.content_cms_id row) s else s) ctt0 s) ->
           In aid s \/
           exists r, In r ctt0 /\ Ctt.content_cms_id r = aid /\
                     Ctt.text_type_id r = 18%Z) as G.
  { induction ctt0 as [|row rest IH]; simpl; intros s H; auto.
    apply IH in H. destruct H as [H|(r & Hr & E1 & E2)]; [|eauto 6].
    destruct ((Ctt.text_type_id row =? 18)%Z && truthy (Ctt.content_cms_id row))
      eqn:E; auto.
    apply sadd_In in H. destruct H as [H| ->]; auto.
    apply andb_true_iff in E. destruct E as [E _]. apply Z.eqb_eq in E.
    right. exists row. auto. }
  intro H. apply G in H. destruct H as [[]|H]. exact H.
Qed.

End EnrichRows.

(** What the enrichment pass adds to the text rows: rows of the four kinds
    for ids that have a URL row. *)
Lemma enrich_all_appends (rt : Runtime) (base_url : string) (st : state)
  (es : enrich_state) :
  enrich_all rt base_url st = Ok es ->
  exists new,
    e_ctt es = ctt st ++ new /\
    Forall (fun r => exists aid,
              In aid (url_assets (ctt st)) /\ enrichment_of aid r) new.
Proof.
  unfold enrich_all. intro H. ok_inv H. subst.
  assert (forall l es0,
            (forall a, In a l -> In a (url_assets (ctt st))) ->
            exists new,
              e_ctt (fold_left (fun es1 aid =>
                 _enrich_asset_ctt_rows_for rt aid base_url (asset_ext_hint st)
                   (asset_url_map st) es1) l es0) = e_ctt es0 ++ new /\
              Forall (fun r => exists aid,
                In aid (url_assets (ctt st)) /\ enrichment_of aid r) new) as G.
  { induction l as [|x l IH]; simpl; intros es0 Hl.
    - apply appends_nil.
    - destruct (enrich_appends rt base_url (asset_ext_hint st) (asset_url_map st)
                  x es0) as (n1 & E1 & F1).
      destruct (IH (_enrich_asset_ctt_rows_for rt x base_url (asset_ext_hint st)
                      (asset_url_map st) es0)) as (n2 & E2 & F2); [auto|].
      exists (n1 ++ n2). rewrite E2, E1, <- app_assoc. split; auto.
      apply Forall_app. split; auto.
      eapply Forall_impl; [|exact F1]. simpl. intros r Hr. exists x. auto. }
  apply (G a (mk_enrich (ctt st) [] [])).
  intros y Hy. eapply py_sorted_In; eauto.
Qed.

Lemma dedup_subseq (rows out : list Ctt.row) :
  dedup_ctt rows = Ok out -> subseq out rows.
Proof.
  intro H. unfold dedup_ctt in H.
  rewrite dedup_loop_kept in H by (eapply dedup_loop_hashable; eauto).
  apply Ok_inj in H. subst. apply kept_subseq.
Qed.

(** ** C1: every foreign key resolves *)

Section ForeignKeyPasses.

Variable rt : Runtime.
Variable ix : index.
Variable base_url : string.
Variable items : list json.
Variable I0 : list json.

Hypothesis Hinc :
  forall it name, In it items -> py_get it "name" JNull = Ok name ->
    included ix name = Ok true -> In name I0.

Lemma fk_asset_pass (st st' : state) :
  fk_inv I0 st -> for_each (asset_step rt ix base_url) items st = Ok st' ->
  fk_inv I0 st'.
Proof.
  apply for_each_inv. intros it s s' Hit Hs Hstep.
  apply asset_step_shape in Hstep.
  destruct Hstep as [->|(parent & pdata & Hn & Hi & Hl)]; [assumption|].
  eapply fk_link_assets; eauto.
Qed.

Lemma fk_page_pass (pgs : pydict json) (st st' : state) :
  (forall k, In k (keys pgs) -> In k I0) ->
  fk_inv I0 st -> for_each (page_asset_step rt ix base_url) pgs st = Ok st' ->
  fk_inv I0 st'.
Proof.
  intro Hk. apply for_each_inv. intros pg s s' Hpg Hs Hstep.
  apply page_asset_step_shape in Hstep.
  destruct Hstep as [->|(pdata & Hl)]; [assumption|].
  eapply fk_link_assets; eauto. apply Hk. apply in_map. assumption.
Qed.

Lemma fk_question_pass (ati : pydict string) (st st' : state) :
  fk_inv I0 st -> for_each (question_step rt ix ati) items st = Ok st' ->
  fk_inv I0 st'.
Proof.
  apply for_each_inv. intros it s s' Hit Hs Hstep.
  eapply (@question_step_inv rt ix ati it (fk_inv I0)); [| | |exact Hs|exact Hstep].
  - intros s0 aid _ [Hfk Hi]. destruct (fk_ensure rt aid Hfk) as [F1 F2].
    split; [assumption|]. eapply incl_tran; eauto.
  - intros s0 qid aid lbl idx Hq Hi Hmem _ [Hfk Hi0]. split; [|exact Hi0].
    apply fk_with_ctc; auto. constructor; [|constructor]. simpl. split.
    + apply Hi0. eapply Hinc; eauto.
    + apply Hfk. apply smem_str. assumption.
  - intros s0 qid idx t Hq Hi [Hfk Hi0]. split; [|exact Hi0].
    apply fk_with_ctt; auto. constructor; [|constructor]. simpl.
    apply Hi0. eapply Hinc; eauto.
Qed.

End ForeignKeyPasses.

(** C1.  For every input record list on which the transformation returns,
    every foreign key of the output is the [cms_id] of a row of the output
    content table: [content_cms_id] of every content_to_text and
    content_to_attribute row, [parent_cms_id] and [child_cms_id] of every
    content_to_content row. *)
Theorem foreign_keys_resolve (rt : Runtime) (items : list json)
  (link_lessons_to_assets : bool) (base_url : option string) (t : Tables.t) :
  transform rt items link_lessons_to_assets base_url = Ok t ->
  (forall r, In r (Tables.content_to_text t) ->
     In (Ctt.content_cms_id r) (ids (Tables.content t))) /\
  (forall r, In r (Tables.content_to_attribute t) ->
     In (Cta.content_cms_id r) (ids (Tables.content t))) /\
  (forall e, In e (Tables.content_to_content t) ->
     In (Ctc.parent_cms_id e) (ids (Tables.content t)) /\
     In (Ctc.child_cms_id e) (ids (Tables.content t))).
Proof.
  unfold transform. intro H. monad_inv H.
  apply transform_run_phases in Ha.
  destruct Ha as (base & ix & rg & ctt0 & cta0 & ctc0 & st1 & st2 & st3 & es
                  & deduped & Hb & Hix & Hrg & Htt & Hta & Htc & H1 & H2 & H3
                  & Hes & Hdd & ->).
  cbn [out Tables.content Tables.content_to_text Tables.content_to_content
       Tables.content_to_attribute].
  destruct (build_registry_spec rt ix items Hrg) as [Hreg Hinc].
  pose proof (@text_pass_spec rt ix items _ Hinc _ Htt) as Ftt.
  pose proof (@attr_pass_spec rt ix items _ Hinc _ Hta) as Fta.
  pose proof (@record_edges_spec rt ix rg items Hreg Hinc _ Htc) as Ftc.
  set (I0 := ids (reg_content rg)) in *.
  assert (fk_inv I0 (mk_state (reg_content rg) (reg_content_index rg)
            (reg_known_ids rg) ctt0 ctc0 [] [] [] [])) as F0.
  { split; [|apply incl_refl]. unfold fk_ok; simpl. split; [|split].
    - intros k Hk. apply Hreg. auto.
    - eapply Forall_impl; [|exact Ftt]. intros r [Hr _]. exact Hr.
    - eapply Forall_impl; [|exact Ftc]. intros e (Hp & Hc & _). auto. }
  pose proof (@fk_asset_pass rt ix base items _ Hinc _ _ F0 H1) as F1.
  assert (fk_inv I0 st2) as F2.
  { eapply fk_page_pass; [|exact F1|exact H2].
    intros k Hk. apply Hreg. auto. }
  pose proof (@fk_question_pass rt ix items _ Hinc _ _ _ F2 H3) as [[Fk [Ft Fc]] Fi].
  split; [|split].
  - intros r Hr. apply dedup_subseq in Hdd.
    pose proof (subseq_In Hdd r Hr) as Hr'.
    destruct (enrich_all_appends rt base st3 Hes) as (new & E & Fnew).
    rewrite E in Hr'. apply in_app_or in Hr'. destruct Hr' as [Hr'|Hr'].
    + rewrite Forall_forall in Ft. auto.
    + rewrite Forall_forall in Fnew. destruct (Fnew r Hr') as (aid & Ha & Hc & _).
      apply url_assets_In in Ha. destruct Ha as (r0 & Hr0 & E0 & _).
      rewrite Hc, <- E0. rewrite Forall_forall in Ft. auto.
  - intros r Hr. rewrite Forall_forall in Fta. apply Fi. apply Fta. assumption.
  - intros e He. rewrite Forall_forall in Fc. auto.
Qed.

Lemma foreign_keys_resolve_witness :
  exists t,
    transform offline small_course true (Some "http://cdn.example") = Ok t /\
    (forall r, In r (Tables.content_to_text t) ->
       In (Ctt.content_cms_id r) (ids (Tables.content t))) /\
    (forall r, In r (Tables.content_to_attribute t) ->
       In (Cta.content_cms_id r) (ids (Tables.content t))) /\
    (forall e, In e (Tables.content_to_content t) ->
       In (Ctc.parent_cms_id e) (ids (Tables.content t)) /\
       In (Ctc.child_cms_id e) (ids (Tables.content t))).
Proof.
  eexists. split.
  - vm_compute. reflexivity.
  - apply (foreign_keys_resolve offline small_course true (Some "http://cdn.example")).
    vm_compute. reflexivity.
Defined.

(** ** C9: the URL row of an asset *)

Lemma first_url_snoc (a aid : string) (u : json) (l : list (string * json)) :
  first_url a (l ++ [(aid, u)]) =
  match first_url a l with
  | Some x => Some x
  | None => if aid =? a then Some u else None
  end.
Proof.
  induction l as [|[a0 u0] l IH]; simpl; [reflexivity|].
  destruct (a0 =? a); auto.
Qed.

Lemma last_url_snoc (a aid : string) (u : json) (l : list (string * json)) :
  last_url a (l ++ [(aid, u)]) = if aid =? a then Some u else last_url a l.
Proof.
  unfold last_url. rewrite rev_app_distr. reflexivity.
Qed.

Lemma url_rows_app (aid : string) (l1 l2 : list Ctt.row) :
  url_rows aid (l1 ++ l2) = url_rows aid l1 ++ url_rows aid l2.
Proof. apply filter_app. Qed.

Lemma url_rows_none (aid : string) (l : list Ctt.row) :
  Forall (fun r => Ctt.text_type_id r <> 18%Z) l -> url_rows aid l = [].
Proof.
  induction 1 as [|r l Hr Hl IH]; simpl; auto.
  unfold is_url_row. destruct (Ctt.text_type_id r =? 18)%Z eqn:E.
  - apply Z.eqb_eq in E. contradiction.
  - simpl. exact IH.
Qed.

Section UrlInv.

Variable rt : Runtime.
Variable base : string.

Lemma url_inv_ext (st st' : state) :
  ctt st' = ctt st -> asset_calls st' = asset_calls st ->
  url_row_written st' = url_row_written st ->
  asset_url_map st' = asset_url_map st ->
  url_inv rt base st -> url_inv rt base st'.
Proof.
  unfold url_inv. intros -> -> -> ->. auto.
Qed.

Lemma url_inv_with_ctc (st : state) (c : list Ctc.row) :
  url_inv rt base st -> url_inv rt base (with_ctc st c).
Proof. apply url_inv_ext; reflexivity. Qed.

Lemma url_inv_push_text (st : state) (new : list Ctt.row) :
  Forall (fun r => Ctt.text_type_id r <> 18%Z) new ->
  url_inv rt base st -> url_inv rt base (with_ctt st (ctt st ++ new)).
Proof.
  intros Hnew (H1 & H2 & H3 & H4). unfold url_inv, with_ctt.
  cbn [ctt asset_calls url_row_written asset_url_map].
  repeat split; auto.
  - intro aid. rewrite url_rows_app, (url_rows_none aid Hnew), app_nil_r. auto.
  - intros r Hr E. apply in_app_or in Hr. destruct Hr as [Hr|Hr]; auto.
    rewrite Forall_forall in Hnew. exfalso. exact (Hnew r Hr E).
Qed.

Lemma url_inv_ensure (answer_id : string) (st : state) :
  url_inv rt base st -> url_inv rt base (_ensure_answer_content rt answer_id st).
Proof.
  unfold _ensure_answer_content.
  destruct (negb (answer_id =? "") && negb (smem (JStr answer_id) (known_ids st)));
    intro H; exact H.
Qed.

Lemma url_inv_record_asset (aid : string) (url : json) (role : option Z)
  (st : state) (loc : locals) :
  url_inv rt base st ->
  url_inv rt base (fst (_record_asset rt base aid url role st loc)).
Proof.
  intros (H1 & H2 & H3 & H4).
  unfold url_inv.
  rewrite record_asset_ctt, record_asset_calls, record_asset_written,
    record_asset_url_map.
  pose proof (H3 aid) as Haid.
  repeat split.
  - intro a. rewrite url_rows_app, first_url_snoc, H1.
    destruct (aid =? a) eqn:Ea.
    + apply String.eqb_eq in Ea. subst a.
      destruct (first_url aid (asset_calls st)); rewrite Haid; simpl.
      * reflexivity.
      * unfold is_url_row. simpl. rewrite String.eqb_refl. reflexivity.
    + assert (url_rows a (if str_mem aid (url_row_written st) then []
                else [text_row rt (JStr aid) 0 18
                        (TStr (py_str rt (_normalize_url url (Some base))))]) = [])
        as ->.
      { destruct (str_mem aid (url_row_written st)); simpl; auto.
        unfold is_url_row. simpl. rewrite Ea. reflexivity. }
      rewrite app_nil_r. destruct (first_url a (asset_calls st)); reflexivity.
  - intros r Hr E. apply in_app_or in Hr. destruct Hr as [Hr|Hr]; auto.
    destruct (str_mem aid (url_row_written st)); [contradiction|].
    destruct Hr as [<-|[]]. exists aid. reflexivity.
  - intro a. rewrite first_url_snoc.
    destruct (str_mem aid (url_row_written st)) eqn:Ew.
    + rewrite H3. destruct (first_url a (asset_calls st)) eqn:Ef; auto.
      destruct (aid =? a) eqn:Ea; auto.
      apply String.eqb_eq in Ea. subst a. rewrite Ef in Haid. discriminate.
    + simpl. rewrite H3. rewrite (String.eqb_sym a aid).
      destruct (aid =? a) eqn:Ea; simpl.
      * apply String.eqb_eq in Ea. subst a.
        destruct (first_url aid (asset_calls st)); reflexivity.
      * destruct (first_url a (asset_calls st)); reflexivity.
  - intro a. rewrite last_url_snoc. unfold sset. simpl.
    destruct (aid =? a); auto.
Qed.

Lemma url_inv_link_assets (parent pdata : json) (dflt : list (option Z))
  (st st' : state) :
  url_inv rt base st ->
  link_assets rt base parent pdata dflt st = Ok st' -> url_inv rt base st'.
Proof.
  intros Hinv H. apply link_assets_shape in H. destruct H as (d & -> & ->).
  apply url_inv_with_ctc.
  apply (scan_images_inv rt base (fun sl => url_inv rt base (fst sl))); auto.
  intros. apply url_inv_record_asset. assumption.
Qed.

Lemma url_inv_asset_pass (ix : index) (items : list json) (st st' : state) :
  url_inv rt base st -> for_each (asset_step rt ix base) items st = Ok st' ->
  url_inv rt base st'.
Proof.
  apply for_each_inv. intros it s s' _ Hs Hstep.
  apply asset_step_shape in Hstep.
  destruct Hstep as [->|(parent & pdata & _ & _ & Hl)]; [assumption|].
  eapply url_inv_link_assets; eauto.
Qed.

Lemma url_inv_page_pass (ix : index) (pgs : pydict json) (st st' : state) :
  url_inv rt base st -> for_each (page_asset_step rt ix base) pgs st = Ok st' ->
  url_inv rt base st'.
Proof.
  apply for_each_inv. intros pg s s' _ Hs Hstep.
  apply page_asset_step_shape in Hstep.
  destruct Hstep as [->|(pdata & Hl)]; [assumption|].
  eapply url_inv_link_assets; eauto.
Qed.

Lemma url_inv_question_pass (ix : index) (ati : pydict string)
  (items : list json) (st st' : state) :
  url_inv rt base st -> for_each (question_step rt ix ati) items st = Ok st' ->
  url_inv rt base st'.
Proof.
  apply for_each_inv. intros it s s' _ Hs Hstep.
  eapply (@question_step_inv rt ix ati it (url_inv rt base)); [| | |exact Hs|exact Hstep].
  - intros. apply url_inv_ensure. assumption.
  - intros. apply url_inv_with_ctc. assumption.
  - intros. apply url_inv_push_text; auto.
    constructor; [|constructor]. simpl. discriminate.
Qed.

End UrlInv.

(** Filtering commutes with de-duplication when at most one row passes
    the filter and the filter does not tell rows of one key apart. *)
Lemma filter_nil_subseq (A : Type) (p : A -> bool) (l l' : list A) :
  subseq l' l -> filter p l = [] -> filter p l' = [].
Proof.
  induction 1 as [|x l1 l2 Hs IH|x l1 l2 Hs IH]; simpl; auto.
  - destruct (p x); [discriminate|auto].
  - destruct (p x); [discriminate|auto].
Qed.

Lemma kept_filter (p : Ctt.row -> bool) :
  (forall r r', ctt_key_eqb (key_of r) (key_of r') = true -> p r = p r') ->
  forall rows seen,
    (forall k r, In k seen -> p r = true -> ctt_key_eqb (key_of r) k = false) ->
    (length (filter p rows) <= 1)%nat ->
    filter p (kept seen rows) = filter p rows.
Proof.
  intros Hresp. induction rows as [|row rest IH]; simpl; intros seen Hseen Hlen;
    auto.
  destruct (p row) eqn:Ep.
  - simpl in Hlen.
    assert (filter p rest = []) as Hnil
      by (destruct (filter p rest); [reflexivity|simpl in Hlen; lia]).
    assert (existsb (ctt_key_eqb (key_of row)) seen = false) as ->.
    { destruct (existsb (ctt_key_eqb (key_of row)) seen) eqn:E; auto.
      apply existsb_exists in E. destruct E as (k & Hk & E).
      rewrite (Hseen k row Hk Ep) in E. discriminate. }
    simpl. rewrite Ep, Hnil. f_equal.
    eapply filter_nil_subseq; [apply kept_subseq|assumption].
  - destruct (existsb (ctt_key_eqb (key_of row)) seen) eqn:E.
    + apply IH; auto.
    + simpl. rewrite Ep. apply IH; auto.
      intros k r Hk Hr. apply in_app_or in Hk. destruct Hk as [Hk|[<-|[]]].
      * apply Hseen; auto.
      * destruct (ctt_key_eqb (key_of r) (key_of row)) eqn:E'; auto.
        rewrite (Hresp r row E') in Hr. congruence.
Qed.

Lemma is_url_row_respects (aid : string) (r r' : Ctt.row) :
  ctt_key_eqb (key_of r) (key_of r') = true -> is_url_row aid r = is_url_row aid r'.
Proof.
  intro H. apply ctt_key_eqb_iff in H. unfold key_of in H. cbn [fst snd] in H.
  destruct H as (Hc & _ & Ht & _). unfold is_url_row. rewrite Ht. f_equal.
  destruct (Ctt.content_cms_id r') eqn:E';
    try (destruct (Ctt.content_cms_id r) as [|[]| | | |]; unfold key_eqb in Hc;
         cbn in Hc; congruence).
  apply key_eqb_str in Hc. rewrite Hc. reflexivity.
Qed.

Lemma dedup_url_rows (aid : string) (rows out : list Ctt.row) :
  dedup_ctt rows = Ok out -> (length (url_rows aid rows) <= 1)%nat ->
  url_rows aid out = url_rows aid rows.
Proof.
  intros H Hlen. unfold dedup_ctt in H.
  rewrite dedup_loop_kept in H by (eapply dedup_loop_hashable; eauto).
  apply Ok_inj in H. subst. unfold url_rows.
  apply kept_filter; auto.
  - apply is_url_row_respects.
  - intros k r [].
Qed.

(** C9.  In a run that returns, with [base] the base URL it resolved: for
    every asset id the output holds at most one URL row (text kind 18); it
    holds one exactly when [_record_asset] was called for the id, and the
    value of the row is the normalization of the URL of the first such
    call, whatever URLs later calls brought.  URL rows exist for asset ids
    only.  The URL map, which the Enricher reads for its namespace check,
    holds the normalization of the URL of the last call. *)
Theorem url_row_from_first_url (rt : Runtime) (items : list json)
  (base_url : option string) (r : run) :
  transform_run rt items base_url = Ok r ->
  exists base,
    resolve_base rt items base_url = Ok base /\
    (forall aid,
       (length (url_rows aid (Tables.content_to_text (out r))) <= 1)%nat /\
       url_rows aid (Tables.content_to_text (out r)) =
       match first_url aid (asset_calls (run_state r)) with
       | Some u => [url_row_of rt base aid u]
       | None => []
       end) /\
    (forall row, In row (Tables.content_to_text (out r)) ->
       Ctt.text_type_id row = 18%Z ->
       exists aid, Ctt.content_cms_id row = JStr aid) /\
    (forall aid,
       lookup aid (asset_url_map (run_state r)) =
       match last_url aid (asset_calls (run_state r)) with
       | Some u => Some (py_str rt (_normalize_url u (Some base)))
       | None => None
       end).
Proof.
  intro H. apply transform_run_phases in H.
  destruct H as (base & ix & rg & ctt0 & cta0 & ctc0 & st1 & st2 & st3 & es
                 & deduped & Hb & Hix & Hrg & Htt & Hta & Htc & H1 & H2 & H3
                 & Hes & Hdd & ->).
  exists base. split; [exact Hb|].
  cbn [out run_state Tables.content_to_text].
  destruct (build_registry_spec rt ix items Hrg) as [Hreg Hinc].
  pose proof (@text_pass_spec rt ix items _ Hinc _ Htt) as Ftt.
  assert (Forall (fun r => Ctt.text_type_id r <> 18%Z) ctt0) as Fno.
  { eapply Forall_impl; [|exact Ftt]. intros r [_ Hr]. exact Hr. }
  assert (url_inv rt base (mk_state (reg_content rg) (reg_content_index rg)
            (reg_known_ids rg) ctt0 ctc0 [] [] [] [])) as U0.
  { unfold url_inv. cbn [ctt asset_calls url_row_written asset_url_map].
    repeat split; auto.
    - intro aid. apply url_rows_none. assumption.
    - intros r Hr E. rewrite Forall_forall in Fno. exfalso. exact (Fno r Hr E). }
  pose proof (@url_inv_asset_pass rt base ix items _ _ U0 H1) as U1.
  pose proof (@url_inv_page_pass rt base ix (pages rg) _ _ U1 H2) as U2.
  pose proof (@url_inv_question_pass rt base ix _ items _ _ U2 H3) as (V1 & V2 & V3 & V4).
  destruct (@enrich_all_appends rt base st3 es Hes) as (new & E & Fnew).
  assert (Forall (fun r => Ctt.text_type_id r <> 18%Z) new) as Fnew'.
  { eapply Forall_impl; [|exact Fnew]. intros r (aid & _ & _ & Hk) E18.
    rewrite E18 in Hk. cbn in Hk. intuition discriminate. }
  assert (forall aid, url_rows aid (e_ctt es) = url_rows aid (ctt st3)) as Eu.
  { intro aid. rewrite E, url_rows_app, (url_rows_none aid Fnew'), app_nil_r.
    reflexivity. }
  assert (forall aid, (length (url_rows aid (e_ctt es)) <= 1)%nat) as Hlen.
  { intro aid. rewrite Eu, V1.
    destruct (first_url aid (asset_calls st3)); simpl; lia. }
  split; [|split].
  - intro aid. rewrite (@dedup_url_rows aid _ _ Hdd (Hlen aid)).
    split; [apply Hlen|]. rewrite Eu. apply V1.
  - intros row Hrow E18. apply dedup_subseq in Hdd.
    pose proof (subseq_In Hdd row Hrow) as Hrow'.
    rewrite E in Hrow'. apply in_app_or in Hrow'. destruct Hrow' as [Hr|Hr]; auto.
    rewrite Forall_forall in Fnew'. exfalso. exact (Fnew' row Hr E18).
  - exact V4.
Qed.

Lemma url_row_from_first_url_witness :
  exists r,
    transform_run offline same_id_two_urls (Some "https://cdn.example") = Ok r /\
    exists base,
      resolve_base offline same_id_two_urls (Some "https://cdn.example") = Ok base /\
      (forall aid,
         (length (url_rows aid (Tables.content_to_text (out r))) <= 1)%nat /\
         url_rows aid (Tables.content_to_text (out r)) =
         match first_url aid (asset_calls (run_state r)) with
         | Some u => [url_row_of offline base aid u]
         | None => []
         end) /\
      (forall row, In row (Tables.content_to_text (out r)) ->
         Ctt.text_type_id row = 18%Z ->
         exists aid, Ctt.content_cms_id row = JStr aid) /\
      (forall aid,
         lookup aid (asset_url_map (run_state r)) =
         match last_url aid (asset_calls (run_state r)) with
         | Some u => Some (py_str offline (_normalize_url u (Some base)))
         | None => None
         end).
Proof.
  eexists. split.
  - vm_compute. reflexivity.
  - apply (url_row_from_first_url offline same_id_two_urls (Some "https://cdn.example")).
    vm_compute. reflexivity.
Defined.

(** ** C6: the Enricher *)

Lemma NoDup_snoc (A : Type) (l : list A) (a : A) :
  NoDup l -> ~ In a l -> NoDup (l ++ [a]).
Proof.
  induction 1 as [|x l Hx Hl IH]; simpl; intro Ha.
  - constructor; [intros []|constructor].
  - constructor.
    + intro Hc. apply in_app_or in Hc. destruct Hc as [Hc|[Hc|[]]]; auto.
    + apply IH. auto.
Qed.

Section Enricher.

Variable rt : Runtime.
Variable base_url : string.
Variable hints : list (string * string).
Variable url_map : list (string * string).

Lemma fetch_fails_None (asset_id : string) (base : option string)
  (ext : option string) :
  fetch_fails rt -> fetch_asset_metadata rt asset_id base ext = None.
Proof.
  intro Hf. unfold fetch_asset_metadata. destruct ext as [e|]; auto.
  destruct ((asset_id =? "") || (e =? "")); auto.
  specialize (Hf (metadata_url rt asset_id base e)).
  destruct (http_get rt (metadata_url rt asset_id base e)); auto.
  rewrite Hf. reflexivity.
Qed.

Lemma mem_Z_existing (aid : json) (rows : list Ctt.row) (t : Z) :
  mem_Z t (existing_types aid rows) = true <->
  exists row, In row rows /\
    key_eqb (Ctt.content_cms_id row) aid = true /\ Ctt.text_type_id row = t.
Proof.
  unfold mem_Z, existing_types. rewrite existsb_exists. split.
  - intros (x & Hx & E). apply Z.eqb_eq in E. subst x.
    apply in_map_iff in Hx. destruct Hx as (row & Ht & Hr).
    apply filter_In in Hr. destruct Hr as [Hr Hk]. eauto.
  - intros (row & Hr & Hk & Ht). exists t. split; [|apply Z.eqb_refl].
    apply in_map_iff. exists row. split; auto. apply filter_In. auto.
Qed.

Lemma enrich_skips_complete (aid : json) (es : enrich_state) :
  fully_enriched aid (e_ctt es) ->
  _enrich_asset_ctt_rows_for rt aid base_url hints url_map es = es.
Proof.
  intro Hfull. unfold _enrich_asset_ctt_rows_for.
  destruct (negb (truthy aid)); auto.
  assert (forall t, In t [1; 19; 20; 21]%Z ->
            mem_Z t (existing_types aid (e_ctt es)) = true) as Hm.
  { intros t Ht. apply mem_Z_existing. apply Hfull. assumption. }
  rewrite (Hm 1%Z), (Hm 19%Z), (Hm 20%Z), (Hm 21%Z) by (cbn; tauto).
  reflexivity.
Qed.

(** The namespace test fails on an id that is not a string: it has no
    URL. *)
Lemma should_fetch_str (aid : json) :
  contains "/content/dam/teladoc-headless/image/"
    (from_option "" (str_lookup aid url_map)) = true ->
  exists a, aid = JStr a.
Proof.
  destruct aid; cbn [str_lookup from_option]; try (intro H; discriminate H).
  eauto.
Qed.

Lemma enrich_fetch_inv (aid : json) (es : enrich_state) :
  fetch_inv es ->
  fetch_inv (_enrich_asset_ctt_rows_for rt aid base_url hints url_map es).
Proof.
  intros [Hnd Hin]. unfold _enrich_asset_ctt_rows_for.
  destruct (negb (truthy aid)); [split; assumption|].
  destruct (mem_Z 1 _ && mem_Z 19 _ && mem_Z 20 _ && mem_Z 21 _);
    [split; assumption|].
  unfold fetch_inv. cbn [fetch_log asset_meta_cache].
  destruct (contains "/content/dam/teladoc-headless/image/"
              (from_option "" (str_lookup aid url_map))) eqn:Es;
    cbn [andb]; [|split; assumption].
  destruct (negb (_ =? "")); [|split; assumption].
  destruct (should_fetch_str aid Es) as (a & ->).
  cbn [str_lookup py_str].
  destruct (lookup a (asset_meta_cache es)) eqn:El; cbn [fst snd];
    [split; assumption|].
  split.
  - apply NoDup_snoc; auto. intro Hc. apply Hin in Hc. congruence.
  - intros x Hx. apply in_app_or in Hx. unfold sset. simpl.
    destruct (a =? x) eqn:E; [discriminate|].
    destruct Hx as [Hx|[Hx|[]]]; [apply Hin; assumption|].
    subst x. rewrite String.eqb_refl in E. discriminate.
Qed.

End Enricher.

Lemma enrich_all_inv (rt : Runtime) (base_url : string) (st : state)
  (P : enrich_state -> Prop) (es : enrich_state) :
  (forall aid s, P s ->
     P (_enrich_asset_ctt_rows_for rt aid base_url (asset_ext_hint st)
          (asset_url_map st) s)) ->
  P (mk_enrich (ctt st) [] []) ->
  enrich_all rt base_url st = Ok es -> P es.
Proof.
  intros Hstep H0 H. unfold enrich_all in H. monad_inv H.
  apply fold_left_inv; auto.
Qed.

Section EnricherFailure.

Variable rt : Runtime.
Variable base_url : string.
Variable hints : list (string * string).
Variable url_map : list (string * string).

Hypothesis Hfail : fetch_fails rt.

(** No lookup has ever succeeded. *)
Definition memo_empty (es : enrich_state) : Prop :=
  forall a m, lookup a (asset_meta_cache es) = Some m -> m = None.

Lemma enrich_failure (aid : json) (es : enrich_state) :
  memo_empty es ->
  memo_empty (_enrich_asset_ctt_rows_for rt aid base_url hints url_map es) /\
  exists new,
    e_ctt (_enrich_asset_ctt_rows_for rt aid base_url hints url_map es)
      = e_ctt es ++ new /\
    Forall (placeholder rt) new /\
    (truthy aid = true -> existing_types aid (e_ctt es) = [] ->
     new = [ enrich_row rt aid 1 (TStr (py_str rt aid));
             enrich_row rt aid 19 (TInt 0);
             enrich_row rt aid 20 (TInt 0);
             enrich_row rt aid 21 (TStr "image/jpeg") ]).
Proof.
  intro Hm. unfold _enrich_asset_ctt_rows_for.
  destruct (truthy aid) eqn:Et; cbn [negb].
  2:{ split; [assumption|]. exists []. rewrite app_nil_r.
      repeat split; auto. discriminate. }
  set (ex := existing_types aid (e_ctt es)).
  destruct (mem_Z 1 ex && mem_Z 19 ex && mem_Z 20 ex && mem_Z 21 ex) eqn:Eall.
  { split; [assumption|]. exists []. rewrite app_nil_r.
    repeat split; auto. intros _ Hex. subst ex. rewrite Hex in Eall.
    discriminate. }
  set (looked_up := if _ && _ then _ else _).
  assert (fst (fst looked_up) = None /\
          (forall a m, lookup a (snd (fst looked_up)) = Some m -> m = None))
    as [Hmeta Hcache].
  { unfold looked_up.
    destruct (contains "/content/dam/teladoc-headless/image/"
                (from_option "" (str_lookup aid url_map)) && negb (_ =? ""));
      [|split; auto].
    destruct (str_lookup aid (asset_meta_cache es)) as [m|] eqn:El; cbn [fst snd].
    - split; [|exact Hm]. destruct aid; cbn [str_lookup] in El; try discriminate.
      eapply Hm; eauto.
    - rewrite fetch_fails_None by assumption. split; auto.
      intros a m. unfold sset. cbn [lookup].
      destruct (py_str rt aid =? a); [intro H; inversion H; reflexivity|].
      apply Hm. }
  cbn [asset_meta_cache e_ctt]. split; [exact Hcache|].
  rewrite Hmeta.
  eexists. split; [|split].
  - instantiate (1 :=
      (if mem_Z 1 ex then [] else [enrich_row rt aid 1 (TStr (py_str rt aid))]) ++
      (if mem_Z 19 ex then [] else [enrich_row rt aid 19 (TInt 0)]) ++
      (if mem_Z 20 ex then [] else [enrich_row rt aid 20 (TInt 0)]) ++
      (if mem_Z 21 ex then [] else [enrich_row rt aid 21 (TStr "image/jpeg")])).
    destruct (mem_Z 1 ex), (mem_Z 19 ex), (mem_Z 20 ex), (mem_Z 21 ex);
      cbn [app]; repeat rewrite <- app_assoc; cbn [app];
      rewrite ?app_nil_r; reflexivity.
  - destruct (mem_Z 1 ex), (mem_Z 19 ex), (mem_Z 20 ex), (mem_Z 21 ex);
      cbn [app];
      repeat (apply Forall_cons;
              [first [ left; split; reflexivity
                     | right; left; split; reflexivity
                     | right; right; left; split; reflexivity
                     | right; right; right; split; reflexivity ]|]);
      apply Forall_nil.
  - intros _ Hex. subst ex. rewrite Hex. reflexivity.
Qed.

End EnricherFailure.

(** *** What the Enricher writes *)

Section EnricherRows.

Variable rt : Runtime.
Variable base_url : string.
Variable hints : list (string * string).
Variable url_map : list (string * string).

(** After its step an id has all four enrichment kinds, whatever the
    lookup gave. *)
Lemma enrich_full (aid : json) (es : enrich_state) :
  truthy aid = true -> hashable aid = true ->
  fully_enriched aid
    (e_ctt (_enrich_asset_ctt_rows_for rt aid base_url hints url_map es)).
Proof.
  intros Et Hh. unfold _enrich_asset_ctt_rows_for. rewrite Et. cbn [negb].
  set (ex := existing_types aid (e_ctt es)).
  assert (forall t, mem_Z t ex = true ->
            exists row, In row (e_ctt es) /\
              key_eqb (Ctt.content_cms_id row) aid = true /\
              Ctt.text_type_id row = t) as Hold.
  { intros t Ht. apply mem_Z_existing. exact Ht. }
  destruct (mem_Z 1 ex && mem_Z 19 ex && mem_Z 20 ex && mem_Z 21 ex) eqn:Eall.
  { apply andb_true_iff in Eall. destruct Eall as [Eall E21].
    apply andb_true_iff in Eall. destruct Eall as [Eall E20].
    apply andb_true_iff in Eall. destruct Eall as [E1 E19].
    intros t Ht. cbn in Ht.
    destruct Ht as [<-|[<-|[<-|[<-|[]]]]]; apply Hold; assumption. }
  cbn [e_ctt]. intros t Ht.
  assert (key_eqb aid aid = true) as Hk by (apply key_eqb_refl; assumption).
  cbn in Ht.
  destruct Ht as [<-|[<-|[<-|[<-|[]]]]];
    match goal with
    | |- exists row, _ /\ _ /\ _ = ?k =>
        destruct (mem_Z k ex) eqn:Ek;
        [ destruct (Hold k Ek) as (row & Hin & Hkey & Hty);
          exists row; split; [|auto]
        | match goal with
          | |- context [enrich_row rt aid k ?v] =>
              exists (enrich_row rt aid k v);
              split; [|split; [exact Hk|reflexivity]]
          end ]
    end;
    repeat match goal with
           | |- context [if mem_Z ?j ex then _ else _] => destruct (mem_Z j ex)
           end;
    rewrite ?in_app_iff; cbn [In]; auto 10.
Qed.

Lemma fully_enriched_app (aid : json) (rows new : list Ctt.row) :
  fully_enriched aid rows -> fully_enriched aid (rows ++ new).
Proof.
  intros H t Ht. destruct (H t Ht) as (row & Hin & Hk).
  exists row. split; [apply in_or_app; auto|assumption].
Qed.

Lemma enrich_keeps_full (a aid : json) (es : enrich_state) :
  fully_enriched a (e_ctt es) ->
  fully_enriched a
    (e_ctt (_enrich_asset_ctt_rows_for rt aid base_url hints url_map es)).
Proof.
  intro H.
  destruct (@enrich_appends rt base_url hints url_map aid es) as (new & E & _).
  rewrite E. apply fully_enriched_app. assumption.
Qed.

(** After the loop every id of the list has its four kinds. *)
Lemma enrich_loop_full (aids : list json) :
  (forall a, In a aids -> truthy a = true /\ hashable a = true) ->
  forall es a, In a aids ->
    fully_enriched a
      (e_ctt (fold_left (fun es aid =>
                _enrich_asset_ctt_rows_for rt aid base_url hints url_map es)
                aids es)).
Proof.
  induction aids as [|x aids IH]; intros Hok es a Hin; [destruct Hin|].
  cbn [fold_left]. destruct Hin as [->|Hin].
  - apply (@fold_left_inv _ _
             (fun s : enrich_state => fully_enriched a (e_ctt s))).
    + intros y s _ Hs. apply enrich_keeps_full. assumption.
    + destruct (Hok a (or_introl eq_refl)). apply enrich_full; assumption.
  - apply IH; [|assumption]. intros b Hb. apply Hok. right. assumption.
Qed.

End EnricherRows.

Lemma insert_sorted_complete (A : Type) (leb : A -> A -> bool) (x y : A)
  (l : list A) :
  y = x \/ In y l -> In y (insert_sorted leb x l).
Proof.
  induction l as [|z l IH]; cbn [insert_sorted].
  - intros [->|[]]. left. reflexivity.
  - destruct (leb x z).
    + intros [->|H]; [left; reflexivity|right; assumption].
    + intros [->|[->|H]]; [right; apply IH; auto|left; reflexivity|].
      right. apply IH. auto.
Qed.

Lemma py_sorted_complete (rt : Runtime) (s : pyset) (l : list json) (y : json) :
  py_sorted rt s = Ok l -> In y s -> In y l.
Proof.
  assert (forall leb (l0 : list json), In y l0 ->
            In y (fold_right (insert_sorted leb) [] l0)) as G.
  { intros leb l0. induction l0 as [|z l0 IH]; [intros []|].
    intros [->|H]; cbn [fold_right]; apply insert_sorted_complete; auto. }
  unfold py_sorted. destruct s as [|a [|b s']].
  - intros _ [].
  - intro H. apply Ok_inj in H. subst. auto.
  - destruct (all_some as_str _).
    + intro H. apply Ok_inj in H. subst. apply G.
    + destruct (all_some as_num _); [|discriminate].
      intro H. apply Ok_inj in H. subst. apply G.
Qed.

Lemma url_assets_truthy (rows : list Ctt.row) (a : json) :
  In a (url_assets rows) -> truthy a = true.
Proof.
  unfold url_assets.
  apply (@fold_left_inv _ _ (fun s : pyset => In a s -> truthy a = true)).
  - intros row s _ Hs.
    destruct ((Ctt.text_type_id row =? 18)%Z) ; cbn [andb]; [|assumption].
    destruct (truthy (Ctt.content_cms_id row)) eqn:Et; [|assumption].
    intro Hin. apply sadd_In in Hin. destruct Hin as [Hin| ->]; auto.
  - intros [].
Qed.

(** Every row has a row of the same key among those kept. *)
Lemma kept_covers (rows : list Ctt.row) (r : Ctt.row) :
  (forall x, In x rows -> hashable (Ctt.content_cms_id x) = true) ->
  In r rows ->
  exists r', In r' (kept [] rows) /\ same_key r r' = true.
Proof.
  intros Hh Hin.
  pose proof (@seen_after rows Hh [] (key_of r)) as E. cbn [app] in E.
  assert (existsb (ctt_key_eqb (key_of r)) (map key_of rows) = true) as Hr.
  { apply existsb_exists. exists (key_of r). split; [apply in_map; assumption|].
    apply ctt_key_eqb_refl. apply Hh. assumption. }
  rewrite <- E in Hr. apply existsb_exists in Hr.
  destruct Hr as (k & Hk & Heq). apply in_map_iff in Hk.
  destruct Hk as (r' & <- & Hr'). exists r'. split; assumption.
Qed.

Lemma dedup_keeps_full (aid : json) (rows out : list Ctt.row) :
  dedup_ctt rows = Ok out -> fully_enriched aid rows -> fully_enriched aid out.
Proof.
  intros H Hf. unfold dedup_ctt in H.
  assert (forall x, In x rows -> hashable (Ctt.content_cms_id x) = true) as Hh
    by (eapply dedup_loop_hashable; eauto).
  rewrite dedup_loop_kept in H by assumption.
  apply Ok_inj in H. cbn [app] in H. subst out.
  intros t Ht. destruct (Hf t Ht) as (row & Hin & Hk & Hty).
  destruct (@kept_covers rows row Hh Hin) as (r' & Hr' & Hs).
  unfold same_key in Hs. apply ctt_key_eqb_iff in Hs.
  unfold key_of in Hs. cbn [fst snd] in Hs.
  destruct Hs as (H1 & _ & H3 & _).
  exists r'. split; [assumption|]. split; [|congruence].
  apply key_eqb_trans with (b := Ctt.content_cms_id row); [|assumption].
  rewrite key_eqb_sym. assumption.
Qed.

(** In a run that returns, every asset id with a URL row ends with its
    four kinds, before and after the de-duplication. *)
Lemma run_fully_enriched (rt : Runtime) (items : list json)
  (base_url : option string) (r : run) (aid : json) :
  transform_run rt items base_url = Ok r ->
  In aid (url_assets (ctt (run_state r))) ->
  fully_enriched aid (e_ctt (run_enrich r)) /\
  fully_enriched aid (Tables.content_to_text (out r)).
Proof.
  intros H Hin. apply transform_run_phases in H.
  destruct H as (base & ix & rg & ctt0 & cta0 & ctc0 & st1 & st2 & st3 & es
                 & deduped & _ & _ & _ & _ & _ & _ & _ & _ & _ & Hes & Hdd & ->).
  cbn [run_enrich run_state out Tables.content_to_text] in *.
  assert (fully_enriched aid (e_ctt es)) as Hf.
  { destruct (enrich_all_appends rt base st3 Hes) as (new & E & _).
    assert (forall x, In x (e_ctt es) -> hashable (Ctt.content_cms_id x) = true)
      as Hh by (unfold dedup_ctt in Hdd; eapply dedup_loop_hashable; eauto).
    unfold enrich_all in Hes. monad_inv Hes.
    apply enrich_loop_full.
    - intros b Hb. apply (py_sorted_In rt _ _ Ha) in Hb.
      split; [eapply url_assets_truthy; eauto|].
      apply url_assets_In in Hb. destruct Hb as (row & Hrow & <- & _).
      apply Hh. rewrite E. apply in_or_app. auto.
    - eapply py_sorted_complete; eauto. }
  split; [exact Hf|]. eapply dedup_keeps_full; eauto.
Qed.

Section EnricherFallback.

Variable rt : Runtime.
Variable base_url : string.
Variable hints : list (string * string).
Variable url_map : list (string * string).

Hypothesis Hfail : fetch_fails rt.

(** With every request failing, the Enricher appends the fallback rows of
    the kinds that are missing. *)
Lemma enrich_failure_exact (aid : json) (es : enrich_state) :
  truthy aid = true -> memo_empty es ->
  e_ctt (_enrich_asset_ctt_rows_for rt aid base_url hints url_map es) =
  e_ctt es ++
  kinds_missing (existing_types aid (e_ctt es)) (placeholder_rows rt aid).
Proof.
  intros Et Hm. unfold _enrich_asset_ctt_rows_for. rewrite Et. cbn [negb].
  unfold kinds_missing, placeholder_rows.
  cbn [filter enrich_row Ctt.text_type_id].
  set (ex := existing_types aid (e_ctt es)).
  destruct (mem_Z 1 ex && mem_Z 19 ex && mem_Z 20 ex && mem_Z 21 ex) eqn:Eall.
  { apply andb_true_iff in Eall. destruct Eall as [Eall E21].
    apply andb_true_iff in Eall. destruct Eall as [Eall E20].
    apply andb_true_iff in Eall. destruct Eall as [E1 E19].
    rewrite E1, E19, E20, E21. cbn [negb]. rewrite app_nil_r. reflexivity. }
  set (looked_up := if _ && _ then _ else _).
  assert (fst (fst looked_up) = None) as Hmeta.
  { unfold looked_up.
    destruct (contains "/content/dam/teladoc-headless/image/"
                (from_option "" (str_lookup aid url_map)) && negb (_ =? ""));
      [|reflexivity].
    destruct (str_lookup aid (asset_meta_cache es)) as [m|] eqn:El; cbn [fst snd].
    - destruct aid; cbn [str_lookup] in El; try discriminate.
      eapply Hm; eauto.
    - apply fetch_fails_None. assumption. }
  cbn [e_ctt]. rewrite Hmeta.
  destruct (mem_Z 1 ex), (mem_Z 19 ex), (mem_Z 20 ex), (mem_Z 21 ex);
    cbn [negb app]; repeat rewrite <- app_assoc; cbn [app];
    rewrite ?app_nil_r; reflexivity.
Qed.

End EnricherFallback.

(** C6.  In a run that returns, no asset id is looked up twice (each entry
    of the history [fetch_log] is one call of [fetch_asset_metadata]).  If
    the four enrichment kinds (title 1, width 19, height 20, mime type 21)
    already exist for an id, the Enricher leaves rows, memo and history as
    they are.  When every metadata request fails, the Enricher still
    returns and writes the fallback values: for every kind the id lacks it
    appends the row title = the id, width = 0, height = 0, mime type =
    image/jpeg, and nothing else; in a whole run every row the enrichment
    pass adds carries the fallback value of its kind, and every asset id
    with a URL row ends with all four kinds, before and after the
    de-duplication. *)
Theorem enricher_once_idempotent_degrading (rt : Runtime) :
  (forall items base_url r,
     transform_run rt items base_url = Ok r ->
     NoDup (fetch_log (run_enrich r))) /\
  (forall aid base hints url_map es,
     fully_enriched aid (e_ctt es) ->
     _enrich_asset_ctt_rows_for rt aid base hints url_map es = es) /\
  (fetch_fails rt ->
     (forall aid base hints url_map es,
        truthy aid = true -> memo_empty es ->
        e_ctt (_enrich_asset_ctt_rows_for rt aid base hints url_map es) =
        e_ctt es ++
        kinds_missing (existing_types aid (e_ctt es)) (placeholder_rows rt aid)) /\
     (forall items base_url r,
        transform_run rt items base_url = Ok r ->
        (exists new,
           e_ctt (run_enrich r) = ctt (run_state r) ++ new /\
           Forall (placeholder rt) new) /\
        (forall aid, In aid (url_assets (ctt (run_state r))) ->
           fully_enriched aid (e_ctt (run_enrich r)) /\
           fully_enriched aid (Tables.content_to_text (out r))))).
Proof.
  split; [|split].
  - intros items base_url r H. apply transform_run_phases in H.
    destruct H as (base & ix & rg & ctt0 & cta0 & ctc0 & st1 & st2 & st3 & es
                   & deduped & _ & _ & _ & _ & _ & _ & _ & _ & _ & Hes & _ & ->).
    cbn [run_enrich].
    refine (proj1 (@enrich_all_inv rt base st3 fetch_inv es _ _ Hes)).
    + intros. apply enrich_fetch_inv. assumption.
    + split; [constructor|intros ? []].
  - intros. apply enrich_skips_complete. assumption.
  - intro Hfail. split.
    + intros aid base hints url_map es Ht Hm.
      apply enrich_failure_exact; assumption.
    + intros items base_url r H. split.
      2:{ intros aid Hin. eapply run_fully_enriched; eauto. }
      apply transform_run_phases in H.
      destruct H as (base & ix & rg & ctt0 & cta0 & ctc0 & st1 & st2 & st3 & es
                     & deduped & _ & _ & _ & _ & _ & _ & _ & _ & _ & Hes & _ & ->).
      cbn [run_enrich run_state].
      refine (proj2 (@enrich_all_inv rt base st3
                (fun s => memo_empty s /\
                   exists new, e_ctt s = ctt st3 ++ new /\
                               Forall (placeholder rt) new) es _ _ Hes)).
      * intros aid s (Hm & n1 & E1 & F1).
        destruct (@enrich_failure rt base (asset_ext_hint st3)
                    (asset_url_map st3) Hfail aid s Hm)
          as (Hm' & n2 & E2 & F2 & _).
        split; [assumption|]. exists (n1 ++ n2).
        rewrite E2, E1, <- app_assoc. split; auto. apply Forall_app. auto.
      * split; [intros a m Hl; discriminate Hl|].
        exists []. cbn [e_ctt]. rewrite app_nil_r. auto.
Qed.

Lemma offline_fetch_fails : fetch_fails offline.
Proof. intro url. exact I. Qed.

Lemma enricher_once_idempotent_degrading_witness :
  (exists r,
     transform_run offline lesson_dam_image (Some "https://cdn.example") = Ok r /\
     fetch_log (run_enrich r) = ["pic"] /\
     NoDup (fetch_log (run_enrich r)) /\
     (exists new,
        e_ctt (run_enrich r) = ctt (run_state r) ++ new /\
        Forall (placeholder offline) new) /\
     In (JStr "pic") (url_assets (ctt (run_state r))) /\
     fully_enriched (JStr "pic") (e_ctt (run_enrich r)) /\
     fully_enriched (JStr "pic") (Tables.content_to_text (out r))) /\
  (fully_enriched (JStr "pic") pic_enriched_rows /\
   _enrich_asset_ctt_rows_for offline (JStr "pic") "https://cdn.example" [] []
     (mk_enrich pic_enriched_rows [] []) = mk_enrich pic_enriched_rows [] []) /\
  (truthy (JStr "pic") = true /\
   memo_empty
     (mk_enrich
        [url_row_of offline "https://cdn.example" "pic"
           (JStr "/content/dam/teladoc-headless/image/pic.png")] [] []) /\
   fetch_log
     (_enrich_asset_ctt_rows_for offline (JStr "pic") "https://cdn.example"
        [("pic", "png")]
        [("pic", "https://cdn.example/content/dam/teladoc-headless/image/pic.png")]
        (mk_enrich
           [url_row_of offline "https://cdn.example" "pic"
              (JStr "/content/dam/teladoc-headless/image/pic.png")] [] []))
     = ["pic"] /\
   e_ctt
     (_enrich_asset_ctt_rows_for offline (JStr "pic") "https://cdn.example"
        [("pic", "png")]
        [("pic", "https://cdn.example/content/dam/teladoc-headless/image/pic.png")]
        (mk_enrich
           [url_row_of offline "https://cdn.example" "pic"
              (JStr "/content/dam/teladoc-headless/image/pic.png")] [] [])) =
   [ url_row_of offline "https://cdn.example" "pic"
       (JStr "/content/dam/teladoc-headless/image/pic.png");
     enrich_row offline (JStr "pic") 1 (TStr "pic");
     enrich_row offline (JStr "pic") 19 (TInt 0);
     enrich_row offline (JStr "pic") 20 (TInt 0);
     enrich_row offline (JStr "pic") 21 (TStr "image/jpeg") ]).
Proof.
  destruct (enricher_once_idempotent_degrading offline) as (H1 & H2 & H3).
  destruct (H3 offline_fetch_fails) as (H4 & H5).
  split; [|split].
  - eexists. split; [vm_compute; reflexivity|].
    match goal with
    | |- fetch_log (run_enrich ?R) = _ /\ _ =>
        assert (transform_run offline lesson_dam_image
                  (Some "https://cdn.example") = Ok R) as Hrun
          by (vm_compute; reflexivity)
    end.
    destruct (H5 _ _ _ Hrun) as [Hnew Hfull].
    split; [vm_compute; reflexivity|].
    split; [exact (H1 _ _ _ Hrun)|].
    split; [exact Hnew|].
    match goal with
    | |- ?A /\ _ => assert A as Hin by (vm_compute; left; reflexivity)
    end.
    split; [exact Hin|]. apply Hfull. exact Hin.
  - assert (fully_enriched (JStr "pic") pic_enriched_rows) as Hf.
    { intros t Ht. cbn in Ht.
      destruct Ht as [<-|[<-|[<-|[<-|[]]]]];
        [ exists (Ctt.mk (JStr "pic") "" "" None 1 0 1 (TStr "A picture"))
        | exists (Ctt.mk (JStr "pic") "" "" None 1 0 19 (TInt 640))
        | exists (Ctt.mk (JStr "pic") "" "" None 1 0 20 (TInt 480))
        | exists (Ctt.mk (JStr "pic") "" "" None 1 0 21 (TStr "image/png")) ];
        (split; [cbn; auto 10|split; reflexivity]). }
    split; [exact Hf|]. apply H2. exact Hf.
  - assert (memo_empty
              (mk_enrich
                 [url_row_of offline "https://cdn.example" "pic"
                    (JStr "/content/dam/teladoc-headless/image/pic.png")] [] []))
      as Hm by (intros a m Hl; discriminate Hl).
    split; [reflexivity|]. split; [exact Hm|].
    split; [vm_compute; reflexivity|].
    rewrite (H4 (JStr "pic") "https://cdn.example" [("pic", "png")]
               [("pic", "https://cdn.example/content/dam/teladoc-headless/image/pic.png")]
               _ eq_refl Hm).
    vm_compute. reflexivity.
Defined.

(** ** C5: the index of an edge *)

Lemma insert_role_In (r x : option Z) (l : list (option Z)) :
  In x (insert_role r l) -> x = r \/ In x l.
Proof.
  induction l as [|y l IH]; simpl.
  - intros [<-|[]]; auto.
  - destruct (role_priority y <? role_priority r)%Z; simpl.
    + intros [<-|[<-|H]]; auto.
    + intros [<-|H]; auto. destruct (IH H); auto.
Qed.

Lemma sort_roles_In (x : option Z) (l : list (option Z)) :
  In x (sort_roles l) -> In x l.
Proof.
  unfold sort_roles.
  assert (forall acc, In x (fold_left (fun acc r => insert_role r acc) l acc) ->
            In x acc \/ In x l) as G.
  { induction l as [|r l IH]; simpl; intros acc H; auto.
    apply IH in H. destruct H as [H|H]; auto.
    apply insert_role_In in H. destruct H as [->|H]; auto. }
  intro H. apply G in H. destruct H as [[]|H]. exact H.
Qed.



Section AssetEdges.

Variable rt : Runtime.
Variable base_url : string.





End AssetEdges.

Lemma answer_edges_question_pass (rt : Runtime) (ix : index)
  (ati : pydict string) (c1 : list Ctc.row) (items : list json)
  (st st' : state) :
  answer_edges_after c1 st ->
  for_each (question_step rt ix ati) items st = Ok st' ->
  answer_edges_after c1 st'.
Proof.
  apply for_each_inv. intros it s s' _ Hs Hstep.
  eapply (@question_step_inv rt ix ati it (answer_edges_after c1));
    [| | |exact Hs|exact Hstep].
  - intros s0 aid _ H. unfold _ensure_answer_content.
    destruct (negb (aid =? "") && negb (smem (JStr aid) (known_ids s0)));
      exact H.
  - intros s0 qid aid lbl idx _ _ _ Hl (answers & E & F).
    exists (answers ++ [edge rt qid (JStr aid) (Some lbl) idx]).
    unfold with_ctc. cbn [ctc]. rewrite E, app_assoc. split; [reflexivity|].
    apply Forall_snoc; auto. unfold answer_edge. cbn.
    destruct Hl as [-> | ->]; auto.
  - intros s0 qid idx t _ _ H. exact H.
Qed.

(** *** The index of the edges of every pass *)




Lemma blocks_impl (P Q : list Ctc.row -> Prop) (t : list Ctc.row) :
  (forall b, P b -> Q b) -> blocks P t -> blocks Q t.
Proof.
  intros H (bs & -> & F). exists bs. split; [reflexivity|].
  eapply Forall_impl; eauto.
Qed.


Section RecordBlocks.

Variable rt : Runtime.






End RecordBlocks.



Section TermIndex.

Variable rt : Runtime.
Variable ix : index.
Variable rg : registry.
Variable c3 : list Ctc.row.






End TermIndex.

Section AnswerBlocks.

Variable rt : Runtime.





End AnswerBlocks.





(** ** C10: a record without a name *)

Lemma dget_dset (V : Type) (k k' : json) (v : V) (d : pydict V) :
  hashable k = true ->
  dget k' (dset k v d) = if key_eqb k k' then Some v else dget k' d.
Proof.
  intro Hh. induction d as [|[k0 v0] d IH]; cbn [dset dget].
  - reflexivity.
  - destruct (key_eqb k0 k) eqn:E0; cbn [dget].
    + destruct (key_eqb k0 k') eqn:E1.
      * assert (key_eqb k k' = true) as Hkk.
        { eapply key_eqb_trans; [|exact E1]. rewrite key_eqb_sym. exact E0. }
        rewrite Hkk. reflexivity.
      * destruct (key_eqb k k') eqn:E2; [|reflexivity].
        rewrite (key_eqb_trans _ _ _ E0 E2) in E1. discriminate.
    + rewrite IH. destruct (key_eqb k0 k') eqn:E1; [|reflexivity].
      destruct (key_eqb k k') eqn:E2; [|reflexivity].
      rewrite key_eqb_sym in E2. rewrite (key_eqb_trans _ _ _ E1 E2) in E0.
      discriminate.
Qed.

Lemma falsy_truthy_neq (a b : json) :
  truthy a = false -> truthy b = true -> key_eqb a b = false.
Proof.
  unfold key_eqb.
  destruct a as [|[]|za|sa|[|]|[|]], b as [|[]|zb|sb|[|]|[|]];
    cbn -[Z.eqb String.eqb]; intros Ha Hb; try discriminate; try reflexivity.
  - apply negb_true_iff in Hb. rewrite Z.eqb_sym. exact Hb.
  - apply negb_false_iff in Ha. apply Z.eqb_eq in Ha. subst. reflexivity.
  - apply negb_false_iff in Ha. apply Z.eqb_eq in Ha. subst.
    apply negb_true_iff in Hb. rewrite Z.eqb_sym. exact Hb.
  - apply negb_false_iff in Ha. apply String.eqb_eq in Ha. subst.
    apply negb_true_iff in Hb. rewrite String.eqb_sym. exact Hb.
Qed.

Lemma agree_refl (ix : index) : agree ix ix.
Proof. intros k _. auto. Qed.

Lemma included_agree (ix ix' : index) (name : json) :
  agree ix ix' -> included ix name = included ix' name.
Proof.
  intro Ha. unfold included. destruct (truthy name) eqn:Et; cbn [negb]; auto.
  destruct (hashable name); auto.
  destruct (Ha name Et) as (_ & _ & ->). reflexivity.
Qed.

(** The inclusion step raises or not by the record alone, and keeps two
    agreeing indexes in agreement. *)
Lemma inclusion_step_agree (it : json) (ix ix' : index) :
  agree ix ix' ->
  res_rel agree (inclusion_step it ix) (inclusion_step it ix').
Proof.
  intro Ha. unfold inclusion_step.
  destruct (py_get it "name" JNull) as [name|e]; cbn [bind res_rel]; auto.
  assert (res_rel (fun a b => forall k, truthy k = true -> dget k a = dget k b)
            (if truthy name then dassign name it (items_index ix)
             else Ok (items_index ix))
            (if truthy name then dassign name it (items_index ix')
             else Ok (items_index ix'))) as Hii.
  { destruct (truthy name).
    - unfold dassign. destruct (hashable name) eqn:Hh; cbn [res_rel]; auto.
      intros k Hk. rewrite !dget_dset by assumption.
      destruct (key_eqb name k); auto. apply Ha. assumption.
    - cbn [res_rel]. intros k Hk. apply Ha. assumption. }
  destruct (if truthy name then dassign name it (items_index ix)
            else Ok (items_index ix)) as [ii|e1],
           (if truthy name then dassign name it (items_index ix')
            else Ok (items_index ix')) as [ii'|e1'];
    cbn [res_rel bind] in *; try contradiction; auto.
  destruct (py_get it "path" (JStr "")) as [path|e]; cbn [bind res_rel]; auto.
  destruct (infer_type_label path) as [tl|e]; cbn [bind res_rel]; auto.
  unfold dassign. destruct (hashable name) eqn:Hh; cbn [bind res_rel]; auto.
  intros k Hk. cbn [items_index type_cache include_mask].
  destruct (Ha k Hk) as (A1 & A2 & A3).
  split; [apply Hii; assumption|]. split.
  - rewrite !dget_dset by assumption. rewrite A2. reflexivity.
  - destruct (opt_Z_eqb (fst tl) TYPE_Page);
      rewrite !dget_dset by assumption; rewrite A3; reflexivity.
Qed.

(** On a record without a name the step returns, and only entries under
    falsy keys change. *)
Lemma inclusion_step_nameless (r : json) (ix : index) :
  nameless r ->
  exists ix', inclusion_step r ix = Ok ix' /\ agree ix ix'.
Proof.
  intros (d & -> & Hf & Hh & Hp). unfold inclusion_step, py_get.
  cbn [bind]. fold (dict_get d "name"). rewrite Hf.
  cbn [bind].
  assert (exists tl, infer_type_label (from_option (JStr "") (lookup "path" d))
                     = Ok tl) as (tl & ->).
  { unfold infer_type_label.
    destruct (lookup "path" d) as [p|] eqn:El; cbn [from_option].
    - destruct (truthy p) eqn:Et; cbn [negb]; [|eexists; reflexivity].
      destruct (Hp p eq_refl Et) as (s & ->). eexists; reflexivity.
    - eexists; reflexivity. }
  cbn [bind]. unfold dassign. rewrite Hh. cbn [bind].
  eexists. split; [reflexivity|].
  intros k Hk. cbn [items_index type_cache include_mask].
  pose proof (falsy_truthy_neq _ _ Hf Hk) as Hne.
  split; [reflexivity|]. split.
  - rewrite dget_dset by assumption. rewrite Hne. reflexivity.
  - destruct (opt_Z_eqb (fst tl) TYPE_Page);
      rewrite !dget_dset by assumption; rewrite Hne; reflexivity.
Qed.

Lemma agree_trans (a b c : index) : agree a b -> agree b c -> agree a c.
Proof.
  intros H1 H2 k Hk. destruct (H1 k Hk) as (A1 & A2 & A3).
  destruct (H2 k Hk) as (B1 & B2 & B3). repeat split; congruence.
Qed.

Lemma for_each_inclusion_agree (l : list json) :
  forall ix ix', agree ix ix' ->
  res_rel agree (for_each inclusion_step l ix) (for_each inclusion_step l ix').
Proof.
  induction l as [|it l IH]; cbn [for_each]; intros ix ix' Ha.
  - exact Ha.
  - pose proof (inclusion_step_agree it Ha) as Hs.
    destruct (inclusion_step it ix) as [a|e], (inclusion_step it ix') as [b|e'];
      cbn [res_rel bind] in *; try contradiction; auto.
Qed.

Lemma for_each_app (A S : Type) (body : A -> S -> result S) (l1 l2 : list A)
  (st : S) :
  for_each body (l1 ++ l2) st =
  (st' <- for_each body l1 st ;; for_each body l2 st').
Proof.
  revert st. induction l1 as [|x l1 IH]; cbn [for_each app bind]; intro st.
  - reflexivity.
  - destruct (body x st); cbn [bind]; auto.
Qed.

Lemma build_index_skip (l1 l2 : list json) (r : json) :
  nameless r ->
  res_rel agree (build_index (l1 ++ l2)) (build_index (l1 ++ r :: l2)).
Proof.
  intro Hn. unfold build_index. rewrite !for_each_app.
  destruct (for_each inclusion_step l1 (mk_index [] [] [])) as [ix1|e];
    cbn [bind res_rel for_each]; auto.
  destruct (inclusion_step_nameless ix1 Hn) as (ix2 & -> & Ha).
  cbn [bind]. apply for_each_inclusion_agree. assumption.
Qed.

Lemma for_each_ext (A S : Type) (f g : A -> S -> result S) (l : list A) :
  (forall x st, In x l -> f x st = g x st) ->
  forall st, for_each f l st = for_each g l st.
Proof.
  induction l as [|x l IH]; cbn [for_each]; intros H st; auto.
  rewrite (H x st (or_introl eq_refl)).
  destruct (g x st); cbn [bind]; auto.
  apply IH. intros; apply H; right; assumption.
Qed.

(** A loop over the records does not see a record its body skips. *)
Lemma pass_skip (S : Type) (body body' : json -> S -> result S)
  (l1 l2 : list json) (r : json) (st : S) :
  (forall x s, body x s = body' x s) ->
  (forall s, body' r s = Ok s) ->
  for_each body (l1 ++ l2) st = for_each body' (l1 ++ r :: l2) st.
Proof.
  intros Hext Hskip. rewrite !for_each_app.
  rewrite (for_each_ext body body' l1) by auto.
  destruct (for_each body' l1 st) as [s1|e]; cbn [bind for_each]; auto.
  rewrite Hskip. cbn [bind]. apply for_each_ext. auto.
Qed.

Lemma included_true_truthy (ix : index) (name : json) :
  included ix name = Ok true -> truthy name = true.
Proof.
  unfold included. destruct (truthy name); cbn [negb]; auto.
  intro H. discriminate H.
Qed.

Lemma nameless_not_included (ix : index) (r : json) :
  nameless r ->
  exists n, py_get r "name" JNull = Ok n /\ included ix n = Ok false.
Proof.
  intros (d & -> & Hf & _ & _). exists (dict_get d "name").
  split; [reflexivity|]. unfold included. rewrite Hf. reflexivity.
Qed.

Section Congruence.

Variable rt : Runtime.
Variables ix ix' : index.
Hypothesis Ha : agree ix ix'.

Lemma type_cache_agree (name : json) :
  truthy name = true -> dget name (type_cache ix) = dget name (type_cache ix').
Proof. intro Ht. apply (Ha name Ht). Qed.

Lemma content_step_agree (it : json) (rg : registry) :
  content_step rt ix it rg = content_step rt ix' it rg.
Proof.
  unfold content_step.
  destruct (py_get it "name" JNull) as [name|e]; cbn [bind]; auto.
  rewrite (included_agree name Ha).
  destruct (included ix' name) as [[|]|e] eqn:Ei; cbn [bind negb]; auto.
  rewrite (type_cache_agree name (included_true_truthy _ _ Ei)). reflexivity.
Qed.

Lemma text_step_agree (it : json) (s : list Ctt.row) :
  text_step rt ix it s = text_step rt ix' it s.
Proof.
  unfold text_step.
  destruct (py_get it "name" JNull) as [name|e]; cbn [bind]; auto.
  rewrite (included_agree name Ha). reflexivity.
Qed.

Lemma attr_step_agree (it : json) (s : list Cta.row) :
  attr_step rt ix it s = attr_step rt ix' it s.
Proof.
  unfold attr_step.
  destruct (py_get it "name" JNull) as [name|e]; cbn [bind]; auto.
  rewrite (included_agree name Ha). reflexivity.
Qed.

Lemma children_step_agree (rg : registry) (field : string) (wl : bool)
  (it : json) (s : list Ctc.row) :
  children_step rt ix rg field wl it s = children_step rt ix' rg field wl it s.
Proof.
  unfold children_step.
  destruct (py_get it "name" JNull) as [name|e]; cbn [bind]; auto.
  rewrite (included_agree name Ha). reflexivity.
Qed.

Lemma term_ref_step_agree (rg : registry) (term_id ref : json)
  (acc : list Ctc.row * pydict Z) :
  term_ref_step rt ix rg term_id ref acc = term_ref_step rt ix' rg term_id ref acc.
Proof.
  unfold term_ref_step.
  match goal with
  | |- bind ?m _ = bind ?m _ => destruct m as [ppid|e]; cbn [bind]; auto
  end.
  destruct (ppid =? "") eqn:E; cbn [orb]; auto.
  rewrite (type_cache_agree (JStr ppid)); [reflexivity|].
  cbn [truthy]. rewrite E. reflexivity.
Qed.

Lemma term_step_agree (rg : registry) (t : json * json)
  (acc : list Ctc.row * pydict Z) :
  term_step rt ix rg t acc = term_step rt ix' rg t acc.
Proof.
  unfold term_step.
  destruct (py_get (snd t) "data" JNull) as [d0|e]; cbn [bind]; auto.
  destruct (py_get (py_or d0 (JDict [])) "contentReference" JNull) as [r1|e];
    cbn [bind]; auto.
  match goal with
  | |- bind ?m _ = bind ?m _ => destruct m as [r2|e]; cbn [bind]; auto
  end.
  destruct (negb (truthy r2)); auto.
  destruct r2; auto using term_ref_step_agree.
  apply for_each_ext. intros; apply term_ref_step_agree.
Qed.

Lemma record_edges_agree (rg : registry) (items : list json) :
  record_edges rt ix rg items = record_edges rt ix' rg items.
Proof.
  unfold record_edges.
  destruct (for_each (curriculum_step rt rg) (curricula rg) []) as [c1|e];
    cbn [bind]; auto.
  rewrite (for_each_ext (children_step rt ix rg "lessons" false)
             (children_step rt ix' rg "lessons" false))
    by (intros; apply children_step_agree).
  destruct (for_each (children_step rt ix' rg "lessons" false) items c1)
    as [c2|e]; cbn [bind]; auto.
  rewrite (for_each_ext (children_step rt ix rg "pages" true)
             (children_step rt ix' rg "pages" true))
    by (intros; apply children_step_agree).
  destruct (for_each (children_step rt ix' rg "pages" true) items c2)
    as [c3|e]; cbn [bind]; auto.
  rewrite (for_each_ext (term_step rt ix rg) (term_step rt ix' rg))
    by (intros; apply term_step_agree).
  reflexivity.
Qed.

Lemma asset_step_agree (base : string) (it : json) (st : state) :
  asset_step rt ix base it st = asset_step rt ix' base it st.
Proof.
  unfold asset_step.
  destruct (py_get it "name" JNull) as [name|e]; cbn [bind]; auto.
  rewrite (included_agree name Ha).
  destruct (included ix' name) as [[|]|e] eqn:Ei; cbn [bind negb]; auto.
  rewrite (type_cache_agree name (included_true_truthy _ _ Ei)). reflexivity.
Qed.

Lemma page_asset_step_agree (base : string) (pg : json * json) (st : state) :
  truthy (fst pg) = true ->
  page_asset_step rt ix base pg st = page_asset_step rt ix' base pg st.
Proof.
  intro Ht. unfold page_asset_step.
  destruct (Ha (fst pg) Ht) as (_ & _ & ->). reflexivity.
Qed.

Lemma answer_text_agree (ati : pydict string) (answer_id : string) :
  answer_id <> "" ->
  answer_text rt ix ati answer_id = answer_text rt ix' ati answer_id.
Proof.
  intro Hne. unfold answer_text.
  assert (truthy (JStr answer_id) = true) as Ht.
  { cbn [truthy]. apply String.eqb_neq in Hne. rewrite Hne. reflexivity. }
  destruct (Ha (JStr answer_id) Ht) as (-> & _ & _). reflexivity.
Qed.

Lemma correct_step_agree (ati : pydict string) (qid ref : json)
  (acc : state * Z) :
  correct_step rt ix ati qid ref acc = correct_step rt ix' ati qid ref acc.
Proof.
  unfold correct_step.
  destruct (_extract_answer_id ref) as [aid|e]; cbn [bind]; auto.
  destruct (aid =? "") eqn:E; auto.
  apply String.eqb_neq in E. rewrite (answer_text_agree ati E). reflexivity.
Qed.

Lemma question_step_agree (ati : pydict string) (it : json) (st : state) :
  question_step rt ix ati it st = question_step rt ix' ati it st.
Proof.
  unfold question_step.
  destruct (py_get it "name" JNull) as [qid|e]; cbn [bind]; auto.
  rewrite (included_agree qid Ha).
  destruct (included ix' qid) as [[|]|e] eqn:Ei; cbn [bind negb]; auto.
  rewrite (type_cache_agree qid (included_true_truthy _ _ Ei)).
  destruct (negb _); auto.
  destruct (py_get it "data" JNull) as [d0|e]; cbn [bind]; auto.
  destruct (py_get (py_or d0 (JDict [])) "potentialAnswers" JNull) as [pot|e];
    cbn [bind]; auto.
  match goal with
  | |- bind ?m _ = bind ?m _ => destruct m as [st1|e]; cbn [bind]; auto
  end.
  destruct (py_get (py_or d0 (JDict [])) "correctAnswers" JNull) as [corr|e];
    cbn [bind]; auto.
  destruct corr as [| | | |[|x l]|]; auto.
  rewrite (for_each_ext (correct_step rt ix ati qid) (correct_step rt ix' ati qid))
    by (intros; apply correct_step_agree).
  reflexivity.
Qed.

End Congruence.

Section Skip.

Variable rt : Runtime.
Variable ix : index.
Variable r : json.
Hypothesis Hn : nameless r.

Ltac skip_nameless :=
  destruct (nameless_not_included ix Hn) as (n & Hname & Hinc);
  intros;
  try unfold content_step; try unfold text_step; try unfold attr_step;
  try unfold children_step; try unfold asset_step; try unfold question_step;
  rewrite Hname; cbn [bind]; rewrite Hinc; reflexivity.

Lemma content_step_skip (rg : registry) : content_step rt ix r rg = Ok rg.
Proof. skip_nameless. Qed.

Lemma text_step_skip (s : list Ctt.row) : text_step rt ix r s = Ok s.
Proof. skip_nameless. Qed.

Lemma attr_step_skip (s : list Cta.row) : attr_step rt ix r s = Ok s.
Proof. skip_nameless. Qed.

Lemma children_step_skip (rg : registry) (field : string) (wl : bool)
  (s : list Ctc.row) : children_step rt ix rg field wl r s = Ok s.
Proof. skip_nameless. Qed.

Lemma asset_step_skip (base : string) (st : state) :
  asset_step rt ix base r st = Ok st.
Proof. skip_nameless. Qed.

Lemma question_step_skip (ati : pydict string) (st : state) :
  question_step rt ix ati r st = Ok st.
Proof. skip_nameless. Qed.

End Skip.

Lemma pages_keys_truthy (rt : Runtime) (ix : index) (items : list json)
  (rg : registry) :
  build_registry rt ix items = Ok rg ->
  forall pg, In pg (pages rg) -> truthy (fst pg) = true.
Proof.
  unfold build_registry. intro H.
  assert (forall k, In k (keys (pages rg)) -> truthy k = true) as G.
  { loop_inv (fun g : registry => forall k, In k (keys (pages g)) -> truthy k = true) H.
    - intros it s s' _ Hs Hstep k Hk. unfold content_step in Hstep.
      apply bind_Ok_inv in Hstep. destruct Hstep as (name & Hname & Hstep).
      apply bind_Ok_inv in Hstep. destruct Hstep as (inc & Hinc & Hstep).
      cbv beta in Hstep. destruct inc; cbn [negb] in Hstep;
        [|apply Ok_inj in Hstep; subst; auto].
      destruct (dget name (type_cache ix)) as [[ctype clabel]|];
        [|discriminate].
      apply Ok_inj in Hstep. subst s'. cbn [pages] in Hk.
      destruct (opt_Z_eqb ctype TYPE_Page); auto.
      apply dset_keys in Hk. destruct Hk as [Hk| ->]; auto.
      eapply included_true_truthy; eauto.
    - intros k []. }
  intros pg Hpg. apply G. apply in_map. assumption.
Qed.

Lemma record_edges_skip (rt : Runtime) (ix ix' : index) (rg : registry)
  (l1 l2 : list json) (r : json) :
  agree ix ix' -> nameless r ->
  record_edges rt ix rg (l1 ++ l2) = record_edges rt ix' rg (l1 ++ r :: l2).
Proof.
  intros Ha Hn. unfold record_edges.
  destruct (for_each (curriculum_step rt rg) (curricula rg) []) as [c1|e];
    cbn [bind]; auto.
  rewrite (pass_skip (children_step rt ix rg "lessons" false)
             (children_step rt ix' rg "lessons" false) l1 l2 r)
    by (intros; first [apply children_step_agree; assumption
                      | apply children_step_skip; assumption]).
  destruct (for_each (children_step rt ix' rg "lessons" false) (l1 ++ r :: l2) c1)
    as [c2|e]; cbn [bind]; auto.
  rewrite (pass_skip (children_step rt ix rg "pages" true)
             (children_step rt ix' rg "pages" true) l1 l2 r)
    by (intros; first [apply children_step_agree; assumption
                      | apply children_step_skip; assumption]).
  destruct (for_each (children_step rt ix' rg "pages" true) (l1 ++ r :: l2) c2)
    as [c3|e]; cbn [bind]; auto.
  rewrite (for_each_ext (term_step rt ix rg) (term_step rt ix' rg))
    by (intros; apply term_step_agree; assumption).
  reflexivity.
Qed.

(** Past the inclusion loop, the run with the record is the run without
    it. *)
Lemma run_with_skip (rt : Runtime) (base : string) (ix ix' : index)
  (l1 l2 : list json) (r : json) :
  agree ix ix' -> nameless r ->
  run_with rt base ix (l1 ++ l2) = run_with rt base ix' (l1 ++ r :: l2).
Proof.
  intros Ha Hn. unfold run_with, build_registry.
  rewrite (pass_skip (content_step rt ix) (content_step rt ix') l1 l2 r)
    by (intros; first [apply content_step_agree; assumption
                      | apply content_step_skip; assumption]).
  destruct (for_each (content_step rt ix') (l1 ++ r :: l2) _) as [rg|e] eqn:Erg;
    cbn [bind]; auto.
  rewrite (pass_skip (text_step rt ix) (text_step rt ix') l1 l2 r)
    by (intros; first [apply text_step_agree; assumption
                      | apply text_step_skip; assumption]).
  destruct (for_each (text_step rt ix') (l1 ++ r :: l2) []) as [ctt0|e];
    cbn [bind]; auto.
  rewrite (pass_skip (attr_step rt ix) (attr_step rt ix') l1 l2 r)
    by (intros; first [apply attr_step_agree; assumption
                      | apply attr_step_skip; assumption]).
  destruct (for_each (attr_step rt ix') (l1 ++ r :: l2) []) as [cta0|e];
    cbn [bind]; auto.
  rewrite (record_edges_skip rt rg l1 l2 Ha Hn).
  destruct (record_edges rt ix' rg (l1 ++ r :: l2)) as [ctc0|e];
    cbn [bind]; auto.
  rewrite (pass_skip (asset_step rt ix base) (asset_step rt ix' base) l1 l2 r)
    by (intros; first [apply asset_step_agree; assumption
                      | apply asset_step_skip; assumption]).
  destruct (for_each (asset_step rt ix' base) (l1 ++ r :: l2) _) as [st1|e];
    cbn [bind]; auto.
  rewrite (for_each_ext (page_asset_step rt ix base) (page_asset_step rt ix' base))
    by (intros pg s Hpg; apply page_asset_step_agree; [assumption|];
        eapply pages_keys_truthy; [exact Erg|exact Hpg]).
  destruct (for_each (page_asset_step rt ix' base) (pages rg) st1) as [st2|e];
    cbn [bind]; auto.
  rewrite (pass_skip (question_step rt ix (build_answer_text_index ctt0))
             (question_step rt ix' (build_answer_text_index ctt0)) l1 l2 r)
    by (intros; first [apply question_step_agree; assumption
                      | apply question_step_skip; assumption]).
  reflexivity.
Qed.

(** C10, as the code has it.  Let [r] be a record whose name is missing or
    falsy and whose path is absent, falsy or a string.  A run over a list
    that holds [r] resolves a base URL [base] (the explicit one, else the
    one inferred from the first absolute image URL of any record, [r]
    included); past that, [r] is invisible: the run returns the tables, or
    raises the exception, of the run over the list without [r] under the
    explicit base URL [base].  So [r] adds no row to any table and no
    edge, and with an explicit base URL the output is that of the run
    without [r]. *)
Theorem nameless_record_only_feeds_base (rt : Runtime) (l1 l2 : list json)
  (r : json) (link_lessons_to_assets : bool) (base_url : option string)
  (base : string) :
  nameless r ->
  resolve_base rt (l1 ++ r :: l2) base_url = Ok base ->
  transform rt (l1 ++ r :: l2) link_lessons_to_assets base_url =
  transform rt (l1 ++ l2) link_lessons_to_assets (Some base).
Proof.
  intros Hn Hb. unfold transform, transform_run. rewrite Hb.
  cbn [resolve_base bind].
  pose proof (build_index_skip l1 l2 Hn) as Hix.
  destruct (build_index (l1 ++ l2)) as [ix|e],
           (build_index (l1 ++ r :: l2)) as [ix'|e'];
    cbn [res_rel bind] in *; try contradiction.
  - rewrite (run_with_skip rt base l1 l2 Hix Hn). reflexivity.
  - subst. reflexivity.
Qed.

Lemma nameless_with_image_is_nameless : nameless nameless_with_image.
Proof.
  eexists. split; [reflexivity|]. split; [reflexivity|]. split; [reflexivity|].
  intros p Hp _. cbn in Hp. injection Hp as <-. eauto.
Qed.

Lemma nameless_record_only_feeds_base_witness :
  nameless nameless_with_image /\
  resolve_base offline_urlparse ([] ++ nameless_with_image :: [lesson_relative_image])
    None = Ok "http://cdn.example" /\
  transform offline_urlparse ([] ++ nameless_with_image :: [lesson_relative_image])
    true None =
  transform offline_urlparse ([] ++ [lesson_relative_image]) true
    (Some "http://cdn.example").
Proof.
  split; [exact nameless_with_image_is_nameless|].
  split; [reflexivity|].
  apply (nameless_record_only_feeds_base offline_urlparse []
           [lesson_relative_image] true None nameless_with_image_is_nameless).
  reflexivity.
Defined.

(** C10 as stated fails: without an explicit base URL, a record without a
    name still decides the base host of the URL rows of other records. *)
Lemma nameless_record_unaffecting_counterexample :
  nameless nameless_with_image /\
  transform offline_urlparse [nameless_with_image; lesson_relative_image] true None
  <> transform offline_urlparse [lesson_relative_image] true None.
Proof.
  split; [exact nameless_with_image_is_nameless|].
  vm_compute. intro H. discriminate H.
Qed.

(** ** C8: a malformed whole input *)

(** C8, as the code has it.  [main] is fatal on a source that is not an
    object ([src.get] raises) and on a record array that is present but
    not a list ([ValueError], raised before the transformation starts, so
    nothing is written).  A missing record array is not fatal: it is read
    as the empty list, the transformation runs and four empty tables are
    written. *)
Theorem main_fatal_on_wrong_shape_only (rt : Runtime)
  (dam_base : option string) :
  (forall src, (forall d, src <> JDict d) ->
     main rt src dam_base = Raise AttributeError) /\
  (forall d v, lookup "data" d = Some v -> (forall l, v <> JList l) ->
     main rt (JDict d) dam_base = Raise ValueError) /\
  (forall d, lookup "data" d = None ->
     main rt (JDict d) dam_base = Ok (Tables.mk [] [] [] [])).
Proof.
  split; [|split].
  - intros src Hs. destruct src; try reflexivity. exfalso. eapply Hs; eauto.
  - intros d v Hl Hv. unfold main, py_get. rewrite Hl. cbn [from_option bind].
    destruct v; try reflexivity. exfalso. eapply Hv; eauto.
  - intros d Hl. unfold main, py_get. rewrite Hl. cbn [from_option bind].
    destruct (dam_base_arg dam_base); reflexivity.
Qed.

Lemma main_fatal_on_wrong_shape_only_witness :
  ((forall d, JStr "data" <> JDict d) /\
   main offline (JStr "data") None = Raise AttributeError) /\
  (lookup "data" [("data", JDict [])] = Some (JDict []) /\
   (forall l, JDict [] <> JList l) /\
   main offline (JDict [("data", JDict [])]) None = Raise ValueError) /\
  (lookup "data" [("items", JList [])] = None /\
   main offline (JDict [("items", JList [])]) None = Ok (Tables.mk [] [] [] [])).
Proof.
  destruct (main_fatal_on_wrong_shape_only offline None) as (H1 & H2 & H3).
  assert (forall d, JStr "data" <> JDict d) as N1 by (intros d H; discriminate H).
  assert (forall l, JDict [] <> JList l) as N2 by (intros l H; discriminate H).
  split; [|split].
  - split; [exact N1|]. apply H1. exact N1.
  - split; [reflexivity|]. split; [exact N2|].
    apply (H2 [("data", JDict [])] (JDict [])); [reflexivity|exact N2].
  - split; [reflexivity|]. apply H3. reflexivity.
Defined.

(** C8 as stated fails twice: a source without the record array is not
    fatal, and one bad record is: a reference whose path is a number makes
    the run raise. *)
Lemma malformed_input_fatal_counterexample :
  main offline (JDict []) None = Ok (Tables.mk [] [] [] []) /\
  main offline (JDict [("data", JList curriculum_bad_ref)]) None
    = Raise AttributeError.
Proof. split; reflexivity. Qed.

(** ** C2 and C3: what the code does at the failing inputs *)

(** C2 at its failing input: two records that carry one name are
    registered twice; the content-row loop does not ask [known_ids]. *)
Theorem duplicate_name_registered_twice (rt : Runtime) :
  exists t,
    transform rt twin_lessons true None = Ok t /\
    ids (Tables.content t) = [JStr "intro"; JStr "intro"] /\
    ~ NoDup (ids (Tables.content t)).
Proof.
  eexists. split; [vm_compute; reflexivity|]. split; [reflexivity|].
  cbn. intro H. inversion H as [|x l Hin Hnd]; subst. apply Hin. left. reflexivity.
Qed.

(** C3 at its failing input: a lesson shows one picture under two roles
    (generic image 404, title image 405); the asset is met twice, so the
    two roles are emitted twice: four edges. *)
Theorem two_roles_four_edges :
  exists t,
    transform offline lesson_two_roles true None = Ok t /\
    map (fun e => (Ctc.parent_cms_id e, Ctc.child_cms_id e,
                   Ctc.child_content_label_id e))
        (Tables.content_to_content t) =
    [ (JStr "l1", JStr "pic", Some 405%Z); (JStr "l1", JStr "pic", Some 404%Z);
      (JStr "l1", JStr "pic", Some 405%Z); (JStr "l1", JStr "pic", Some 404%Z) ] /\
    map (fun r => (Content.cms_id r, Content.content_label_id r))
        (Tables.content t) =
    [ (JStr "l1", None); (JStr "pic", Some 405%Z) ].
Proof.
  eexists. split; [vm_compute; reflexivity|]. split; reflexivity.
Qed.

(** ** C4: the role of a generic image *)

Section GenericRole.

Variable rt : Runtime.
Variable base_url : string.




End GenericRole.

(** *** A generic reference is recorded under 404 and linked *)




Lemma insert_role_complete (r x : option Z) (l : list (option Z)) :
  x = r \/ In x l -> In x (insert_role r l).
Proof.
  induction l as [|y l IH]; cbn [insert_role].
  - intros [->|[]]. left. reflexivity.
  - destruct (role_priority y <? role_priority r)%Z.
    + intros [->|H]; [left; reflexivity|right; assumption].
    + intros [->|[->|H]]; [right; apply IH; auto|left; reflexivity|].
      right. apply IH. auto.
Qed.

Lemma sort_roles_complete (x : option Z) (l : list (option Z)) :
  In x l -> In x (sort_roles l).
Proof.
  unfold sort_roles.
  assert (forall acc, In x acc \/ In x l ->
            In x (fold_left (fun acc r => insert_role r acc) l acc)) as G.
  { induction l as [|r l IH]; cbn [fold_left]; intros acc H.
    - destruct H as [H|[]]. assumption.
    - apply IH. destruct H as [H|[<-|H]]; auto.
      + left. apply insert_role_complete. auto.
      + left. apply insert_role_complete. auto. }
  intro H. apply G. auto.
Qed.


Section GenericLinked.

Variable rt : Runtime.
Variable base_url : string.
Variable aid : string.






Variable parent : json.


End GenericLinked.




(** * Further properties of the helpers *)

(** ** Strings *)

Lemma split_nonempty (c : ascii) (s : string) : split c s <> [].
Proof.
  destruct s as [|a s]; cbn [split]; [discriminate|].
  destruct (Ascii.eqb a c); [discriminate|].
  destruct (split c s); discriminate.
Qed.

(** [(a + c + t).split(c) == a.split(c) + t.split(c)]. *)
Lemma split_app (c : ascii) (a t : string) :
  split c (a ++ String c t) = split c a ++ split c t.
Proof.
  induction a as [|x a IH]; cbn [append split].
  - rewrite Ascii.eqb_refl. reflexivity.
  - destruct (Ascii.eqb x c); [rewrite IH; reflexivity|].
    rewrite IH. destruct (split c a) eqn:E; [|reflexivity].
    exfalso. exact (split_nonempty _ _ E).
Qed.

Lemma last_app_nonempty {A : Type} (l1 l2 : list A) (d : A) :
  l2 <> [] -> last (l1 ++ l2) d = last l2 d.
Proof.
  intro H. induction l1 as [|x l1 IH]; [reflexivity|].
  cbn [app]. destruct (l1 ++ l2) eqn:E.
  - apply app_eq_nil in E. destruct E. contradiction.
  - rewrite <- IH. reflexivity.
Qed.

(** [c in s] for one character. *)
Lemma contains_char_cons (c a : ascii) (s : string) :
  contains (String c "") (String a s) =
  Ascii.eqb a c || contains (String c "") s.
Proof.
  cbn [contains String.prefix].
  destruct (ascii_dec c a) as [->|N].
  - rewrite Ascii.eqb_refl. destruct s; reflexivity.
  - assert (Ascii.eqb a c = false) as ->
      by (apply Ascii.eqb_neq; congruence).
    reflexivity.
Qed.

Lemma contains_char_nil (c : ascii) : contains (String c "") "" = false.
Proof. reflexivity. Qed.

Lemma contains_char_app (c : ascii) (s t : string) :
  contains (String c "") (s ++ t) =
  contains (String c "") s || contains (String c "") t.
Proof.
  induction s as [|a s IH]; [reflexivity|].
  cbn [append]. rewrite !contains_char_cons, IH. apply orb_assoc.
Qed.

(** The pieces of a split hold no separator. *)
Lemma split_free (c : ascii) (s : string) :
  Forall (fun w => contains (String c "") w = false) (split c s).
Proof.
  induction s as [|a s IH]; cbn [split].
  - repeat constructor.
  - destruct (Ascii.eqb a c) eqn:E; [constructor; [reflexivity|assumption]|].
    destruct (split c s) as [|w ws]; [repeat constructor; rewrite contains_char_cons, E; reflexivity|].
    inversion IH; subst. constructor; [|assumption].
    rewrite contains_char_cons, E. assumption.
Qed.

(** A character missing from [s] is missing from its pieces. *)
Lemma split_keeps_free (c x : ascii) (s : string) :
  contains (String x "") s = false ->
  Forall (fun w => contains (String x "") w = false) (split c s).
Proof.
  induction s as [|a s IH]; cbn [split]; intro H.
  - repeat constructor.
  - rewrite contains_char_cons in H. apply orb_false_iff in H.
    destruct H as [Ha Hs]. specialize (IH Hs).
    destruct (Ascii.eqb a c); [constructor; [reflexivity|assumption]|].
    destruct (split c s) as [|w ws].
    + repeat constructor. rewrite contains_char_cons, Ha. reflexivity.
    + inversion IH; subst. constructor; [|assumption].
      rewrite contains_char_cons, Ha. assumption.
Qed.

(** Without a separator there is one piece. *)
Lemma split_id (c : ascii) (s : string) :
  contains (String c "") s = false -> split c s = [s].
Proof.
  induction s as [|a s IH]; [reflexivity|]. intro H.
  rewrite contains_char_cons in H. apply orb_false_iff in H.
  destruct H as [Ha Hs]. cbn [split]. rewrite Ha, (IH Hs). reflexivity.
Qed.

Lemma last_In {A : Type} (l : list A) (d : A) : l <> [] -> In (last l d) l.
Proof.
  induction l as [|x l IH]; [congruence|]. intros _.
  destruct l as [|y l]; [left; reflexivity|].
  right. apply IH. discriminate.
Qed.

Lemma basename_free (p : string) : contains "/" (basename p) = false.
Proof.
  unfold basename, last_of.
  pose proof (split_free slash p) as F. rewrite Forall_forall in F.
  apply F. apply last_In. apply split_nonempty.
Qed.

(** The base name looks only at what follows the last slash. *)
Lemma basename_app (a t : string) :
  basename (a ++ String slash t) = basename t.
Proof.
  unfold basename, last_of. rewrite split_app.
  apply last_app_nonempty. apply split_nonempty.
Qed.

Lemma rstrip_head (c a : ascii) (s : string) :
  Ascii.eqb a c = false -> exists r, rstrip c (String a s) = String a r.
Proof.
  intro H. cbn [rstrip]. rewrite H.
  destruct (rstrip c s); eauto.
Qed.

Lemma startswith_slash (a : ascii) (s : string) :
  startswith (String a s) "/" = Ascii.eqb a slash.
Proof.
  unfold startswith. cbn [String.prefix].
  destruct (ascii_dec "/" a) as [<-|N]; [destruct s; reflexivity|].
  symmetry. apply Ascii.eqb_neq. unfold slash. congruence.
Qed.

Lemma prefix_head (p s : string) (a b : ascii) :
  a <> b -> String.prefix (String a p) (String b s) = false.
Proof.
  intro N. cbn [String.prefix]. destruct (ascii_dec a b); [contradiction|].
  reflexivity.
Qed.

(** ** [_normalize_url] *)

Lemma base_or_default_nonempty (base : option string) :
  base_or_default base <> "".
Proof.
  unfold base_or_default. destruct base as [b|]; [|discriminate].
  destruct (b =? "") eqn:E; [discriminate|].
  apply String.eqb_neq. assumption.
Qed.

(** The shape of a normalised value: itself, or a base in front of a
    relative path. *)
Lemma normalize_url_cases (url : json) (base : option string) :
  _normalize_url url base = url \/
  exists t, url = JStr (String slash t) /\
    _normalize_url url base =
      JStr (rstrip slash (base_or_default base) ++ String slash t).
Proof.
  unfold _normalize_url. destruct url as [| | |s| |]; auto.
  destruct (s =? ""); auto.
  destruct (_ || _); auto.
  destruct s as [|a s]; [left; reflexivity|].
  rewrite startswith_slash.
  destruct (Ascii.eqb a slash) eqn:E; [|left; reflexivity].
  apply Ascii.eqb_eq in E. subst a.
  destruct (startswith _ REL_DAM_PREFIX); cbn [andb]; eauto.
Qed.

(** X1.  Normalising is idempotent as long as the base in use does not
    itself start with a slash: a value that was normalised once is left
    alone by a second pass. *)
Theorem normalize_url_idempotent (url : json) (base : option string) :
  startswith (base_or_default base) "/" = false ->
  _normalize_url (_normalize_url url base) base = _normalize_url url base.
Proof.
  intro Hb. destruct (normalize_url_cases url base) as [E|(t & -> & E)].
  - rewrite E. exact E.
  - rewrite E.
    destruct (base_or_default base) as [|a b] eqn:Eb;
      [exfalso; eapply base_or_default_nonempty; eauto|].
    rewrite startswith_slash in Hb. destruct (@rstrip_head slash a b Hb) as (r & ->).
    cbn [append]. unfold _normalize_url. cbn [String.eqb].
    destruct (_ || _); [reflexivity|].
    rewrite startswith_slash, Hb. reflexivity.
Qed.

Lemma normalize_url_idempotent_witness :
  startswith (base_or_default (Some "https://cdn.example/")) "/" = false /\
  _normalize_url
    (_normalize_url (JStr "/content/dam/teladoc-headless/image/a.png")
       (Some "https://cdn.example/")) (Some "https://cdn.example/") =
  JStr "https://cdn.example/content/dam/teladoc-headless/image/a.png".
Proof.
  split; [reflexivity|].
  rewrite (@normalize_url_idempotent
             (JStr "/content/dam/teladoc-headless/image/a.png")
             (Some "https://cdn.example/") eq_refl).
  reflexivity.
Defined.

(** X2.  Normalising a URL changes neither the asset id nor the extension
    derived from it: the base goes in front of the last slash. *)
Theorem normalize_url_keeps_asset_name (rt : Runtime) (s : string)
  (base : option string) :
  derive_asset_id (py_str rt (_normalize_url (JStr s) base)) =
    derive_asset_id s /\
  derive_asset_ext rt (py_str rt (_normalize_url (JStr s) base)) =
    derive_asset_ext rt s.
Proof.
  destruct (normalize_url_cases (JStr s) base) as [E|(t & Es & E)].
  - rewrite E. split; reflexivity.
  - rewrite E. injection Es as ->. cbn [py_str].
    unfold derive_asset_id, derive_asset_ext.
    rewrite basename_app.
    change (basename (String slash t)) with (basename ("" ++ String slash t)).
    rewrite basename_app. split; reflexivity.
Qed.

Lemma hd_split_free (c x : ascii) (s : string) :
  contains (String x "") s = false ->
  contains (String x "") (first_of (split c s)) = false.
Proof.
  intro H. apply (split_keeps_free c) in H. unfold first_of.
  destruct (split c s); [reflexivity|]. inversion H; assumption.
Qed.

(** X3.  An asset id holds neither a slash nor a dot. *)
Theorem asset_id_has_no_separator (url aid : string) :
  derive_asset_id url = Some aid ->
  contains "/" aid = false /\ contains "." aid = false.
Proof.
  unfold derive_asset_id. destruct (basename url =? ""); [discriminate|].
  intro H. injection H as <-. split.
  - apply hd_split_free. apply basename_free.
  - pose proof (split_free dot (basename url)) as F. unfold first_of.
    destruct (split dot (basename url)); [reflexivity|].
    inversion F; assumption.
Qed.

Lemma asset_id_has_no_separator_witness :
  derive_asset_id "/content/dam/img/pic.v2.png" = Some "pic" /\
  contains "/" "pic" = false /\ contains "." "pic" = false.
Proof.
  split; [reflexivity|].
  exact (@asset_id_has_no_separator "/content/dam/img/pic.v2.png" "pic" eq_refl).
Defined.

Lemma basename_of_path (dir file : string) :
  contains "/" file = false -> basename (dir ++ String slash file) = file.
Proof.
  intro H. rewrite basename_app. unfold basename, last_of.
  rewrite (split_id slash file H). reflexivity.
Qed.

(** X4.  The id of [dir/name.rest] is [name], whatever the directory and
    whatever follows the first dot of the file name. *)
Theorem asset_id_of_path (dir name rest : string) :
  contains "/" name = false -> contains "." name = false ->
  contains "/" rest = false ->
  derive_asset_id (dir ++ "/" ++ name ++ "." ++ rest) = Some name.
Proof.
  intros Hn Hd Hr. unfold derive_asset_id. cbn [append].
  change (String "/" (name ++ String "." rest))
    with (String slash (name ++ String dot rest)).
  rewrite basename_of_path.
  - assert ((name ++ String dot rest =? "") = false) as ->
      by (apply String.eqb_neq; destruct name; discriminate).
    rewrite split_app, (split_id dot name Hd). reflexivity.
  - rewrite contains_char_app, contains_char_cons, Hn, Hr. reflexivity.
Qed.

Lemma asset_id_of_path_witness :
  derive_asset_id
    ("https://cdn.example/content/dam" ++ "/" ++ "pic" ++ "." ++ "v2.png?w=1")
  = Some "pic".
Proof.
  apply asset_id_of_path; reflexivity.
Defined.

(** X5.  The extension of [dir/stem.e] and of [dir/stem.e?q] is [e],
    lower-cased and stripped: the query is cut off. *)
Theorem asset_ext_of_path (rt : Runtime) (dir stem e q : string) :
  contains "/" stem = false ->
  contains "/" e = false -> contains "." e = false -> contains "?" e = false ->
  contains "/" q = false -> contains "." q = false ->
  derive_asset_ext rt (dir ++ "/" ++ stem ++ "." ++ e) =
    str_strip rt (str_lower rt e) /\
  derive_asset_ext rt (dir ++ "/" ++ stem ++ "." ++ e ++ "?" ++ q) =
    str_strip rt (str_lower rt e).
Proof.
  intros Hs He1 He2 He3 Hq1 Hq2. unfold derive_asset_ext. cbn [append].
  change (String "/" (stem ++ String "." e))
    with (String slash (stem ++ String dot e)).
  change (String "/" (stem ++ String "." (e ++ String "?" q)))
    with (String slash (stem ++ String dot (e ++ String qmark q))).
  rewrite !basename_of_path
    by (rewrite ?contains_char_app, ?contains_char_cons, ?contains_char_app,
          ?contains_char_cons, ?Hs, ?He1, ?Hq1; reflexivity).
  unfold dot, qmark.
  rewrite !contains_char_app, !contains_char_cons, Ascii.eqb_refl.
  rewrite !orb_true_r. rewrite !split_app. unfold last_of.
  rewrite !last_app_nonempty by apply split_nonempty.
  rewrite (@split_id "." e He2).
  rewrite (@split_id "." (e ++ String "?" q))
    by (rewrite contains_char_app, contains_char_cons, He2, Hq2; reflexivity).
  cbn [last]. rewrite split_app, (@split_id "?" e He3).
  split; reflexivity.
Qed.

Lemma asset_ext_of_path_witness :
  derive_asset_ext offline ("/content/dam" ++ "/" ++ "pic.v2" ++ "." ++ "png") =
    str_strip offline (str_lower offline "png") /\
  derive_asset_ext offline
    ("/content/dam" ++ "/" ++ "pic.v2" ++ "." ++ "png" ++ "?" ++ "w=100") =
    str_strip offline (str_lower offline "png").
Proof.
  apply asset_ext_of_path; reflexivity.
Defined.

(** ** [_extract_image_url] *)

Lemma first_nonempty_str_sound (d : list (string * json)) (keys : list string)
  (s : string) :
  first_nonempty_str d keys = Some s ->
  s <> "" /\ exists k, In k keys /\ dict_get d k = JStr s.
Proof.
  induction keys as [|k keys IH]; cbn [first_nonempty_str]; [discriminate|].
  unfold nonempty_str at 1.
  destruct (dict_get d k) as [| | |v| |] eqn:E;
    try (intro H; destruct (IH H) as (Hs & k' & Hk & Hd);
         split; [assumption|]; exists k'; split; [right|]; assumption).
  destruct (v =? "") eqn:Ev.
  - intro H. destruct (IH H) as (Hs & k' & Hk & Hd).
    split; [assumption|]. exists k'. split; [right|]; assumption.
  - intro H. injection H as <-. split; [apply String.eqb_neq; assumption|].
    exists k. split; [left; reflexivity|assumption].
Qed.

(** X6.  What [_extract_image_url] returns is never empty, and it is the
    value itself or the string held by the dict under one of the six
    reference keys. *)
Theorem extract_image_url_sound (img : json) (s : string) :
  _extract_image_url img = Some s ->
  s <> "" /\
  (img = JStr s \/
   exists d k,
     img = JDict d /\
     In k ["src"; "url"; "fileReference"; "fileRef"; "path"; "href"] /\
     dict_get d k = JStr s).
Proof.
  unfold _extract_image_url. destruct img as [| | |v| |d]; try discriminate.
  - destruct (v =? "") eqn:Ev; [discriminate|]. intro H. injection H as <-.
    split; [apply String.eqb_neq; assumption|left; reflexivity].
  - intro H. apply first_nonempty_str_sound in H.
    destruct H as (Hs & k & Hk & Hd). split; [assumption|].
    right. exists d, k. auto.
Qed.

Lemma extract_image_url_sound_witness :
  _extract_image_url (JDict [("src", JStr ""); ("path", JStr "/img/a.png")])
    = Some "/img/a.png" /\
  "/img/a.png" <> "".
Proof.
  split; [reflexivity|].
  exact (proj1 (@extract_image_url_sound
                  (JDict [("src", JStr ""); ("path", JStr "/img/a.png")])
                  "/img/a.png" eq_refl)).
Defined.

(** ** [infer_type_label] *)

Lemma find_app_first (A : Type) (f : A -> bool) (l1 l2 : list A) :
  find f (l1 ++ l2) =
  match find f l1 with Some x => Some x | None => find f l2 end.
Proof.
  induction l1 as [|x l1 IH]; [reflexivity|].
  cbn [app find]. destruct (f x); [reflexivity|assumption].
Qed.

Lemma scan_segments_spec (parts : list string) :
  forall ctype,
    scan_segments parts ctype =
    match find is_label parts with
    | Some seg => (Some TYPE_Page, lookup seg LABEL_MAP)
    | None =>
        (match find is_token (rev parts) with
         | Some seg => lookup seg PATH_TOKEN_TO_TYPE_ID
         | None => ctype
         end, None)
    end.
Proof.
  induction parts as [|seg rest IH]; intro ctype; [reflexivity|].
  cbn [scan_segments find rev]. unfold is_label at 1.
  destruct (lookup seg LABEL_MAP) as [lbl|] eqn:El;
    [cbv iota beta; rewrite El; reflexivity|].
  rewrite find_app_first. cbn [find]. unfold is_token at 2.
  destruct (lookup seg PATH_TOKEN_TO_TYPE_ID) as [t|] eqn:Et; rewrite IH;
    destruct (find is_label rest); try reflexivity;
    destruct (find is_token (rev rest)); cbv iota beta; rewrite ?Et;
    reflexivity.
Qed.

(** X7.  The type and label of a path: if a segment names a page kind, the
    record is a Page with the label of the first such segment, whatever
    the other segments; otherwise the type is that of the last segment
    naming a content type (none: no type), and there is no label. *)
Theorem infer_type_label_spec (p : string) :
  infer_type_label (JStr p) =
  Ok (let parts := split slash (strip slash p) in
      match find is_label parts with
      | Some seg => (Some TYPE_Page, lookup seg LABEL_MAP)
      | None =>
          (match find is_token (rev parts) with
           | Some seg => lookup seg PATH_TOKEN_TO_TYPE_ID
           | None => None
           end, None)
      end).
Proof.
  unfold infer_type_label. cbn [truthy].
  destruct (p =? "") eqn:E; cbn [negb].
  - apply String.eqb_eq in E. subst p. reflexivity.
  - cbv zeta. rewrite scan_segments_spec. reflexivity.
Qed.

Lemma lookup_value (T : list (string * Z)) (k : string) (v : Z) :
  lookup k T = Some v -> In v (map snd T).
Proof.
  induction T as [|[k' v'] T IH]; cbn [lookup map snd]; [discriminate|].
  destruct (k' =? k); [intro H; injection H as <-; left; reflexivity|].
  intro H. right. apply IH. assumption.
Qed.

(** X8.  A label only comes with the type Page, and it is one of the page
    kinds; the type inferred from a path is never Asset (6): it is one of
    1, 2, 3, 4, 5, 7, 8. *)
Theorem infer_type_label_range (path : json) (t l : option Z) :
  infer_type_label path = Ok (t, l) ->
  (forall lbl, l = Some lbl ->
     t = Some TYPE_Page /\ In lbl (map snd LABEL_MAP)) /\
  (forall ty, t = Some ty -> In ty [1; 2; 3; 4; 5; 7; 8]%Z).
Proof.
  assert (forall parts c,
            (forall ty, c = Some ty -> In ty [1; 2; 3; 4; 5; 7; 8]%Z) ->
            scan_segments parts c = (t, l) ->
            (forall lbl, l = Some lbl ->
               t = Some TYPE_Page /\ In lbl (map snd LABEL_MAP)) /\
            (forall ty, t = Some ty -> In ty [1; 2; 3; 4; 5; 7; 8]%Z)) as G.
  { induction parts as [|seg rest IH]; intros c Hc H; cbn [scan_segments] in H.
    - injection H as <- <-. split; [discriminate|assumption].
    - destruct (lookup seg LABEL_MAP) as [lbl|] eqn:El.
      + injection H as <- <-. split.
        * intros x Hx. injection Hx as <-. split; [reflexivity|].
          eapply lookup_value; eauto.
        * intros ty Hty. injection Hty as <-. cbn. auto 10.
      + destruct (lookup seg PATH_TOKEN_TO_TYPE_ID) as [tk|] eqn:Et.
        * apply (IH (Some tk)); [|assumption].
          intros ty Hty. injection Hty as <-.
          apply lookup_value in Et. cbn in Et. cbn.
          intuition auto.
        * apply (IH c); assumption. }
  unfold infer_type_label. destruct (negb (truthy path)).
  - intro H. injection H as <- <-. split; discriminate.
  - destruct path; try discriminate. intro H. apply Ok_inj in H.
    eapply G; [|exact H]. discriminate.
Qed.

Lemma infer_type_label_range_witness :
  infer_type_label (JStr "/content/lesson/l1/imagePage/p1")
    = Ok (Some 4%Z, Some 305%Z) /\
  Some 4%Z = Some TYPE_Page /\ In 305%Z (map snd LABEL_MAP).
Proof.
  split; [reflexivity|].
  exact (proj1 (@infer_type_label_range
                  (JStr "/content/lesson/l1/imagePage/p1")
                  (Some 4%Z) (Some 305%Z) eq_refl) 305%Z eq_refl).
Defined.

(** ** [_dig] and the metadata document *)

Lemma dig_null (path_list : list string) : _dig JNull path_list = JNull.
Proof. destruct path_list; reflexivity. Qed.

Lemma dig_compose (obj : json) (p q : list string) :
  _dig obj (p ++ q) = _dig (_dig obj p) q.
Proof.
  revert obj. induction p as [|k p IH]; intro obj; [reflexivity|].
  cbn [app _dig].
  destruct obj; try (symmetry; apply dig_null).
  destruct (lookup k d); [apply IH|symmetry; apply dig_null].
Qed.

(** X9.  Digging along a path is digging along its first part, then along
    the rest from there; a missing key or a value that is not a dict on
    the way gives null for the whole path. *)
Theorem dig_app (obj : json) (p q : list string) :
  _dig obj (p ++ q) = _dig (_dig obj p) q /\
  (_dig obj p = JNull -> _dig obj (p ++ q) = JNull).
Proof.
  split; [apply dig_compose|].
  intro H. rewrite dig_compose, H. apply dig_null.
Qed.

(** X10.  A metadata document without [jcr:content/metadata] gives the
    fallback values: the asset id as title, width and height 0, the
    default mime type. *)
Theorem metadata_of_empty (rt : Runtime) (asset_id : string) (meta : json) :
  _dig meta ["jcr:content"; "metadata"] = JNull ->
  metadata_of rt asset_id meta = mk_meta asset_id 0 0 "image/jpeg".
Proof.
  intro H.
  assert (forall k, _dig meta ["jcr:content"; "metadata"; k] = JNull) as Hk.
  { intro k.
    change ["jcr:content"; "metadata"; k]
      with (["jcr:content"; "metadata"] ++ [k]).
    rewrite dig_compose, H. reflexivity. }
  unfold metadata_of. rewrite !Hk. reflexivity.
Qed.

Lemma metadata_of_empty_witness :
  _dig (JDict [("jcr:content", JDict [("jcr:primaryType", JStr "dam:Asset")])])
    ["jcr:content"; "metadata"] = JNull /\
  metadata_of offline "pic"
    (JDict [("jcr:content", JDict [("jcr:primaryType", JStr "dam:Asset")])])
  = mk_meta "pic" 0 0 "image/jpeg".
Proof.
  split; [reflexivity|]. apply metadata_of_empty. reflexivity.
Defined.

(** ** [sorted(roles, key=priority, reverse=True)] *)

Lemma insert_role_desc (r : option Z) (l : list (option Z)) :
  priority_desc l -> priority_desc (insert_role r l).
Proof.
  induction l as [|x l IH]; cbn [insert_role priority_desc].
  - intros _. split; [intros ? []|exact I].
  - intros [Hx Hl].
    destruct (role_priority x <? role_priority r)%Z eqn:E;
      cbn [priority_desc].
    + apply Z.ltb_lt in E. split; [|split; assumption].
      intros y [<-|Hy]; [lia|]. specialize (Hx y Hy). lia.
    + apply Z.ltb_ge in E. split; [|apply IH; assumption].
      intros y Hy. apply insert_role_In in Hy.
      destruct Hy as [->|Hy]; [assumption|apply Hx; assumption].
Qed.

Lemma insert_role_length (r : option Z) (l : list (option Z)) :
  length (insert_role r l) = S (length l).
Proof.
  induction l as [|x l IH]; [reflexivity|]. cbn [insert_role].
  destruct (role_priority x <? role_priority r)%Z; cbn [length]; auto.
Qed.

(** X11.  The roles of an asset are emitted by priority, highest first:
    sorting keeps the roles, their number, and orders them so that the
    priority never goes up. *)
Theorem sort_roles_sorted (l : list (option Z)) :
  priority_desc (sort_roles l) /\
  length (sort_roles l) = length l /\
  (forall x, In x (sort_roles l) <-> In x l).
Proof.
  split; [|split].
  - unfold sort_roles.
    apply (@fold_left_inv _ _ priority_desc); [|exact I].
    intros r acc _ Hacc. apply insert_role_desc. assumption.
  - unfold sort_roles.
    assert (forall acc,
              length (fold_left (fun acc r => insert_role r acc) l acc) =
              (length acc + length l)%nat) as G.
    { induction l as [|r l IH]; intro acc; cbn [fold_left length]; [lia|].
      rewrite IH, insert_role_length. lia. }
    apply G.
  - intro x. split; [apply sort_roles_In|apply sort_roles_complete].
Qed.

(** ** [_pick_base_url] *)

Lemma first_origin_sound (rt : Runtime) (urls : list json) (r : result string) :
  first_origin rt urls = Some r ->
  exists s,
    In (JStr s) urls /\ startswith s "http" = true /\
    r = match urlparse_origin rt s with
        | Some o => Ok o
        | None => Raise ValueError
        end.
Proof.
  induction urls as [|u urls IH]; cbn [first_origin]; [discriminate|].
  destruct (origin_of rt u) as [r'|] eqn:E.
  - intro H. injection H as <-. unfold origin_of in E.
    destruct u as [| | |s| |]; try discriminate.
    destruct (startswith s "http") eqn:Es; [|discriminate].
    injection E as <-. exists s. split; [left; reflexivity|]. auto.
  - intro H. destruct (IH H) as (s & Hin & Hs). exists s.
    split; [right; assumption|assumption].
Qed.

(** X12.  A base URL picked from the records is the origin of an absolute
    image URL found in one of them. *)
Theorem pick_base_url_sound (rt : Runtime) (items : list json) (o : string) :
  _pick_base_url rt items = Ok (Some o) -> base_from rt items o.
Proof.
  induction items as [|it items IH]; cbn [_pick_base_url]; [discriminate|].
  intro H. apply bind_Ok_inv in H. destruct H as (d0 & Hd & H). cbv beta in H.
  assert (base_from rt items o -> base_from rt (it :: items) o) as Hnext.
  { intros (it' & d' & data & s & Hin & Hrest).
    exists it', d', data, s. split; [right; assumption|assumption]. }
  assert (forall (r : result string),
            (o' <- r ;; Ok (Some o')) = Ok (Some o) -> r = Ok o) as Hr.
  { intros [o'|e] Hb; cbn [bind] in Hb; [|discriminate].
    apply Ok_inj in Hb. congruence. }
  destruct (py_or d0 (JDict [])) as [| | | | |data] eqn:Edata; try discriminate.
  destruct (first_origin rt (map (dict_get data) IMAGE_URL_KEYS)) as [r|] eqn:E1.
  - apply Hr in H. subst r. apply first_origin_sound in E1.
    destruct E1 as (s & Hin & Hs & E).
    exists it, d0, data, s. split; [left; reflexivity|].
    split; [assumption|]. split; [assumption|]. split; [left; assumption|].
    split; [assumption|].
    destruct (urlparse_origin rt s); [congruence|discriminate].
  - destruct (dict_get data "images") as [| | | |imgs|] eqn:Ei;
      try (apply Hnext, IH; assumption).
    destruct (first_origin rt imgs) as [r|] eqn:E2;
      [|apply Hnext, IH; assumption].
    apply Hr in H. subst r. apply first_origin_sound in E2.
    destruct E2 as (s & Hin & Hs & E).
    exists it, d0, data, s. split; [left; reflexivity|].
    split; [assumption|]. split; [assumption|].
    split; [right; exists imgs; auto|]. split; [assumption|].
    destruct (urlparse_origin rt s); [congruence|discriminate].
Qed.

Lemma pick_base_url_sound_witness :
  _pick_base_url offline_urlparse [nameless_with_image; lesson_relative_image]
    = Ok (Some "http://cdn.example") /\
  base_from offline_urlparse [nameless_with_image; lesson_relative_image]
    "http://cdn.example".
Proof.
  split; [reflexivity|]. apply pick_base_url_sound. reflexivity.
Defined.
